(** * TajGST: ground-temperature logger scripts

    A shallow embedding of the three scripts of the repository

    - [scripts/plot_ground_temperature.py]   (module [Plot]),
    - [scripts/interactive_map.py]           (module [Map]),
    - [scripts/apply_time_offset_sangvor.py] (module [Offset]),

    together with the parts of the Python runtime they rest on (rich
    comparison and [list.sort], [str] methods, [pathlib], [datetime]).

    Conventions.  A Python [str] is a [string] whose characters stand for the
    code points U+0000..U+00FF.  A Python [int] is a [Z].  A [dict] with string
    keys is a [gmap string _].  A Python exception that the scripts catch or
    let escape is a value of [exn] carried in the left summand of a sum. *)

From Stdlib Require Import ZArith Ascii.
From Stdlib Require String.
From stdpp Require Import base option list sorting gmap strings fin_maps.

Local Open Scope Z_scope.

(** * Rich comparison *)

(** Python's [<] and [<=] on the values the scripts sort and compare
    ([datetime], [PurePath], [str], [int], and lists of them) are total
    orders; [list.sort] only ever calls [<]. *)
Class PyOrd (A : Type) := {
  ple : A → A → bool;
  ple_refl a : ple a a = true;
  ple_trans a b c : ple a b = true → ple b c = true → ple a c = true;
  ple_antisym a b : ple a b = true → ple b a = true → a = b;
  ple_total a b : ple a b = true ∨ ple b a = true
}.

Definition plt `{PyOrd A} (a b : A) : bool := negb (ple b a).

Section ord_facts.
Context `{PyOrd A}.

Lemma plt_irrefl (a : A) : plt a a = false.
Proof. unfold plt. by rewrite ple_refl. Qed.

Lemma plt_ple (a b : A) : plt a b = true → ple a b = true.
Proof.
    unfold plt. intros Hn. destruct (ple_total a b) as [?|Hba]; [done|].
    by rewrite Hba in Hn.
Qed.

Lemma plt_ne (a b : A) : plt a b = true → a ≠ b.
Proof. intros Hlt ->. by rewrite plt_irrefl in Hlt. Qed.

Lemma ple_ne_plt (a b : A) : ple a b = true → a ≠ b → plt a b = true.
Proof.
    intros Hab Hne. unfold plt. destruct (ple b a) eqn:Hba; [|done].
    destruct Hne. by apply ple_antisym.
Qed.

Lemma plt_asym (a b : A) : plt a b = true → plt b a = false.
Proof. intros Hlt. unfold plt. by rewrite (plt_ple _ _ Hlt). Qed.

Lemma plt_ple_trans (a b c : A) :
    plt a b = true → ple b c = true → plt a c = true.
Proof.
    unfold plt. intros Hab Hbc. destruct (ple c a) eqn:Hca; [|done].
    by rewrite (ple_trans _ _ _ Hbc Hca) in Hab.
Qed.

Lemma ple_plt_trans (a b c : A) :
    ple a b = true → plt b c = true → plt a c = true.
Proof.
    unfold plt. intros Hab Hbc. destruct (ple c a) eqn:Hca; [|done].
    by rewrite (ple_trans _ _ _ Hca Hab) in Hbc.
Qed.

Lemma not_plt_ple (a b : A) : plt a b = false → ple b a = true.
Proof. unfold plt. by destruct (ple b a). Qed.
End ord_facts.

(** [int] comparison. *)
#[export] Program Instance Z_PyOrd : PyOrd Z := {| ple := Z.leb |}.
Next Obligation. intros. apply Z.leb_refl. Qed.
Next Obligation. intros a b c ?%Z.leb_le ?%Z.leb_le. apply Z.leb_le. lia. Qed.
Next Obligation. intros a b ?%Z.leb_le ?%Z.leb_le. lia. Qed.
Next Obligation.
  intros a b. destruct (Z.leb_spec a b); [by left|right]. apply Z.leb_le. lia.
Qed.

(** [str] comparison: by code point. *)
#[export] Program Instance string_PyOrd : PyOrd string := {| ple := String.leb |}.
Next Obligation. intros a. by apply Is_true_true, (reflexivity (R:=String.le)). Qed.
Next Obligation.
  intros a b c ?%Is_true_true ?%Is_true_true.
  by apply Is_true_true, (transitivity (R:=String.le) (y:=b)).
Qed.
Next Obligation.
  intros a b ?%Is_true_true ?%Is_true_true. by apply (anti_symm String.le).
Qed.
Next Obligation.
  intros a b. destruct (total String.le a b); [left|right]; by apply Is_true_true.
Qed.

(** Sequence comparison (tuples and lists): the first position where the two
    sequences differ decides; a proper prefix is smaller. *)
Fixpoint lex_le `{PyOrd A} (l1 l2 : list A) : bool :=
  match l1, l2 with
  | [], _ => true
  | _ :: _, [] => false
  | x :: l1', y :: l2' =>
      if ple x y && ple y x then lex_le l1' l2' else ple x y
  end.

Section lex.
Context `{PyOrd A}.

Lemma ple_both (x y : A) : ple x y && ple y x = true ↔ x = y.
Proof.
    split.
    - intros [??]%andb_true_iff. by apply ple_antisym.
    - intros ->. by rewrite ple_refl.
Qed.

Lemma lex_le_refl (l : list A) : lex_le l l = true.
Proof. induction l as [|x l IH]; [done|]. simpl. by rewrite !ple_refl. Qed.

Lemma lex_le_antisym (l1 l2 : list A) :
    lex_le l1 l2 = true → lex_le l2 l1 = true → l1 = l2.
Proof.
    revert l2. induction l1 as [|x l1 IH]; intros [|y l2]; simpl; try done.
    destruct (ple x y) eqn:Hxy, (ple y x) eqn:Hyx; simpl; try done.
    intros ??. f_equal; [by apply ple_antisym|by apply IH].
Qed.

Lemma lex_le_total (l1 l2 : list A) :
    lex_le l1 l2 = true ∨ lex_le l2 l1 = true.
Proof.
    revert l2. induction l1 as [|x l1 IH]; intros [|y l2]; simpl; auto.
    destruct (ple x y) eqn:Hxy, (ple y x) eqn:Hyx; simpl; auto.
    destruct (ple_total x y); congruence.
Qed.

Lemma lex_le_trans (l1 l2 l3 : list A) :
    lex_le l1 l2 = true → lex_le l2 l3 = true → lex_le l1 l3 = true.
Proof.
    revert l2 l3.
    induction l1 as [|x l1 IH]; intros [|y l2] [|z l3]; simpl; try done.
    destruct (ple x y && ple y x) eqn:Exy.
    - apply ple_both in Exy as ->.
      destruct (ple y z && ple z y); [apply IH|done].
    - destruct (ple y z && ple z y) eqn:Eyz.
      + apply ple_both in Eyz as <-. rewrite Exy. done.
      + intros Hxy Hyz. pose proof (ple_trans _ _ _ Hxy Hyz) as Hxz.
        destruct (ple x z && ple z x) eqn:Exz; [|done].
        apply ple_both in Exz as <-.
        rewrite Hxy, Hyz in Exy. done.
Qed.
End lex.

#[export] Instance list_PyOrd `{PyOrd A} : PyOrd (list A) := {|
  ple := lex_le;
  ple_refl := lex_le_refl;
  ple_trans := lex_le_trans;
  ple_antisym := lex_le_antisym;
  ple_total := lex_le_total
|}.

(** An object that compares through a tuple of its fields inherits the
    order of the tuple, provided the tuple determines the object. *)
Definition PyOrd_by {A B} `{PyOrd B} (f : A → B) (Hinj : Inj (=) (=) f) : PyOrd A.
Proof.
  refine {| ple a b := ple (f a) (f b) |}.
  - intros a. apply ple_refl.
  - intros a b c. apply ple_trans.
  - intros a b ??. apply Hinj. by apply ple_antisym.
  - intros a b. apply ple_total.
Defined.

(** * [list.sort] and the duplicate-dropping scan *)

(** [list.sort(key=...)] is a stable sort that compares keys with [<] only.
    It is modelled by the stable insertion sort; [stable_sort_unique] below
    shows that every stable sort returns the same list. *)
Section list_sort.
Context {A K : Type} `{PyOrd K, EqDecision K} (key : A → K).

Fixpoint insert_sorted (x : A) (l : list A) : list A :=
  match l with
  | [] => [x]
  | y :: l' =>
      if plt (key y) (key x) then y :: insert_sorted x l' else x :: y :: l'
  end.

Definition list_sort (l : list A) : list A := foldr insert_sorted [] l.

(** The scan of [concatenate_timeseries]: [last] is the variable
    [last_timestamp], which starts as [None]; an element is appended when its
    key differs from [last], and [last] is then set to that key. *)
Fixpoint unique_scan (last : option K) (l : list A) : list A :=
  match l with
  | [] => []
  | x :: l' =>
      if decide (Some (key x) ≠ last)
      then x :: unique_scan (Some (key x)) l'
      else unique_scan last l'
  end.

(** Keys never decrease / always increase along the list. *)
Definition key_sorted : list A → Prop :=
  StronglySorted (λ a b, ple (key a) (key b) = true).
Definition key_increasing : list A → Prop :=
  StronglySorted (λ a b, plt (key a) (key b) = true).

(** The elements carrying key [k], in list order. *)
Definition at_key (k : K) (l : list A) : list A := filter (λ a, key a = k) l.

End list_sort.

(** * [str] methods *)

Module PyStr.

Definition code (c : ascii) : Z := Z.of_N (N_of_ascii c).
Definition chr (n : Z) : ascii := ascii_of_N (Z.to_N n).

(** [str.isspace] on U+0000..U+00FF; the same set is matched by [\s] in a
    [str] pattern and removed by [str.strip()]. *)
Definition is_space (c : ascii) : bool :=
  let n := code c in
  ((9 <=? n) && (n <=? 13)) || ((28 <=? n) && (n <=? 32))
  || (n =? 133) || (n =? 160).

(** [\d] in a [str] pattern, and the digits [int()] reads: below U+0100 these
    are the ASCII digits. *)
Definition is_digit (c : ascii) : bool :=
  let n := code c in (48 <=? n) && (n <=? 57).

Definition digit_value (c : ascii) : Z := code c - 48.

Definition len (s : string) : Z := Z.of_nat (String.length s).

Fixpoint lstrip_by (p : ascii → bool) (s : string) : string :=
  match s with
  | EmptyString => EmptyString
  | String c s' => if p c then lstrip_by p s' else s
  end.

Fixpoint rstrip_by (p : ascii → bool) (s : string) : string :=
  match s with
  | EmptyString => EmptyString
  | String c s' =>
      match rstrip_by p s' with
      | EmptyString => if p c then EmptyString else String c EmptyString
      | r => String c r
      end
  end.

(** [s.strip()] *)
Definition strip (s : string) : string := rstrip_by is_space (lstrip_by is_space s).

(** [s.rstrip(chars)] for a one-character [chars]. *)
Definition rstrip_char (ch : ascii) (s : string) : string :=
  rstrip_by (λ c, bool_decide (c = ch)) s.

(** [s.split(sep)] for a one-character separator. *)
Fixpoint split (sep : ascii) (s : string) : list string :=
  match s with
  | EmptyString => [EmptyString]
  | String c s' =>
      if decide (c = sep) then EmptyString :: split sep s'
      else match split sep s' with
           | [] => [String c EmptyString]
           | p :: ps => String c p :: ps
           end
  end.

(** [sep.join(l)] *)
Fixpoint join (sep : string) (l : list string) : string :=
  match l with
  | [] => EmptyString
  | [x] => x
  | x :: l' => x +:+ sep +:+ join sep l'
  end.

Definition startswith (s pre : string) : bool := String.prefix pre s.

Fixpoint endswith (s suf : string) : bool :=
  bool_decide (s = suf)
  || match s with
     | EmptyString => false
     | String _ s' => endswith s' suf
     end.

(** [sub in s] *)
Fixpoint contains (s sub : string) : bool :=
  String.prefix sub s
  || match s with
     | EmptyString => false
     | String _ s' => contains s' sub
     end.

(** [s.replace(ch, "")] for a one-character [ch]. *)
Fixpoint remove_char (ch : ascii) (s : string) : string :=
  match s with
  | EmptyString => EmptyString
  | String c s' =>
      if decide (c = ch) then remove_char ch s' else String c (remove_char ch s')
  end.

Definition lower_char (c : ascii) : ascii :=
  let n := code c in
  if ((65 <=? n) && (n <=? 90))
     || ((192 <=? n) && (n <=? 222) && negb (n =? 215))
  then chr (n + 32) else c.

(** [s.lower()] *)
Fixpoint lower (s : string) : string :=
  match s with
  | EmptyString => EmptyString
  | String c s' => String (lower_char c) (lower s')
  end.

(** [s.upper()].  U+00DF becomes "SS".  The upper-case forms of U+00B5 and
    U+00FF lie above U+00FF; they are left in place, which does not affect a
    comparison of the result with an ASCII literal. *)
Definition upper_char (c : ascii) : string :=
  let n := code c in
  if ((97 <=? n) && (n <=? 122))
     || ((224 <=? n) && (n <=? 254) && negb (n =? 247))
  then String (chr (n - 32)) EmptyString
  else if n =? 223 then "SS"
  else String c EmptyString.

Fixpoint upper (s : string) : string :=
  match s with
  | EmptyString => EmptyString
  | String c s' => upper_char c +:+ upper s'
  end.

(** [s.rfind(ch)]: index of the last occurrence, [-1] if there is none. *)
Fixpoint rfind (ch : ascii) (s : string) : Z :=
  match s with
  | EmptyString => -1
  | String c s' =>
      let r := rfind ch s' in
      if 0 <=? r then r + 1 else if decide (c = ch) then 0 else -1
  end.

(** [s[:i]] and [s[i:]] for [0 <= i]. *)
Definition slice_to (i : Z) (s : string) : string := String.substring 0 (Z.to_nat i) s.
Definition slice_from (i : Z) (s : string) : string :=
  String.substring (Z.to_nat i) (String.length s - Z.to_nat i) s.

(** The number a string of ASCII digits denotes. *)
Definition int_of_digits (s : string) : Z :=
  fold_left (λ acc c, 10 * acc + digit_value c) (String.list_ascii_of_string s) 0.

(** Decimal of [0 <= n < 10 ^ width], padded with zeros to [width] digits. *)
Definition digit_char (d : Z) : ascii := chr (48 + d mod 10).

Fixpoint decimal_digits (width : nat) (n : Z) (acc : string) : string :=
  match width with
  | O => acc
  | S w => decimal_digits w (n / 10) (String (digit_char n) acc)
  end.

Definition zero_pad (width : nat) (n : Z) : string := decimal_digits width n EmptyString.

Lemma split_ne_nil sep s : split sep s ≠ [].
Proof.
  destruct s as [|c s]; simpl; [done|].
  destruct (decide _); [done|]. by destruct (split sep s).
Qed.

(** [s.replace(old, new)]: the occurrences of [old] are replaced from the
    left, without overlap.  [skip] counts the characters of the occurrence
    being replaced that are still to be passed over. *)
Fixpoint replace_from (old new : string) (skip : nat) (s : string) : string :=
  match s with
  | EmptyString => EmptyString
  | String c s' =>
      match skip with
      | S k => replace_from old new k s'
      | O =>
          if String.prefix old s
          then new +:+ replace_from old new (String.length old - 1) s'
          else String c (replace_from old new 0 s')
      end
  end.

(** With an empty [old], [new] is put before every character and at the
    end. *)
Fixpoint interleave (new s : string) : string :=
  match s with
  | EmptyString => new
  | String c s' => new +:+ String c (interleave new s')
  end.

Definition replace (old new s : string) : string :=
  if bool_decide (old = "") then interleave new s else replace_from old new 0 s.

(** The decimal digits of [0 <= n], most significant first. *)
Fixpoint decimal_fuel (fuel : nat) (n : Z) (acc : string) : string :=
  match fuel with
  | O => acc
  | S fuel' =>
      let acc' := String (digit_char n) acc in
      if n <? 10 then acc' else decimal_fuel fuel' (n / 10) acc'
  end.

(** [str(n)] for an [int]. *)
Definition str_int (n : Z) : string :=
  if n <? 0 then String "-" (decimal_fuel (S (Z.to_nat (Z.log2 (- n)))) (- n) EmptyString)
  else decimal_fuel (S (Z.to_nat (Z.log2 n))) n EmptyString.

End PyStr.

(** * Exceptions and mutable state *)

Inductive exn := ValueError | IndexError | OverflowError | AttributeError.

#[export] Instance exn_eq_dec : EqDecision exn.
Proof. solve_decision. Defined.

(** A statement sequence that mutates a store [S] and may raise.  A raised
    exception leaves behind the mutations made before it, as in Python. *)
Definition py (S X : Type) : Type := S → S * (exn + X).

#[export] Instance py_ret {S} : MRet (py S) := λ X x s, (s, inr x).
#[export] Instance py_bind {S} : MBind (py S) := λ X Y k m s,
  match m s with
  | (s', inl e) => (s', inl e)
  | (s', inr x) => k x s'
  end.

#[export] Instance py_fmap {S} : FMap (py S) := λ X Y f m, x ← m; mret (f x).

Definition raise {S X} (e : exn) : py S X := λ s, (s, inl e).

(** The value of an expression that may raise. *)
Definition eval {S X} (r : exn + X) : py S X := λ s, (s, r).

(** A library call that returns a value or raises [e]. *)
Definition or_raise {S X} (e : exn) (o : option X) : py S X :=
  eval (from_option inr (inl e) o).

(** An in-place update of the store ([list.append], [d[k] = v], [f.write]). *)
Definition update {S} (f : S → S) : py S () := λ s, (f s, inr ()).

(** [try: m  except <caught>: h] *)
Definition try_except {S X} (m : py S X) (caught : exn → bool) (h : exn → py S X)
    : py S X := λ s,
  match m s with
  | (s', inl e) => if caught e then h e s' else (s', inl e)
  | r => r
  end.

(** [for i, x in enumerate(l, i0): body] *)
Fixpoint for_enumerate {S A} (i0 : Z) (l : list A) (body : Z → A → py S ())
    : py S () :=
  match l with
  | [] => mret ()
  | x :: l' => body i0 x ;; for_enumerate (i0 + 1) l' body
  end.

(** [for x in l: body] *)
Definition for_each {S A} (l : list A) (body : A → py S ()) : py S () :=
  for_enumerate 1 l (λ _, body).

Definition except_ValueError (e : exn) : bool := bool_decide (e = ValueError).
Definition except_IndexError (e : exn) : bool := bool_decide (e = IndexError).
Definition except_Exception (e : exn) : bool := true.

(** [float(s)] and the comparisons on its results.  The scripts use floats
    only through parsing and [<=] against integer constants; the development
    is parametric in how the literal is read. *)
Class PyFloat := {
  float : Type;
  float_of_str : string → option float;  (* [None]: ValueError *)
  float_of_int : Z → float;
  float_le : float → float → bool
}.

(** * Regular-expression matching

    The regular expressions met in the scripts (the offset pattern) and in the
    library ([strptime]'s compiled format) are sequences of greedy pieces, each
    of which either is optional or is followed by a literal that none of its
    shorter matches can precede.  For such expressions the backtracking matcher
    of [re] takes the first, greedy choice everywhere, and matching is a
    left-to-right scan. *)

Module Scan.
Import PyStr.

(** A scanner consumes a prefix of the text and returns what it read, or
    fails. *)
Definition scanner (X : Type) : Type := list ascii → option (X * list ascii).

#[export] Instance scanner_ret : MRet scanner := λ X x s, Some (x, s).
#[export] Instance scanner_bind : MBind scanner := λ X Y k m s,
  match m s with
  | Some (x, s') => k x s'
  | None => None
  end.

(** A literal character. *)
Definition scan_char (ch : ascii) : scanner () := λ s,
  match s with
  | c :: rest => if decide (c = ch) then Some ((), rest) else None
  | [] => None
  end.

(** A literal string. *)
Fixpoint scan_lit (lit : list ascii) : scanner () :=
  match lit with
  | [] => mret ()
  | ch :: lit' => scan_char ch ;; scan_lit lit'
  end.

Fixpoint skip_spaces (l : list ascii) : list ascii :=
  match l with
  | c :: l' => if is_space c then skip_spaces l' else l
  | [] => []
  end.

(** [\s*] *)
Definition scan_spaces0 : scanner () := λ s, Some ((), skip_spaces s).

(** [\s+] *)
Definition scan_spaces : scanner () := λ s,
  match s with
  | c :: rest => if is_space c then Some ((), skip_spaces rest) else None
  | [] => None
  end.

Fixpoint span_digits (l : list ascii) : list ascii * list ascii :=
  match l with
  | c :: l' =>
      if is_digit c then let '(ds, rest) := span_digits l' in (c :: ds, rest)
      else ([], l)
  | [] => ([], [])
  end.

(** [(\d+)] *)
Definition scan_digits : scanner string := λ s,
  match span_digits s with
  | ([], _) => None
  | (ds, rest) => Some (String.string_of_list_ascii ds, rest)
  end.

(** [r?]: the group is [None] when [r] does not match here. *)
Definition scan_opt {X} (r : scanner X) : scanner (option X) := λ s,
  match r s with
  | Some (x, rest) => Some (Some x, rest)
  | None => Some (None, s)
  end.

End Scan.

(** * [datetime] *)

Module DateTime.
Import PyStr Scan.

(** A naive [datetime] with [microsecond = 0], which is all that
    [strptime] with the format below produces. *)
Record datetime := mk_datetime {
  year : Z; month : Z; day : Z; hour : Z; minute : Z; second : Z
}.

#[export] Instance datetime_eq_dec : EqDecision datetime.
Proof. solve_decision. Defined.

(** Comparison is that of the field tuples. *)
Definition fields (d : datetime) : list Z :=
  [year d; month d; day d; hour d; minute d; second d].

#[export] Instance fields_inj : Inj (=) (=) fields.
Proof. intros [] [] [=]. by simplify_eq. Qed.

#[export] Instance datetime_PyOrd : PyOrd datetime := PyOrd_by fields _.

(** [timedelta], normalised to days and [0 <= seconds < 86400]. *)
Record timedelta := mk_timedelta { days : Z; seconds : Z }.

#[export] Instance timedelta_eq_dec : EqDecision timedelta.
Proof. solve_decision. Defined.

(** [timedelta(days=d, hours=h, minutes=m, seconds=s)] *)
Definition timedelta_of (d h m s : Z) : exn + timedelta :=
  let total := h * 3600 + m * 60 + s in
  let d' := d + total / 86400 in
  if Z.abs d' <=? 999999999 then inr (mk_timedelta d' (total mod 86400))
  else inl OverflowError.

Definition is_leap (y : Z) : bool :=
  (y mod 4 =? 0) && (negb (y mod 100 =? 0) || (y mod 400 =? 0)).

Definition days_in_month (y m : Z) : Z :=
  if (m =? 2) && is_leap y then 29
  else nth (Z.to_nat m) [0; 31; 28; 31; 30; 31; 30; 31; 31; 30; 31; 30; 31] 0.

Definition days_before_month_table : list Z :=
  [0; 0; 31; 59; 90; 120; 151; 181; 212; 243; 273; 304; 334].

Definition days_before_month (y m : Z) : Z :=
  nth (Z.to_nat m) days_before_month_table 0
  + (if (2 <? m) && is_leap y then 1 else 0).

Definition days_before_year (y : Z) : Z :=
  let y' := y - 1 in y' * 365 + y' / 4 - y' / 100 + y' / 400.

(** [date.toordinal]: 1 is 0001-01-01. *)
Definition ymd2ord (y m d : Z) : Z :=
  days_before_year y + days_before_month y m + d.

(** [date.fromordinal] *)
Definition ord2ymd (n : Z) : Z * Z * Z :=
  let n := n - 1 in
  let n400 := n / 146097 in let n := n mod 146097 in
  let n100 := n / 36524 in let n := n mod 36524 in
  let n4 := n / 1461 in let n := n mod 1461 in
  let n1 := n / 365 in let n := n mod 365 in
  let y := n400 * 400 + 1 + n100 * 100 + n4 * 4 + n1 in
  if (n1 =? 4) || (n100 =? 4) then (y - 1, 12, 31)
  else
    let leapyear := (n1 =? 3) && (negb (n4 =? 24) || (n100 =? 3)) in
    let m := Z.shiftr (n + 50) 5 in
    let preceding :=
      nth (Z.to_nat m) days_before_month_table 0
      + (if (2 <? m) && leapyear then 1 else 0) in
    if n <? preceding then
      let m' := m - 1 in
      let preceding' :=
        preceding
        - (nth (Z.to_nat m') [0; 31; 28; 31; 30; 31; 30; 31; 31; 30; 31; 30; 31] 0
           + (if (m' =? 2) && leapyear then 1 else 0)) in
      (y, m', n - preceding' + 1)
    else (y, m, n - preceding + 1).

Definition MAXORDINAL : Z := 3652059.

(** [dt + td] *)
Definition add (dt : datetime) (td : timedelta) : exn + datetime :=
  let secs := hour dt * 3600 + minute dt * 60 + second dt + seconds td in
  let d := ymd2ord (year dt) (month dt) (day dt) + days td + secs / 86400 in
  let secs := secs mod 86400 in
  if (0 <? d) && (d <=? MAXORDINAL) then
    let '(y, m, dd) := ord2ymd d in
    inr (mk_datetime y m dd (secs / 3600) (secs mod 3600 / 60) (secs mod 60))
  else inl OverflowError.

(** The constructor's range checks on the fields read by [strptime]. *)
Definition valid (d : datetime) : bool :=
  (1 <=? year d) && (year d <=? 9999)
  && (1 <=? month d) && (month d <=? 12)
  && (1 <=? day d) && (day d <=? days_in_month (year d) (month d))
  && (0 <=? hour d) && (hour d <=? 23)
  && (0 <=? minute d) && (minute d <=? 59)
  && (0 <=? second d) && (second d <=? 59).

(** ** [strptime] and [strftime] for ["%d.%m.%Y %H:%M:%S"]

    [strptime] matches the text against the regular expression the format
    compiles to; each directive is an alternation tried left to right.  Every
    numeric field is followed by a literal, so the first alternative that
    matches is the only one that can lead to a full match. *)

(** One or two digits: the two-digit alternatives accept [d1 d2] when
    [two d1 d2]; the one-digit alternative accepts [d1] when [one d1]. *)
Definition scan_field (two : Z → Z → bool) (one : Z → bool) : scanner Z := λ s,
  match s with
  | c1 :: rest =>
      if is_digit c1 then
        let d1 := digit_value c1 in
        match rest with
        | c2 :: rest' =>
            if is_digit c2 && two d1 (digit_value c2)
            then Some (10 * d1 + digit_value c2, rest')
            else if one d1 then Some (d1, rest) else None
        | [] => if one d1 then Some (d1, rest) else None
        end
      else None
  | [] => None
  end.

(** [%d]: [3[0-1]|[1-2]\d|0[1-9]|[1-9]| [1-9]] *)
Definition scan_day : scanner Z := λ s,
  match scan_field
          (λ d1 d2, ((d1 =? 3) && (d2 <=? 1)) || ((1 <=? d1) && (d1 <=? 2))
                    || ((d1 =? 0) && (1 <=? d2)))
          (λ d1, 1 <=? d1) s with
  | Some r => Some r
  | None =>
      match s with
      | c1 :: c2 :: rest =>
          if bool_decide (c1 = " "%char) && is_digit c2 && (1 <=? digit_value c2)
          then Some (digit_value c2, rest) else None
      | _ => None
      end
  end.

(** [%m]: [1[0-2]|0[1-9]|[1-9]] *)
Definition scan_month : scanner Z :=
  scan_field (λ d1 d2, ((d1 =? 1) && (d2 <=? 2)) || ((d1 =? 0) && (1 <=? d2)))
             (λ d1, 1 <=? d1).

(** [%Y]: [\d\d\d\d] *)
Definition scan_year : scanner Z := λ s,
  match s with
  | c1 :: c2 :: c3 :: c4 :: rest =>
      if is_digit c1 && is_digit c2 && is_digit c3 && is_digit c4
      then Some (1000 * digit_value c1 + 100 * digit_value c2
                 + 10 * digit_value c3 + digit_value c4, rest)
      else None
  | _ => None
  end.

(** [%H]: [2[0-3]|[0-1]\d|\d] *)
Definition scan_hour : scanner Z :=
  scan_field (λ d1 d2, ((d1 =? 2) && (d2 <=? 3)) || (d1 <=? 1)) (λ _, true).

(** [%M]: [[0-5]\d|\d] *)
Definition scan_minute : scanner Z := scan_field (λ d1 _, d1 <=? 5) (λ _, true).

(** [%S]: [6[0-1]|[0-5]\d|\d] *)
Definition scan_second : scanner Z :=
  scan_field (λ d1 d2, ((d1 =? 6) && (d2 <=? 1)) || (d1 <=? 5)) (λ _, true).

Definition DATE_FORMAT : scanner datetime :=
  d ← scan_day; scan_char "." ;; m ← scan_month; scan_char "." ;;
  y ← scan_year; scan_spaces ;;
  H ← scan_hour; scan_char ":" ;; M ← scan_minute; scan_char ":" ;;
  S ← scan_second;
  mret (mk_datetime y m d H M S).

(** [datetime.strptime(s, DATE_FORMAT)]; [None] stands for ValueError, which
    is raised when the text does not match, when text remains after the
    match, or when the fields are not a date and time of day. *)
Definition strptime (s : string) : option datetime :=
  match DATE_FORMAT (String.list_ascii_of_string s) with
  | Some (dt, []) => if valid dt then Some dt else None
  | _ => None
  end.

(** [dt.strftime(DATE_FORMAT)], with [%Y] written on four digits. *)
Definition strftime (dt : datetime) : string :=
  zero_pad 2 (day dt) +:+ "." +:+ zero_pad 2 (month dt) +:+ "."
  +:+ zero_pad 4 (year dt) +:+ " " +:+ zero_pad 2 (hour dt) +:+ ":"
  +:+ zero_pad 2 (minute dt) +:+ ":" +:+ zero_pad 2 (second dt).

End DateTime.


(** The newline character. *)
Definition nl : ascii := "010"%char.
Definition NL : string := String nl EmptyString.

(** * [scripts/apply_time_offset_sangvor.py] *)

Module Offset.
Import PyStr Scan DateTime.

Definition SKIP_LINES : Z := 22.

(** [(?:(\d+)<unit>)?] *)
Definition unit_group (unit : string) : scanner (option string) :=
  scan_opt (ds ← scan_digits; scan_lit (String.list_ascii_of_string unit) ;; mret ds).

(** [pattern] of [parse_offset]; the result lists [match.groups()]. *)
Definition pattern : scanner (list (option string)) :=
  d ← unit_group "d"; scan_spaces0 ;;
  h ← unit_group "h"; scan_spaces0 ;;
  m ← unit_group "min"; scan_spaces0 ;;
  s ← unit_group "sec";
  mret [d; h; m; s].

(** [re.match(pattern, text)]: the groups of the match, [None] when the
    pattern does not match at the start of [text]. *)
Definition re_match (p : scanner (list (option string))) (text : string)
    : option (list (option string)) :=
  fst <$> p (String.list_ascii_of_string text).

(** [int(s)] on a string of digits: CPython refuses a string of more than
    4300 digits with ValueError. *)
Definition int_max_str_digits : Z := 4300.

Definition int (s : string) : exn + Z :=
  if int_max_str_digits <? len s then inl ValueError else inr (int_of_digits s).

(** [int(x) if x else 0] *)
Definition int_or_0 (x : option string) : exn + Z :=
  match x with
  | Some (String _ _ as ds) => int ds
  | _ => inr 0
  end.

(** Evaluation of the generator, left to right. *)
Fixpoint all_or_raise {X} (l : list (exn + X)) : exn + list X :=
  match l with
  | [] => inr []
  | inl e :: _ => inl e
  | inr x :: l' =>
      match all_or_raise l' with
      | inl e => inl e
      | inr xs => inr (x :: xs)
      end
  end.

Definition parse_offset (offset_str : string) : exn + timedelta :=
  match re_match pattern (remove_char " " offset_str) with
  | None => inl ValueError  (* Invalid offset string *)
  | Some groups =>
      match all_or_raise (int_or_0 <$> groups) with
      | inl e => inl e
      | inr [days; hours; minutes; seconds] =>
          timedelta_of days hours minutes seconds
      | inr _ => inl ValueError  (* a tuple of another length does not unpack *)
      end
  end.

(** The output file is the list of strings written to it, in order. *)
Definition write (text : string) : py (list string) () := update (λ out, out ++ [text]).

(** The body of the loop of [process_file] for line number [i]. *)
Definition process_line (offset : timedelta) (i : Z) (line : string)
    : py (list string) () :=
  if i <=? SKIP_LINES then write line
  else
    let line := rstrip_char nl line in
    if bool_decide (line = "") || negb (contains line ";") then write (line +:+ NL)
    else
      let parts := split ";" line in
      if Z.of_nat (length parts) <? 2 then write (line +:+ NL)
      else
        try_except
          (dt ← or_raise ValueError (strptime (strip (default "" (parts !! 0%nat))));
           dt_shifted ← eval (add dt offset);
           let new_line := strftime dt_shifted +:+ ";" +:+ join ";" (drop 1 parts) in
           write (new_line +:+ NL))
          except_Exception
          (λ _, write (line +:+ NL)).

(** [process_file]: [lines] are the lines of the input file, each with its
    line end; the result is what has been written to the output file, and
    whether an exception escaped. *)
Definition process_file (lines : list string) (offset : timedelta)
    : list string * (exn + ()) :=
  for_enumerate 1 lines (process_line offset) [].

End Offset.

(** * [pathlib] *)

Module PathLib.
Import PyStr.

(** A pure POSIX path: the root (empty for a relative path) and the names
    below it. *)
Record Path := mk_Path { root : string; names : list string }.

#[export] Instance Path_eq_dec : EqDecision Path.
Proof. solve_decision. Defined.

(** [str(p)] *)
Definition str (p : Path) : string :=
  match names p with
  | [] => if bool_decide (root p = "") then "." else root p
  | _ => root p +:+ join "/" (names p)
  end.

(** [p.name] *)
Definition name (p : Path) : string := default "" (last (names p)).

(** [p.stem] *)
Definition stem (p : Path) : string :=
  let name := name p in
  let i := rfind "." name in
  if (0 <? i) && (i <? len name - 1) then slice_to i name else name.

(** [p.parent] *)
Definition parent (p : Path) : Path :=
  mk_Path (root p) (take (length (names p) - 1) (names p)).

(** Paths compare by the list of the components of [str(p)]. *)
Definition parts_normcase (p : Path) : list string := split "/" (str p).

(** [l.sort()] on a list of paths. *)
Definition sort_paths (l : list Path) : list Path := list_sort parts_normcase l.

(** [p.suffix] *)
Definition suffix (p : Path) : string :=
  let name := name p in
  let i := rfind "." name in
  if (0 <? i) && (i <? len name - 1) then slice_from i name else EmptyString.

(** The names a path string contributes: its components, less the empty
    ones and ["."]. *)
Definition parse_names (s : string) : list string :=
  filter (λ x, x ≠ "" ∧ x ≠ ".") (split "/" s).

(** [p / s]: an absolute [s] replaces [p]; otherwise its names are added to
    those of [p].  Exactly two leading slashes make the root ["//"]. *)
Definition truediv (p : Path) (s : string) : Path :=
  if startswith s "/" then
    mk_Path (if startswith s "//" && negb (startswith s "///") then "//" else "/")
            (parse_names s)
  else mk_Path (root p) (names p ++ parse_names s).

End PathLib.

(** * [scripts/apply_time_offset_sangvor.py]: the output file *)

Module OffsetFile.
Import PathLib.

(** [output_path] of [process_file]. *)
Definition output_path (file_path : Path) : Path :=
  truediv (parent file_path) (stem file_path +:+ "_offset" +:+ suffix file_path).

End OffsetFile.

(** * CSV input *)

(** A row of [csv.DictReader]: the cell under each column name of the header;
    a cell is [None] when the line has fewer fields than the header. *)
Abbreviation dict_row := (gmap string (option string)).

(** [bool(row.get(k))]: the cell when it is a non-empty string. *)
Definition truthy_get (row : dict_row) (k : string) : option string :=
  match row !! k with
  | Some (Some s) => if bool_decide (s = "") then None else Some s
  | _ => None
  end.

(** The tables a run of [load_all_metadata] reads, in reading order: the
    files of the [metadata] directory, when it exists, and then the legacy
    file, when it exists. *)
Definition load_order {T} (metadata_dir : option (list T)) (legacy : option T)
    : list T :=
  default [] metadata_dir ++ option_list legacy.

(** * [scripts/plot_ground_temperature.py] *)

Module Plot.
Import PyStr DateTime PathLib.

(** ** File grouping *)

Definition is_metadata_file (csv_file : Path) : bool :=
  contains (str csv_file) "metadata" || endswith (name csv_file) "meta.csv".

Definition is_sangvor (csv_file : Path) : bool :=
  contains (lower (str csv_file)) "sangvor".

(** The logger id that the loop body of [group_files_by_logger_id] computes
    for a file it has not skipped. *)
Definition logger_id_of (csv_file : Path) : string :=
  if is_sangvor csv_file then default "" (split "_" (stem csv_file) !! 0%nat)
  else
    let logger_id := default "" (split "_" (stem csv_file) !! 0%nat) in
    if bool_decide (logger_id = "") || (len logger_id <? 3) then
      let grandparent := name (parent (parent csv_file)) in
      if negb (bool_decide (grandparent = "")) && (3 <? len grandparent)
      then grandparent else logger_id
    else logger_id.

Definition group_step (grouped : gmap string (list Path)) (csv_file : Path)
    : gmap string (list Path) :=
  if is_metadata_file csv_file then grouped
  else
    let logger_id := logger_id_of csv_file in
    if bool_decide (logger_id = "") then grouped
    else <[logger_id := default [] (grouped !! logger_id) ++ [csv_file]]> grouped.

Definition group_files_by_logger_id (csv_files : list Path)
    : gmap string (list Path) :=
  sort_paths <$> foldl group_step ∅ csv_files.

Definition determine_skip_lines (csv_file : Path) : Z :=
  if is_sangvor csv_file then 22 else 12.

(** ** Metadata *)

(** [load_metadata]; [None] is a path at which no file exists. *)
Definition load_metadata_row (row : dict_row) : py (gmap string dict_row) () :=
  logger_id ← or_raise AttributeError (strip <$> default (Some "") (row !! "ID"));
  if bool_decide (logger_id = "") then mret ()
  else update (λ metadata, <[logger_id := row]> metadata).

Definition load_metadata (metadata_file : option (list dict_row))
    : gmap string dict_row :=
  match metadata_file with
  | None => ∅
  | Some reader =>
      fst (try_except (for_each reader load_metadata_row)
                      except_Exception (λ _, mret ()) ∅)
  end.

(** [d.update(other)] *)
Definition dict_update {V} (d other : gmap string V) : gmap string V := other ∪ d.

Definition load_all_metadata (metadata_dir : option (list (list dict_row)))
    (legacy_metadata : option (list dict_row)) : gmap string dict_row :=
  let all_metadata :=
    foldl (λ all_metadata metadata_file,
             dict_update all_metadata (load_metadata (Some metadata_file)))
          ∅ (default [] metadata_dir) in
  match legacy_metadata with
  | Some f => dict_update all_metadata (load_metadata (Some f))
  | None => all_metadata
  end.

(** ** Row parsers *)

Section parsers.
Context `{PyFloat}.

(** The two lists a parser appends to. *)
Record series := mk_series { timestamps : list datetime; temperatures : list float }.

Definition append_timestamp (t : datetime) : py series () :=
  update (λ s, mk_series (timestamps s ++ [t]) (temperatures s)).
Definition append_temperature (v : float) : py series () :=
  update (λ s, mk_series (timestamps s) (temperatures s ++ [v])).

(** [l[i]] *)
Definition index {S X} (l : list X) (i : nat) : py S X := or_raise IndexError (l !! i).

Definition sangvor_line (skip_lines : Z) (row_num : Z) (line : string)
    : py series () :=
  if row_num <=? skip_lines then mret ()
  else
    let line := strip line in
    if bool_decide (line = "") || negb (contains line ";") then mret ()
    else
      let parts := split ";" line in
      if Z.of_nat (length parts) <? 2 then mret ()
      else
        try_except
          (datetime_str ← strip <$> index parts 0;
           temperature_str ← strip <$> index parts 1;
           timestamp ← or_raise ValueError (strptime datetime_str);
           temperature ← or_raise ValueError (float_of_str temperature_str);
           append_timestamp timestamp ;;
           append_temperature temperature)
          except_ValueError
          (λ _, mret ()).

Definition parse_sangvor_file (lines : list string) (skip_lines : Z)
    : (list datetime * list float) * (exn + ()) :=
  let '(s, r) := for_enumerate 1 lines (sangvor_line skip_lines)
                   (mk_series [] []) in
  ((timestamps s, temperatures s), r).

Definition fanmountains_row (skip_lines : Z) (row_num : Z) (row : list string)
    : py series () :=
  if row_num <=? skip_lines then mret ()
  else
    match row with
    | [] => mret ()
    | cell0 :: _ =>
        let first := strip cell0 in
        if bool_decide (first = "") || startswith first "<" then mret ()
        else if bool_decide (upper first = "NO") then mret ()
        else
          cells ← try_except
                    (datetime_str ← strip <$> index row 1;
                     temperature_str ← strip <$> index row 2;
                     mret (Some (datetime_str, temperature_str)))
                    except_IndexError
                    (λ _, mret None);
          match cells with
          | None => mret ()
          | Some (datetime_str, temperature_str) =>
              try_except
                (t ← or_raise ValueError (strptime datetime_str);
                 append_timestamp t ;;
                 v ← or_raise ValueError (float_of_str temperature_str);
                 append_temperature v)
                except_ValueError
                (λ _, mret ())
          end
    end.

(** [rows] is what [csv.reader] yields for the file. *)
Definition parse_fanmountains_file (rows : list (list string)) (skip_lines : Z)
    : (list datetime * list float) * (exn + ()) :=
  let '(s, r) := for_enumerate 1 rows (fanmountains_row skip_lines)
                   (mk_series [] []) in
  let min_length := Nat.min (length (timestamps s)) (length (temperatures s)) in
  if bool_decide (min_length < length (timestamps s))%nat
     || bool_decide (min_length < length (temperatures s))%nat
  then ((take min_length (timestamps s), take min_length (temperatures s)), r)
  else ((timestamps s, temperatures s), r).

(** A logger file: its path, its lines, and the rows [csv.reader] yields
    for it. *)
Record logger_file := mk_logger_file {
  lf_path : Path; lf_lines : list string; lf_rows : list (list string)
}.

Definition parse_logger_file (f : logger_file) (skip_lines : Z)
    : (list datetime * list float) * (exn + ()) :=
  if is_sangvor (lf_path f) then parse_sangvor_file (lf_lines f) skip_lines
  else parse_fanmountains_file (lf_rows f) skip_lines.

(** ** Series merger *)

(** [combined.sort(key=lambda x: x[0])] followed by the duplicate scan. *)
Definition combined_sort (combined : list (datetime * float))
    : list (datetime * float) := list_sort fst combined.

Definition unique_data (combined : list (datetime * float))
    : list (datetime * float) := unique_scan fst None combined.

(** No exception leaves [parse_logger_file] ([parse_logger_file_returns]
    below), so only the lists it returns are threaded through. *)
Definition concatenate_timeseries (file_group : list logger_file)
    : list datetime * list float :=
  let all :=
    foldl (λ all csv_file,
             let skip_lines := determine_skip_lines (lf_path csv_file) in
             let '(ts, temps) := fst (parse_logger_file csv_file skip_lines) in
             (all.1 ++ ts, all.2 ++ temps))
          ([], []) file_group in
  match all.1 with
  | [] => ([], [])
  | _ =>
      let combined := combined_sort (zip all.1 all.2) in
      let unique_data := unique_data combined in
      (unique_data.*1, unique_data.*2)
  end.

End parsers.

(** ** Titles and plot names *)

(** [title += f" ({len(file_group)} files)"] when the group has more than one
    file. *)
Definition with_file_count (title : string) (file_group : list Path) : string :=
  if 1 <? Z.of_nat (length file_group)
  then title +:+ " (" +:+ str_int (Z.of_nat (length file_group)) +:+ " files)"
  else title.

Definition infer_title (logger_id : string) (file_group : list Path)
    (metadata_dict : gmap string dict_row) : string * option dict_row :=
  match metadata_dict !! logger_id with
  | Some metadata =>
      if bool_decide (metadata = ∅)
      then (with_file_count ("Logger " +:+ logger_id) file_group, None)
      else
        let garmin_wp :=
          match truthy_get metadata "GARMIN WP" with
          | Some wp => Some wp
          | None => truthy_get metadata "WP"
          end in
        let title :=
          match garmin_wp with
          | Some wp => "Logger " +:+ logger_id +:+ " (WP " +:+ wp +:+ ")"
          | None => "Logger " +:+ logger_id
          end in
        (with_file_count title file_group, Some metadata)
  | None => (with_file_count ("Logger " +:+ logger_id) file_group, None)
  end.

(** [plot_name] and [output_path] of [run]. *)
Definition plot_name (logger_id : string) : string := logger_id +:+ "_combined.png".

Definition plot_path (output_dir : Path) (logger_id : string) : Path :=
  truediv output_dir (plot_name logger_id).

End Plot.

(** * [scripts/interactive_map.py] *)

Module Map.
Import PyStr.

Section loader.
Context `{PyFloat}.

(** The values of a normalised row: cells of the table, and the two
    coordinates stored as floats. *)
Inductive value := VNone | VStr (s : string) | VFloat (f : float).

Definition of_cell (c : option string) : value :=
  match c with
  | None => VNone
  | Some s => VStr s
  end.

(** Records passed to [logging.warning]. *)
Inductive log_record :=
  | InvalidCoordinates (logger_id lat_val lon_val : string).

(** The list [metadata] being built, and the warnings logged so far. *)
Record loader_state := mk_loader_state {
  metadata : list (gmap string value);
  warnings : list log_record
}.

(** The identifier chosen for a row, and the row after the assignment to
    [row["WP_ID"]]. *)
Definition resolve_logger_id (row : dict_row) : string * dict_row :=
  match truthy_get row "BLE-ID/Geoprecision" with
  | Some ble =>
      (strip ble,
       match truthy_get row "ID" with
       | Some _ => <["WP_ID" := default None (row !! "ID")]> row
       | None => row
       end)
  | None =>
      match truthy_get row "ID" with
      | Some _ => (strip (default "" (default (Some "") (row !! "ID"))), row)
      | None => (EmptyString, row)
      end
  end.

(** [row.get(k1) or row.get(k2) or ""] *)
Definition get_or (row : dict_row) (k1 k2 : string) : string :=
  match truthy_get row k1 with
  | Some s => s
  | None => default "" (truthy_get row k2)
  end.

Definition in_range (lo : Z) (x : float) (hi : Z) : bool :=
  float_le (float_of_int lo) x && float_le x (float_of_int hi).

Definition normalize (row : dict_row) (logger_id : string) (lat lon : float)
    : gmap string value :=
  let normalized_row : gmap string value := of_cell <$> row in
  let normalized_row := <["ID" := VStr logger_id]> normalized_row in
  let normalized_row := <["LAT" := VFloat lat]> normalized_row in
  let normalized_row := <["LON" := VFloat lon]> normalized_row in
  match row !! "Altitude" with
  | Some altitude =>
      if negb (bool_decide (is_Some (truthy_get row "ELE")))
      then <["ELE" := of_cell altitude]> normalized_row
      else normalized_row
  | None => normalized_row
  end.

Definition load_metadata_row (row : dict_row) : py loader_state () :=
  let '(logger_id, row) := resolve_logger_id row in
  let lat_val := get_or row "LAT" "Y" in
  let lon_val := get_or row "LON" "X" in
  if negb (bool_decide (lat_val = "")) && negb (bool_decide (lon_val = ""))
     && negb (bool_decide (logger_id = "")) && negb (bool_decide (logger_id = "-"))
  then
    try_except
      (lat ← or_raise ValueError (float_of_str lat_val);
       lon ← or_raise ValueError (float_of_str lon_val);
       if in_range (-90) lat 90 && in_range (-180) lon 180 then
         update (λ st, mk_loader_state
                         (metadata st ++ [normalize row logger_id lat lon])
                         (warnings st))
       else mret ())
      except_ValueError
      (λ _, update (λ st, mk_loader_state (metadata st)
                            (warnings st ++ [InvalidCoordinates logger_id lat_val lon_val])))
  else mret ().

(** [load_metadata]; [None] is a path at which no file exists. *)
Definition load_metadata (metadata_file : option (list dict_row)) : loader_state :=
  match metadata_file with
  | None => mk_loader_state [] []
  | Some reader =>
      fst (try_except (for_each reader load_metadata_row)
                      except_Exception (λ _, mret ()) (mk_loader_state [] []))
  end.

(** [all_metadata.extend(site_metadata)], with the warnings of the call. *)
Definition extend (all site : loader_state) : loader_state :=
  mk_loader_state (metadata all ++ metadata site) (warnings all ++ warnings site).

Definition load_all_metadata (metadata_dir : option (list (list dict_row)))
    (legacy_metadata : option (list dict_row)) : loader_state :=
  let all_metadata :=
    foldl (λ all_metadata metadata_file,
             extend all_metadata (load_metadata (Some metadata_file)))
          (mk_loader_state [] []) (default [] metadata_dir) in
  match legacy_metadata with
  | Some f => extend all_metadata (load_metadata (Some f))
  | None => all_metadata
  end.

End loader.

(** ** Plot files *)

(** The logger id [find_plot_files] reads from the name of a plot file. *)
Definition plot_logger_id (png_file : PathLib.Path) : string :=
  if contains (PathLib.name png_file) "_combined.png"
  then replace "_combined" "" (PathLib.stem png_file)
  else default "" (split "_" (PathLib.stem png_file) !! 0%nat).

Definition find_plot_step (plot_files : gmap string PathLib.Path)
    (png_file : PathLib.Path) : gmap string PathLib.Path :=
  let logger_id := plot_logger_id png_file in
  match plot_files !! logger_id with
  | None => <[logger_id := png_file]> plot_files
  | Some _ =>
      if contains (PathLib.name png_file) "_combined"
      then <[logger_id := png_file]> plot_files
      else plot_files
  end.

(** [find_plot_files]; the argument lists [plots_dir.glob("*.png")], and is
    [None] when the directory does not exist. *)
Definition find_plot_files (png_files : option (list PathLib.Path))
    : gmap string PathLib.Path :=
  match png_files with
  | None => ∅
  | Some files => foldl find_plot_step ∅ files
  end.

(** ** Markers *)

(** [get_marker_color]; [None] is a row with neither a [surface] nor a
    [material] cell. *)
Definition get_marker_color (surface : option string) : string :=
  let surface_lower :=
    match surface with
    | Some s => if bool_decide (s = "") then EmptyString else lower s
    | None => EmptyString
    end in
  if contains surface_lower "block" || contains surface_lower "rock" then "gray"
  else if contains surface_lower "silt" || contains surface_lower "sediment"
  then "darkred"
  else if contains surface_lower "gravel" then "orange"
  else if contains surface_lower "sand" then "beige"
  else if contains surface_lower "pasture" then "green"
  else if contains surface_lower "void" then "black"
  else if contains surface_lower "morraine" || contains surface_lower "moraine"
  then "purple"
  else "blue".

End Map.

(** * A reader of decimal literals

    An instance of [PyFloat] for running the scripts on concrete input: it
    reads the literals made of an optional sign, digits and at most one
    decimal point, with white space around, and keeps their exact value.
    The other spellings [float] accepts are not read by it. *)

Module DecimalFloat.
Import PyStr Scan.

(** The number [mantissa / 10 ^ scale]. *)
Record decimal := mk_decimal { mantissa : Z; scale : nat }.

#[export] Instance decimal_eq_dec : EqDecision decimal.
Proof. solve_decision. Defined.

Definition sign : scanner Z := λ s,
  match s with
  | c :: rest =>
      if decide (c = "-"%char) then Some (-1, rest)
      else if decide (c = "+"%char) then Some (1, rest)
      else Some (1, s)
  | [] => Some (1, s)
  end.

Definition literal : scanner decimal := λ s,
  match sign s with
  | Some (sg, s) =>
      let '(int_part, s) := span_digits s in
      let '(frac_part, s) :=
        match scan_char "." s with
        | Some (_, s') => span_digits s'
        | None => ([], s)
        end in
      if bool_decide (int_part = [] ∧ frac_part = []) then None
      else Some (mk_decimal
                   (sg * int_of_digits (String.string_of_list_ascii (int_part ++ frac_part)))
                   (length frac_part), s)
  | None => None
  end.

Definition of_str (s : string) : option decimal :=
  match literal (String.list_ascii_of_string (strip s)) with
  | Some (d, []) => Some d
  | _ => None
  end.

Definition le (a b : decimal) : bool :=
  mantissa a * 10 ^ Z.of_nat (scale b) <=? mantissa b * 10 ^ Z.of_nat (scale a).

#[export] Instance decimal_PyFloat : PyFloat := {|
  float := decimal;
  float_of_str := of_str;
  float_of_int n := mk_decimal n 0;
  float_le := le
|}.

End DecimalFloat.


(** * Facts about [list.sort] and the duplicate scan *)

Section list_sort_facts.
Context {A K : Type} `{PyOrd K, EqDecision K} (key : A → K).

#[local] Abbreviation insert_sorted := (insert_sorted key).
#[local] Abbreviation list_sort := (list_sort key).
#[local] Abbreviation unique_scan := (unique_scan key).
#[local] Abbreviation key_sorted := (key_sorted key).
#[local] Abbreviation key_increasing := (key_increasing key).
#[local] Abbreviation at_key := (at_key key).

Lemma at_key_cons k x l :
  at_key k (x :: l) = if decide (key x = k) then x :: at_key k l else at_key k l.
Proof. unfold at_key. rewrite filter_cons. by destruct (decide _). Qed.

Lemma at_key_nil_above k l :
  Forall (λ a, plt k (key a) = true) l → at_key k l = [].
Proof.
  induction 1 as [|x l Hx _ IH]; [done|]. rewrite at_key_cons, IH.
  destruct (decide _) as [<-|]; [|done]. by rewrite plt_irrefl in Hx.
Qed.

Lemma key_increasing_sorted l : key_increasing l → key_sorted l.
Proof.
  induction 1 as [|x l _ IH Hx]; constructor; [done|].
  eapply Forall_impl; [exact Hx|]. intros a. apply plt_ple.
Qed.

Lemma insert_sorted_perm x l : insert_sorted x l ≡ₚ x :: l.
Proof.
  induction l as [|y l IH]; simpl; [done|].
  destruct (plt _ _); [|done]. rewrite IH. apply Permutation_swap.
Qed.

Lemma list_sort_perm l : list_sort l ≡ₚ l.
Proof.
  induction l as [|x l IH]; simpl; [done|].
  by rewrite insert_sorted_perm, IH.
Qed.

Lemma insert_sorted_sorted x l : key_sorted l → key_sorted (insert_sorted x l).
Proof.
  induction 1 as [|y l Hl IH Hy]; simpl.
  - repeat constructor.
  - destruct (plt (key y) (key x)) eqn:Hlt.
    + constructor; [done|]. rewrite insert_sorted_perm.
      constructor; [by apply plt_ple|done].
    + apply not_plt_ple in Hlt. constructor; [by constructor|].
      constructor; [done|]. eapply Forall_impl; [exact Hy|].
      intros a. by apply ple_trans.
Qed.

Lemma list_sort_sorted l : key_sorted (list_sort l).
Proof.
  induction l as [|x l IH]; simpl; [constructor|by apply insert_sorted_sorted].
Qed.

Lemma insert_sorted_at_key k x l :
  key_sorted l → at_key k (insert_sorted x l) = at_key k (x :: l).
Proof.
  induction 1 as [|y l Hl IH Hy]; simpl; [done|].
  destruct (plt (key y) (key x)) eqn:Hlt; [|done].
  rewrite (at_key_cons k y), IH, !at_key_cons.
  destruct (decide (key y = k)) as [Ey|]; [|done].
  destruct (decide (key x = k)) as [Ex|]; [|done].
  rewrite Ey, Ex, plt_irrefl in Hlt. done.
Qed.

(** Stability: elements with equal keys keep their relative order. *)
Lemma list_sort_stable k l : at_key k (list_sort l) = at_key k l.
Proof.
  induction l as [|x l IH]; simpl; [done|].
  rewrite insert_sorted_at_key by apply list_sort_sorted.
  by rewrite !at_key_cons, IH.
Qed.

Lemma key_sorted_at_key_eq l1 l2 :
  key_sorted l1 → key_sorted l2 →
  (∀ k, at_key k l1 = at_key k l2) → l1 = l2.
Proof.
  intros Hs1. revert l2.
  induction Hs1 as [|x l1 Hl1 IH Hx]; intros l2 Hs2 Heq.
  - destruct l2 as [|y l2]; [done|].
    specialize (Heq (key y)). rewrite at_key_cons in Heq.
    by destruct (decide _).
  - destruct Hs2 as [|y l2 Hl2 Hy].
    { specialize (Heq (key x)). rewrite at_key_cons in Heq.
      by destruct (decide _). }
    assert (key x = key y) as Hk.
    { apply ple_antisym.
      - destruct (ple (key x) (key y)) eqn:Hle; [done|].
        pose proof (Heq (key y)) as Hq. rewrite (at_key_cons _ y) in Hq.
        destruct (decide (key y = key y)); [|done].
        rewrite at_key_nil_above in Hq; [done|]. constructor.
        + unfold plt. by rewrite Hle.
        + eapply Forall_impl; [exact Hx|]. intros a Ha.
          apply (plt_ple_trans _ (key x)); [|done]. unfold plt. by rewrite Hle.
      - destruct (ple (key y) (key x)) eqn:Hle; [done|].
        pose proof (Heq (key x)) as Hq. rewrite (at_key_cons _ x) in Hq.
        destruct (decide (key x = key x)); [|done].
        rewrite (at_key_nil_above _ (y :: l2)) in Hq; [done|]. constructor.
        + unfold plt. by rewrite Hle.
        + eapply Forall_impl; [exact Hy|]. intros a Ha.
          apply (plt_ple_trans _ (key y)); [|done]. unfold plt. by rewrite Hle. }
    assert (x = y) as ->.
    { specialize (Heq (key x)). rewrite !at_key_cons in Heq.
      destruct (decide (key x = key x)); [|done].
      destruct (decide (key y = key x)); [|congruence]. congruence. }
    f_equal. apply IH; [done|]. intros k. specialize (Heq k).
    rewrite !at_key_cons in Heq. destruct (decide _); congruence.
Qed.

(** Any list that is sorted by key and keeps, for each key, the elements of
    [l] in their order of appearance is the list [list_sort] returns. *)
Lemma stable_sort_unique l l' :
  key_sorted l' → (∀ k, at_key k l' = at_key k l) → l' = list_sort l.
Proof.
  intros Hs Hk. apply key_sorted_at_key_eq; [done|apply list_sort_sorted|].
  intros k. by rewrite Hk, list_sort_stable.
Qed.

Lemma insert_sorted_below x l :
  Forall (λ a, plt (key x) (key a) = true) l → insert_sorted x l = x :: l.
Proof.
  destruct 1 as [|y l Hy _]; simpl; [done|]. by rewrite (plt_asym _ _ Hy).
Qed.

Lemma list_sort_increasing l : key_increasing l → list_sort l = l.
Proof.
  induction 1 as [|x l _ IH Hx]; simpl; [done|].
  rewrite IH. by apply insert_sorted_below.
Qed.

Lemma unique_scan_above k0 l :
  key_increasing l → Forall (λ a, plt k0 (key a) = true) l →
  unique_scan (Some k0) l = l.
Proof.
  intros Hl. revert k0. induction Hl as [|x l _ IH Hx]; intros k0 Hk0; [done|].
  simpl. apply Forall_cons in Hk0 as [Hk0 _].
  destruct (decide _) as [_|Hn].
  - f_equal. by apply IH.
  - destruct Hn. intros [= <-]. by rewrite plt_irrefl in Hk0.
Qed.

Lemma unique_scan_increasing l : key_increasing l → unique_scan None l = l.
Proof.
  destruct 1 as [|x l Hl Hx]; simpl; [done|].
  f_equal. by apply unique_scan_above.
Qed.

Lemma unique_scan_from k0 l :
  key_sorted l → Forall (λ a, ple k0 (key a) = true) l →
  key_increasing (unique_scan (Some k0) l) ∧
  Forall (λ a, plt k0 (key a) = true) (unique_scan (Some k0) l) ∧
  ∀ k, at_key k (unique_scan (Some k0) l) =
       if decide (k = k0) then [] else take 1 (at_key k l).
Proof.
  intros Hl. revert k0.
  induction Hl as [|x l Hl IH Hx]; intros k0 Hk0.
  { simpl. repeat split; [constructor|constructor|].
    intros k. by destruct (decide _). }
  apply Forall_cons in Hk0 as [Hx0 Hl0]. simpl.
  destruct (decide (Some (key x) ≠ Some k0)) as [Hne|He].
  - assert (key x ≠ k0) as Hne' by congruence.
    assert (plt k0 (key x) = true) as Hlt by (by apply ple_ne_plt).
    destruct (IH (key x) Hx) as (Hinc & Habove & Hat).
    split; [by constructor|]. split.
    + constructor; [done|]. eapply Forall_impl; [exact Habove|].
      intros a Ha. apply (plt_ple_trans _ (key x)); [done|by apply plt_ple].
    + intros k. rewrite !at_key_cons, Hat.
      destruct (decide (key x = k)) as [<-|Hxk].
      * destruct (decide (key x = key x)); [|done].
        by destruct (decide (key x = k0)).
      * destruct (decide (k = key x)); [congruence|].
        destruct (decide (k = k0)) as [->|]; [|done].
        rewrite at_key_nil_above; [done|].
        eapply Forall_impl; [exact Hx|]. intros a. by apply plt_ple_trans.
  - assert (key x = k0) as Ex.
    { destruct (decide (key x = k0)); [done|]. destruct He. congruence. }
    subst k0. destruct (IH (key x) Hx) as (Hinc & Habove & Hat).
    split; [done|]. split; [done|].
    intros k. rewrite Hat, at_key_cons.
    destruct (decide (k = key x)) as [->|]; [done|].
    by destruct (decide (key x = k)).
Qed.

Lemma unique_scan_sorted l :
  key_sorted l →
  key_increasing (unique_scan None l) ∧
  ∀ k, at_key k (unique_scan None l) = take 1 (at_key k l).
Proof.
  destruct 1 as [|x l Hl Hx]; simpl.
  { split; [constructor|done]. }
  destruct (unique_scan_from (key x) l Hl Hx) as (Hinc & Habove & Hat).
  split; [by constructor|].
  intros k. rewrite !at_key_cons, Hat.
  destruct (decide (key x = k)) as [<-|].
  - by destruct (decide (key x = key x)).
  - by destruct (decide (k = key x)).
Qed.
End list_sort_facts.

(** * Facts about the [str] methods *)

Section str_facts.
Import PyStr.

Lemma contains_char s (ch : ascii) :
  contains s (String ch EmptyString) = true ↔ ch ∈ String.list_ascii_of_string s.
Proof.
  induction s as [|c s IH]; simpl.
  - split; [done|]. by intros ?%elem_of_nil.
  - rewrite orb_true_iff, IH, elem_of_cons.
    destruct (ascii_dec ch c) as [->|Hne].
    + split; [by auto|]. intros _. left. by destruct s.
    + split; (intros [?|?]; [|by right]); [done|by destruct Hne].
Qed.

Lemma split_no_sep sep s :
  sep ∉ String.list_ascii_of_string s → split sep s = [s].
Proof.
  induction s as [|c s IH]; simpl; [done|].
  intros [Hc Hs]%not_elem_of_cons.
  destruct (decide (c = sep)) as [->|_]; [done|]. by rewrite (IH Hs).
Qed.

Lemma split_with_sep sep s :
  sep ∈ String.list_ascii_of_string s → (2 ≤ length (split sep s))%nat.
Proof.
  induction s as [|c s IH]; simpl; [by intros ?%elem_of_nil|].
  intros Hin. destruct (decide (c = sep)) as [->|Hne].
  - simpl. pose proof (split_ne_nil sep s).
    destruct (split sep s); [done|simpl; lia].
  - apply elem_of_cons in Hin as [->|Hs]; [done|].
    specialize (IH Hs). destruct (split sep s) as [|p ps]; simpl in *; lia.
Qed.

(** Splitting at the first separator. *)
Lemma split_app sep first rest :
  sep ∉ String.list_ascii_of_string first →
  split sep (first +:+ String sep rest) = first :: split sep rest.
Proof.
  induction first as [|c s IH]; simpl.
  - intros _. by destruct (decide (sep = sep)).
  - intros [Hc Hs]%not_elem_of_cons.
    destruct (decide (c = sep)) as [->|_]; [done|]. by rewrite (IH Hs).
Qed.

Lemma join_split sep s : join (String sep EmptyString) (split sep s) = s.
Proof.
  induction s as [|c s IH]; simpl; [done|].
  destruct (decide (c = sep)) as [->|_].
  - pose proof (split_ne_nil sep s).
    destruct (split sep s) as [|p ps] eqn:E; [done|]. simpl in *. by rewrite IH.
  - destruct (split sep s) as [|p ps] eqn:E; [by destruct (split_ne_nil sep s)|].
    simpl in *. destruct ps; simpl in *; by rewrite <- IH.
Qed.

End str_facts.

(** * The row parsers *)

Ltac py_unfold :=
  unfold mbind, mret, fmap, py_bind, py_ret, py_fmap, or_raise, eval, update,
    try_except, raise, Plot.index, Plot.append_timestamp,
    Plot.append_temperature; simpl.

Section parser_facts.
Context `{PyFloat}.
Import PyStr DateTime PathLib Plot.

(** What one data line of a sangvor file contributes: the fields of the
    stripped line, of which there must be two or more; the first read as a
    timestamp and the second as a temperature, both of which must parse. *)
Definition sangvor_sample (line : string) : option (datetime * float) :=
  match split ";" (strip line) with
  | f0 :: f1 :: _ =>
      match strptime (strip f0), float_of_str (strip f1) with
      | Some t, Some v => Some (t, v)
      | _, _ => None
      end
  | _ => None
  end.

Definition push (s : series) (sample : option (datetime * float)) : series :=
  match sample with
  | Some (t, v) => mk_series (timestamps s ++ [t]) (temperatures s ++ [v])
  | None => s
  end.

Lemma sangvor_line_push skip_lines row_num line s :
  sangvor_line skip_lines row_num line s =
  (push s (if row_num <=? skip_lines then None else sangvor_sample line), inr ()).
Proof.
  unfold sangvor_line, sangvor_sample.
  destruct (row_num <=? skip_lines); [done|].
  destruct (bool_decide (strip line = "")) eqn:Hempty; simpl.
  { apply bool_decide_eq_true in Hempty. by rewrite Hempty. }
  destruct (contains (strip line) ";") eqn:Hsemi; simpl.
  - apply contains_char, (split_with_sep ";"%char) in Hsemi.
    destruct (split ";" (strip line)) as [|f0 [|f1 rest]] eqn:Hsplit;
      simpl in Hsemi; try lia.
    destruct (Z.ltb_spec (Z.of_nat (length (f0 :: f1 :: rest))) 2) as [Hlt|_];
      [simpl in Hlt; lia|].
    py_unfold.
    destruct (strptime (strip f0)) as [t|]; simpl; [|done].
    destruct (float_of_str (strip f1)) as [v|]; simpl; done.
  - assert (";"%char ∉ String.list_ascii_of_string (strip line)) as Hno.
    { rewrite <- contains_char. by rewrite Hsemi. }
    by rewrite (split_no_sep _ _ Hno).
Qed.

Lemma push_samples s samples :
  foldl push s (Some <$> samples) =
  mk_series (timestamps s ++ samples.*1) (temperatures s ++ samples.*2).
Proof.
  revert s. induction samples as [|[t v] l IH]; intros s; simpl.
  - rewrite !app_nil_r. by destruct s.
  - rewrite IH. simpl. by rewrite <- !app_assoc.
Qed.

Lemma sangvor_loop skip_lines i0 lines s :
  for_enumerate i0 lines (sangvor_line skip_lines) s =
  (let samples := omap sangvor_sample (drop (Z.to_nat (skip_lines - i0 + 1)) lines) in
   mk_series (timestamps s ++ samples.*1) (temperatures s ++ samples.*2), inr ()).
Proof.
  revert i0 s. induction lines as [|line lines IH]; intros i0 s; simpl.
  - rewrite drop_nil. simpl. rewrite !app_nil_r. by destruct s.
  - unfold mbind, py_bind. rewrite sangvor_line_push, IH.
    destruct (Z.leb_spec i0 skip_lines) as [Hle|Hgt]; simpl.
    + replace (Z.to_nat (skip_lines - i0 + 1)) with (S (Z.to_nat (skip_lines - i0))) by lia.
      simpl. by replace (skip_lines - (i0 + 1) + 1) with (skip_lines - i0) by lia.
    + replace (Z.to_nat (skip_lines - i0 + 1)) with 0%nat by lia.
      replace (Z.to_nat (skip_lines - (i0 + 1) + 1)) with 0%nat by lia.
      simpl. destruct (sangvor_sample line) as [[t v]|]; simpl; [|done].
      by rewrite <- !app_assoc.
Qed.

Lemma parse_sangvor_file_samples lines skip_lines :
  parse_sangvor_file lines skip_lines =
  (let samples := omap sangvor_sample (drop (Z.to_nat skip_lines) lines) in
   (samples.*1, samples.*2), inr ()).
Proof.
  unfold parse_sangvor_file. rewrite sangvor_loop. simpl.
  by replace (skip_lines - 1 + 1) with skip_lines by lia.
Qed.

Lemma parse_fanmountains_file_length rows skip_lines :
  length (parse_fanmountains_file rows skip_lines).1.1 =
  length (parse_fanmountains_file rows skip_lines).1.2.
Proof.
  unfold parse_fanmountains_file.
  destruct (for_enumerate _ _ _ _) as [s r].
  destruct (bool_decide _ || bool_decide _) eqn:E; simpl.
  - rewrite !length_take. lia.
  - apply orb_false_iff in E as [E1 E2].
    apply bool_decide_eq_false in E1, E2. lia.
Qed.

Lemma parse_logger_file_length f skip_lines :
  length (parse_logger_file f skip_lines).1.1 =
  length (parse_logger_file f skip_lines).1.2.
Proof.
  unfold parse_logger_file. destruct (is_sangvor _).
  - rewrite parse_sangvor_file_samples. simpl. by rewrite !length_fmap.
  - apply parse_fanmountains_file_length.
Qed.

End parser_facts.

(** * The fanmountains parser *)

Section fanmountains_facts.
Context `{PyFloat}.
Import PyStr DateTime Plot.

(** The timestamp and temperature cells of a row that is not skipped as
    empty, as a [<...>] row, as a header row or as a short row. *)
Definition fanmountains_cells (row : list string) : option (string * string) :=
  match row with
  | cell0 :: c1 :: c2 :: _ =>
      let first := strip cell0 in
      if bool_decide (first = "") || startswith first "<"
         || bool_decide (upper first = "NO")
      then None else Some (strip c1, strip c2)
  | _ => None
  end.

(** The timestamp of a row whose timestamp cell parses. *)
Definition fanmountains_timestamp (row : list string) : option datetime :=
  cells ← fanmountains_cells row; strptime cells.1.

(** The sample of a fully valid row: both cells parse. *)
Definition fanmountains_sample (row : list string) : option (datetime * float) :=
  cells ← fanmountains_cells row;
  t ← strptime cells.1;
  v ← float_of_str cells.2;
  Some (t, v).

Lemma fanmountains_row_effect skip_lines row_num row s :
  fanmountains_row skip_lines row_num row s =
  (if row_num <=? skip_lines then s
   else mk_series (timestamps s ++ option_list (fanmountains_timestamp row))
                  (temperatures s ++ option_list (snd <$> fanmountains_sample row)),
   inr ()).
Proof.
  unfold fanmountains_row, fanmountains_timestamp, fanmountains_sample,
    fanmountains_cells.
  destruct (row_num <=? skip_lines); [done|].
  destruct row as [|cell0 rest]; [by rewrite !app_nil_r; destruct s|].
  cbv zeta.
  destruct (bool_decide (strip cell0 = "") || startswith (strip cell0) "<"
            || bool_decide (upper (strip cell0) = "NO")) eqn:E.
  { destruct (bool_decide (strip cell0 = "") || startswith (strip cell0) "<");
      [|destruct (bool_decide (upper (strip cell0) = "NO")); [|done]];
      destruct rest as [|c1 [|c2 rest]]; simpl; rewrite !app_nil_r; by destruct s. }
  apply orb_false_iff in E as [-> ->].
  destruct rest as [|c1 [|c2 rest]]; py_unfold;
    try (rewrite !app_nil_r; by destruct s).
  destruct (strptime (strip c1)) as [t|]; simpl;
    [|rewrite !app_nil_r; by destruct s].
  destruct (float_of_str (strip c2)) as [v|]; simpl; [done|].
  by rewrite app_nil_r.
Qed.

Lemma fanmountains_loop skip_lines i0 rows s :
  for_enumerate i0 rows (fanmountains_row skip_lines) s =
  (let data := drop (Z.to_nat (skip_lines - i0 + 1)) rows in
   mk_series (timestamps s ++ omap fanmountains_timestamp data)
             (temperatures s ++ (omap fanmountains_sample data).*2), inr ()).
Proof.
  revert i0 s. induction rows as [|row rows IH]; intros i0 s; simpl.
  - rewrite drop_nil. simpl. rewrite !app_nil_r. by destruct s.
  - unfold mbind, py_bind. rewrite fanmountains_row_effect, IH.
    destruct (Z.leb_spec i0 skip_lines) as [Hle|Hgt]; simpl.
    + replace (Z.to_nat (skip_lines - i0 + 1)) with (S (Z.to_nat (skip_lines - i0))) by lia.
      simpl. by replace (skip_lines - (i0 + 1) + 1) with (skip_lines - i0) by lia.
    + replace (Z.to_nat (skip_lines - i0 + 1)) with 0%nat by lia.
      replace (Z.to_nat (skip_lines - (i0 + 1) + 1)) with 0%nat by lia.
      simpl. rewrite <- !app_assoc. f_equal; f_equal.
      * by destruct (fanmountains_timestamp row).
      * by destruct (fanmountains_sample row) as [[t v]|].
Qed.

Lemma fanmountains_samples_le data :
  (length (omap fanmountains_sample data).*2
   ≤ length (omap fanmountains_timestamp data))%nat.
Proof.
  rewrite length_fmap.
  induction data as [|row data IH]; simpl; [done|].
  unfold fanmountains_sample at 1, fanmountains_timestamp at 1.
  destruct (fanmountains_cells row) as [cells|]; simpl; [|done].
  destruct (strptime cells.1) as [t|]; simpl; [|done].
  destruct (float_of_str cells.2) as [v|]; simpl.
  - exact (le_n_S _ _ IH).
  - exact (Nat.le_le_succ_r _ _ IH).
Qed.

(** What [parse_fanmountains_file] returns: the temperatures of the fully
    valid rows, each paired with a timestamp taken, in order, from the rows
    whose timestamp parses. *)
Lemma parse_fanmountains_file_effect rows skip_lines :
  parse_fanmountains_file rows skip_lines =
  (let data := drop (Z.to_nat skip_lines) rows in
   let temps := (omap fanmountains_sample data).*2 in
   (take (length temps) (omap fanmountains_timestamp data), temps), inr ()).
Proof.
  unfold parse_fanmountains_file. rewrite fanmountains_loop. simpl.
  replace (skip_lines - 1 + 1) with skip_lines by lia.
  pose proof (fanmountains_samples_le (drop (Z.to_nat skip_lines) rows)) as Hle.
  rewrite Nat.min_r by done.
  destruct (bool_decide _ || bool_decide _) eqn:E.
  - by rewrite (take_ge (_.*2)).
  - apply orb_false_iff in E as [E _]. apply bool_decide_eq_false in E.
    by rewrite take_ge by lia.
Qed.

End fanmountains_facts.

(** * The series merger *)

Section parse_logger_file_facts.
Context `{PyFloat}.
Import Plot.

(** No exception leaves either parser. *)
Lemma parse_logger_file_returns f skip_lines :
  (parse_logger_file f skip_lines).2 = inr ().
Proof.
  unfold parse_logger_file. destruct (is_sangvor _).
  - by rewrite parse_sangvor_file_samples.
  - by rewrite parse_fanmountains_file_effect.
Qed.
End parse_logger_file_facts.

Section sort_more_facts.
Context {A K : Type} `{PyOrd K, EqDecision K} (key : A → K).

Lemma insert_sorted_le x l :
  Forall (λ a, ple (key x) (key a) = true) l → insert_sorted key x l = x :: l.
Proof.
  destruct 1 as [|y l Hy _]; simpl; [done|]. unfold plt. by rewrite Hy.
Qed.

(** Sorting a list whose keys never decrease leaves it as it is. *)
Lemma list_sort_id l : key_sorted key l → list_sort key l = l.
Proof.
  induction 1 as [|x l _ IH Hx]; simpl; [done|].
  rewrite IH. by apply insert_sorted_le.
Qed.

Lemma key_increasing_NoDup l : key_increasing key l → NoDup (key <$> l).
Proof.
  induction 1 as [|x l _ IH Hx]; csimpl; constructor; [|done].
  intros (y & Hxy & Hy)%list_elem_of_fmap.
  rewrite Forall_forall in Hx. specialize (Hx y Hy).
  by rewrite <- Hxy, plt_irrefl in Hx.
Qed.
End sort_more_facts.

Section merger.
Context `{PyFloat}.
Import PyStr DateTime PathLib Plot.

(** What the parser selected by the path returns for a file of the group. *)
Definition parsed (f : logger_file) : list datetime * list float :=
  (parse_logger_file f (determine_skip_lines (lf_path f))).1.

(** The same as a list of samples. *)
Definition parsed_samples (f : logger_file) : list (datetime * float) :=
  zip (parsed f).1 (parsed f).2.

Lemma concatenate_foldl file_group (all : list datetime * list float) :
  foldl (λ all csv_file,
           let skip_lines := determine_skip_lines (lf_path csv_file) in
           let '(ts, temps) := fst (parse_logger_file csv_file skip_lines) in
           (all.1 ++ ts, all.2 ++ temps)) all file_group
  = (all.1 ++ mjoin ((λ f, (parsed f).1) <$> file_group),
     all.2 ++ mjoin ((λ f, (parsed f).2) <$> file_group)).
Proof.
  revert all. induction file_group as [|f l IH]; intros [a1 a2]; simpl.
  - by rewrite !app_nil_r.
  - rewrite IH. unfold parsed.
    destruct (parse_logger_file f _) as [[ts temps] r]. simpl.
    by rewrite <- !app_assoc.
Qed.

Lemma zip_parsed file_group :
  zip (mjoin ((λ f, (parsed f).1) <$> file_group))
      (mjoin ((λ f, (parsed f).2) <$> file_group))
  = mjoin (parsed_samples <$> file_group).
Proof.
  induction file_group as [|f l IH]; csimpl; [done|].
  unfold parsed_samples at 1. rewrite <- IH.
  apply zip_with_app, parse_logger_file_length.
Qed.

Lemma concatenate_timeseries_eq file_group :
  concatenate_timeseries file_group =
  let merged := unique_data (combined_sort (mjoin (parsed_samples <$> file_group))) in
  (merged.*1, merged.*2).
Proof.
  unfold concatenate_timeseries. rewrite concatenate_foldl. simpl.
  rewrite zip_parsed.
  destruct (mjoin ((λ f, (parsed f).1) <$> file_group)) as [|t ts] eqn:E; [|done].
  rewrite <- zip_parsed, E. done.
Qed.

End merger.

Section merger_claims.
Context `{PyFloat}.
Import PyStr DateTime PathLib Plot.

(** C1.  No exception leaves the parsers, and for every file group
    [concatenate_timeseries] returns two lists of equal length whose samples
    are the concatenation of the samples parsed from the files of the group,
    sorted by timestamp with samples of equal timestamp kept in concatenation
    order, and then reduced to the first sample at each timestamp: at every timestamp [t] the result holds exactly
    the first sample of the concatenation with timestamp [t], and none when
    there is none.  The timestamps of the result increase strictly, so no
    timestamp occurs twice.  In particular two files yielding [t1, t2] and
    [t2, t3] with [t1 < t2 < t3] merge into the three samples at [t1], [t2]
    and [t3], the one at [t2] being that of the first file. *)
Theorem concatenate_timeseries_merges (file_group : list logger_file) :
  let all_samples := mjoin (parsed_samples <$> file_group) in
  let sorted := combined_sort all_samples in
  let out := concatenate_timeseries file_group in
  let samples := zip out.1 out.2 in
  (∀ f skip_lines, (parse_logger_file f skip_lines).2 = inr ())
  ∧ length out.1 = length out.2
  ∧ out = (samples.*1, samples.*2)
  ∧ sorted ≡ₚ all_samples
  ∧ key_sorted fst sorted
  ∧ (∀ t, at_key fst t sorted = at_key fst t all_samples)
  ∧ samples = unique_data sorted
  ∧ (∀ t, at_key fst t samples = take 1 (at_key fst t all_samples))
  ∧ StronglySorted (λ t1 t2, plt t1 t2 = true) out.1
  ∧ NoDup out.1
  ∧ (∀ f1 f2 t1 t2 t3 a b c d,
       file_group = [f1; f2] →
       parsed f1 = ([t1; t2], [a; b]) → parsed f2 = ([t2; t3], [c; d]) →
       plt t1 t2 = true → plt t2 t3 = true →
       out = ([t1; t2; t3], [a; b; d])).
Proof.
  intros all_samples sorted out samples.
  assert (out = ((unique_data sorted).*1, (unique_data sorted).*2)) as Hout
    by apply concatenate_timeseries_eq.
  assert (samples = unique_data sorted) as Hsamples.
  { unfold samples. rewrite Hout. apply zip_fst_snd. }
  pose proof (list_sort_sorted fst all_samples) as Hsorted.
  destruct (unique_scan_sorted fst sorted Hsorted) as [Hinc Hat].
  split; [apply parse_logger_file_returns|].
  split; [by rewrite Hout; simpl; rewrite !length_fmap|].
  split; [by rewrite Hsamples|].
  split; [apply list_sort_perm|].
  split; [done|].
  split; [intros t; apply list_sort_stable|].
  split; [done|].
  split.
  { intros t. rewrite Hsamples. unfold unique_data. rewrite Hat.
    f_equal. apply list_sort_stable. }
  split.
  { rewrite Hout. simpl. eapply StronglySorted_fmap; [|exact Hinc]. done. }
  split.
  { rewrite Hout. simpl. by apply key_increasing_NoDup. }
  intros f1 f2 t1 t2 t3 a b c d -> Hf1 Hf2 H12 H23.
  rewrite Hout. unfold sorted, all_samples.
  assert (mjoin (parsed_samples <$> [f1; f2])
          = [(t1, a); (t2, b); (t2, c); (t3, d)]) as ->.
  { csimpl. unfold parsed_samples. by rewrite Hf1, Hf2. }
  unfold combined_sort. rewrite list_sort_id.
  - unfold unique_data. simpl.
    destruct (decide (Some t2 ≠ Some t1)) as [_|Hn];
      [|destruct Hn; intros [=]; by apply (plt_ne t1 t2)].
    destruct (decide (Some t2 ≠ Some t2)) as [Hn|_]; [done|].
    destruct (decide (Some t3 ≠ Some t2)) as [_|Hn];
      [|destruct Hn; intros [=]; by apply (plt_ne t2 t3)].
    done.
  - pose proof (plt_ple _ _ H12) as L12. pose proof (plt_ple _ _ H23) as L23.
    pose proof (ple_trans _ _ _ L12 L23) as L13.
    repeat constructor; cbn [fst]; auto using ple_refl.
Qed.

(** C8.  The sort-and-scan step of the merger returns a series whose
    timestamps increase strictly as it is, and so applying the step twice
    gives what applying it once gives. *)
Theorem merge_step_idempotent :
  (∀ series : list (datetime * float),
     key_increasing fst series → unique_data (combined_sort series) = series)
  ∧ (∀ samples : list (datetime * float),
       unique_data (combined_sort (unique_data (combined_sort samples)))
       = unique_data (combined_sort samples)).
Proof.
  assert (∀ series : list (datetime * float),
            key_increasing fst series →
            unique_data (combined_sort series) = series) as Hid.
  { intros series Hinc. unfold unique_data, combined_sort.
    rewrite list_sort_increasing by done. by apply unique_scan_increasing. }
  split; [done|]. intros samples. apply Hid.
  apply unique_scan_sorted, list_sort_sorted.
Qed.

(** C10.  For every file and header-skip count, [parse_sangvor_file] returns
    two lists of equal length and raises nothing; the i-th timestamp and the
    i-th temperature are those of the i-th line, among the lines after the
    header, that yields a sample; a line yields a sample exactly when its
    stripped text has two or more fields, the first of which parses as a
    timestamp and the second as a float. *)
Theorem parse_sangvor_file_paired (lines : list string) (skip_lines : Z) :
  let samples := omap sangvor_sample (drop (Z.to_nat skip_lines) lines) in
  let result := parse_sangvor_file lines skip_lines in
  result.2 = inr ()
  ∧ length result.1.1 = length result.1.2
  ∧ zip result.1.1 result.1.2 = samples
  ∧ result.1 = (samples.*1, samples.*2)
  ∧ (∀ line t v,
       sangvor_sample line = Some (t, v) ↔
       ∃ f0 f1 rest, split ";" (strip line) = f0 :: f1 :: rest
                     ∧ strptime (strip f0) = Some t
                     ∧ float_of_str (strip f1) = Some v).
Proof.
  intros samples result. unfold result.
  rewrite parse_sangvor_file_samples. simpl. fold samples.
  split; [done|]. split; [by rewrite !length_fmap|].
  split; [apply zip_fst_snd|]. split; [done|].
  intros line t v. unfold sangvor_sample. split.
  - destruct (split ";" (strip line)) as [|f0 [|f1 rest]]; try done.
    destruct (strptime (strip f0)) as [t'|] eqn:Ht; [|done].
    destruct (float_of_str (strip f1)) as [v'|] eqn:Hv; [|done].
    intros [= <- <-]. by exists f0, f1, rest.
  - intros (f0 & f1 & rest & -> & -> & ->). done.
Qed.

End merger_claims.

(** * The offset rewriter *)

Section offset_facts.
Import PyStr Scan DateTime Offset.

Lemma unit_group_total unit text : ∃ g rest, unit_group unit text = Some (g, rest).
Proof.
  unfold unit_group, scan_opt.
  match goal with |- context [match ?m with _ => _ end] => destruct m as [[x rest]|] end;
    eauto.
Qed.

(** The pattern matches at the start of every text. *)
Lemma re_match_pattern_total text : ∃ d h m s, re_match pattern text = Some [d; h; m; s].
Proof.
  unfold re_match, pattern, mbind, scanner_bind, scan_spaces0, mret, scanner_ret.
  destruct (unit_group_total "d" (String.list_ascii_of_string text)) as (d & r1 & ->).
  destruct (unit_group_total "h" (skip_spaces r1)) as (h & r2 & ->).
  destruct (unit_group_total "min" (skip_spaces r2)) as (m & r3 & ->).
  destruct (unit_group_total "sec" (skip_spaces r3)) as (s & r4 & ->).
  simpl. by exists d, h, m, s.
Qed.

(** The text written for line number [i]. *)
Definition line_output (offset : timedelta) (i : Z) (line : string) : string :=
  if i <=? SKIP_LINES then line
  else
    let body := rstrip_char nl line in
    match split ";" body with
    | first :: (_ :: _) as rest =>
        match strptime (strip first) with
        | Some dt =>
            match add dt offset with
            | inr dt_shifted => strftime dt_shifted +:+ ";" +:+ join ";" rest +:+ NL
            | inl _ => body +:+ NL
            end
        | None => body +:+ NL
        end
    | _ => body +:+ NL
    end.

Lemma process_line_writes offset i line out :
  process_line offset i line out = (out ++ [line_output offset i line], inr ()).
Proof.
  unfold process_line, line_output, write.
  destruct (i <=? SKIP_LINES); [done|].
  destruct (bool_decide (rstrip_char nl line = "")) eqn:Hempty; simpl.
  { apply bool_decide_eq_true in Hempty. by rewrite Hempty. }
  destruct (contains (rstrip_char nl line) ";") eqn:Hsemi; simpl.
  - apply contains_char, (split_with_sep ";"%char) in Hsemi.
    destruct (split ";" (rstrip_char nl line)) as [|f0 [|f1 rest]] eqn:Hsplit;
      simpl in Hsemi; try lia.
    destruct (Z.ltb_spec (Z.of_nat (length (f0 :: f1 :: rest))) 2) as [Hlt|_];
      [simpl in Hlt; lia|].
    py_unfold.
    destruct (strptime (strip f0)) as [dt|]; simpl; [|done].
    destruct (add dt offset) as [e|dt']; simpl; done.
  - assert (";"%char ∉ String.list_ascii_of_string (rstrip_char nl line)) as Hno.
    { rewrite <- contains_char. by rewrite Hsemi. }
    by rewrite (split_no_sep _ _ Hno).
Qed.

Lemma process_loop offset i0 lines out :
  for_enumerate i0 lines (process_line offset) out =
  (out ++ imap (λ i line, line_output offset (i0 + Z.of_nat i) line) lines, inr ()).
Proof.
  revert i0 out. induction lines as [|line lines IH]; intros i0 out; simpl.
  - by rewrite app_nil_r.
  - unfold mbind, py_bind. rewrite process_line_writes, IH.
    rewrite <- app_assoc. simpl. rewrite Z.add_0_r. do 3 f_equal.
    apply imap_ext. intros j x _. simpl. f_equal. lia.
Qed.

Lemma process_file_output lines offset :
  process_file lines offset =
  (imap (λ i line, line_output offset (Z.of_nat i + 1) line) lines, inr ()).
Proof.
  unfold process_file. rewrite process_loop. simpl. f_equal.
  apply imap_ext. intros j x _. simpl. f_equal. lia.
Qed.

End offset_facts.

Section offset_claims.
Import PyStr Scan DateTime Offset.

(** C3.  [parse_offset] does not reject text: the pattern matches at the start
    of every string, so the branch that raises [ValueError] for an invalid
    offset string is never taken.  A string with no component at its start,
    such as ["abc"] or ["two hours"], yields the zero [timedelta], and text
    after the components that were read is ignored. *)
Theorem parse_offset_never_rejects :
  (∀ offset_str, ∃ d h m s,
     re_match pattern (remove_char " " offset_str) = Some [d; h; m; s])
  ∧ parse_offset "abc" = inr (mk_timedelta 0 0)
  ∧ parse_offset "two hours" = inr (mk_timedelta 0 0)
  ∧ parse_offset "" = inr (mk_timedelta 0 0)
  ∧ parse_offset "2h 1d" = inr (mk_timedelta 0 7200)
  ∧ parse_offset "1d 2h" = inr (mk_timedelta 1 7200).
Proof.
  split; [|by vm_compute].
  intros offset_str. apply re_match_pattern_total.
Qed.

(** The first field of a data line, as [process_file] reads it. *)
Definition first_field (line : string) : string :=
  default "" (split ";" (rstrip_char nl line) !! 0%nat).

(** C9, as amended.  [process_file] writes one text per input line and raises
    nothing.  Each of the first 22 lines is written as it is.  A later line is
    first cut of its line end; when it then reads [first;rest], [first]
    stripped parses as a timestamp, and the timestamp plus the offset is a
    [datetime], the text written is the shifted timestamp, [;rest] and a line
    end.  When it holds no semicolon, or the first field does not parse, or
    the shifted timestamp is out of the range of [datetime], the text written
    is the line without its line end, followed by a line end.  With the offset
    parsed from ["1d 2h"], line 23 reading ["01.01.2020 00:00:00;5.0"] is
    written as ["02.01.2020 02:00:00;5.0"]. *)
Theorem process_file_rewrites (lines : list string) (offset : timedelta) :
  let out := process_file lines offset in
  out.2 = inr ()
  ∧ length out.1 = length lines
  ∧ (∀ i line, lines !! i = Some line → (i < 22)%nat → out.1 !! i = Some line)
  ∧ (∀ i line first rest dt dt_shifted,
       lines !! i = Some line → (22 ≤ i)%nat →
       rstrip_char nl line = first +:+ String ";" rest →
       ";"%char ∉ String.list_ascii_of_string first →
       strptime (strip first) = Some dt →
       add dt offset = inr dt_shifted →
       out.1 !! i = Some (strftime dt_shifted +:+ ";" +:+ rest +:+ NL))
  ∧ (∀ i line,
       lines !! i = Some line → (22 ≤ i)%nat →
       (";"%char ∉ String.list_ascii_of_string (rstrip_char nl line)
        ∨ strptime (strip (first_field line)) = None
        ∨ (∃ dt e, strptime (strip (first_field line)) = Some dt
                   ∧ add dt offset = inl e)) →
       out.1 !! i = Some (rstrip_char nl line +:+ NL))
  ∧ parse_offset "1d 2h" = inr (mk_timedelta 1 7200)
  ∧ (process_file (replicate 22 "header" ++ ["01.01.2020 00:00:00;5.0" +:+ NL])
                  (mk_timedelta 1 7200)).1 !! 22%nat
    = Some ("02.01.2020 02:00:00;5.0" +:+ NL).
Proof.
  intros out. unfold out. rewrite process_file_output. simpl.
  split; [done|]. split; [by rewrite length_imap|].
  assert (∀ i, (22 ≤ i)%nat → (Z.of_nat i + 1 <=? SKIP_LINES) = false) as Hdata.
  { intros i Hi. apply Z.leb_gt. unfold SKIP_LINES. lia. }
  split; [|split; [|split; [|split]]].
  - intros i line Hi Hlt. rewrite list_lookup_imap, Hi. simpl.
    unfold line_output.
    destruct (Z.leb_spec (Z.of_nat i + 1) SKIP_LINES) as [_|Hgt]; [done|].
    unfold SKIP_LINES in Hgt. lia.
  - intros i line first rest dt dt_shifted Hi Hge Hbody Hfirst Hparse Hadd.
    rewrite list_lookup_imap, Hi. simpl. unfold line_output.
    rewrite (Hdata i Hge), Hbody, (split_app _ _ _ Hfirst).
    pose proof (join_split ";"%char rest) as Hjoin.
    destruct (split ";" rest) as [|p ps] eqn:E; [by destruct (split_ne_nil ";"%char rest)|].
    by rewrite Hparse, Hadd, Hjoin.
  - intros i line Hi Hge Hcase.
    rewrite list_lookup_imap, Hi. simpl. unfold line_output.
    rewrite (Hdata i Hge). unfold first_field in Hcase.
    destruct Hcase as [Hno|[Hnone|(dt & e & Hdt & Hadd)]].
    + by rewrite (split_no_sep _ _ Hno).
    + destruct (split ";" (rstrip_char nl line)) as [|f0 [|f1 fs]]; try done.
      simpl in Hnone. by rewrite Hnone.
    + destruct (split ";" (rstrip_char nl line)) as [|f0 [|f1 fs]]; try done.
      simpl in Hdt. by rewrite Hdt, Hadd.
  - by vm_compute.
  - by vm_compute.
Qed.

(** C9 as it is stated: every line after the header whose first field parses
    as a timestamp is written with the shifted timestamp in place of that
    field and the other fields as they were. *)
Definition rewrites_every_timestamped_line : Prop :=
  ∀ lines offset i line dt,
    lines !! i = Some line → (22 ≤ i)%nat →
    strptime (strip (first_field line)) = Some dt →
    ∃ dt_shifted,
      add dt offset = inr dt_shifted
      ∧ (process_file lines offset).1 !! i
        = Some (join ";" (strftime dt_shifted
                          :: drop 1 (split ";" (rstrip_char nl line))) +:+ NL).

(** A line after the header that holds a timestamp and no semicolon is
    written back with its timestamp as it was, and so is a line whose shifted
    timestamp would pass the year 9999.  A last line that has no line end is
    written with one. *)
Lemma process_file_keeps_timestamped_lines :
  ¬ rewrites_every_timestamped_line
  ∧ strptime (strip (first_field ("01.01.2020 00:00:00" +:+ NL)))
    = Some (mk_datetime 2020 1 1 0 0 0)
  ∧ (process_file (replicate 22 "header" ++ ["01.01.2020 00:00:00" +:+ NL])
                  (mk_timedelta 1 7200)).1 !! 22%nat
    = Some ("01.01.2020 00:00:00" +:+ NL)
  ∧ strptime (strip (first_field ("31.12.9999 23:59:59;5.0" +:+ NL)))
    = Some (mk_datetime 9999 12 31 23 59 59)
  ∧ (process_file (replicate 22 "header" ++ ["31.12.9999 23:59:59;5.0" +:+ NL])
                  (mk_timedelta 1 7200)).1 !! 22%nat
    = Some ("31.12.9999 23:59:59;5.0" +:+ NL)
  ∧ (process_file (replicate 22 "header" ++ ["no data"]) (mk_timedelta 1 7200)).1
    !! 22%nat
    = Some ("no data" +:+ NL).
Proof.
  split; [|by vm_compute].
  intros Hclaim.
  destruct (Hclaim (replicate 22 "header" ++ ["01.01.2020 00:00:00" +:+ NL])
                   (mk_timedelta 1 7200) 22%nat ("01.01.2020 00:00:00" +:+ NL)
                   (mk_datetime 2020 1 1 0 0 0))
    as (dt_shifted & Hadd & Hout); [done|lia|by vm_compute|].
  vm_compute in Hadd. injection Hadd as <-.
  vm_compute in Hout. discriminate Hout.
Qed.

End offset_claims.

(** * The file grouper *)

Section grouper_facts.
Import PyStr PathLib Plot.

(** The text before the first separator. *)
Lemma split_first sep s :
  ∃ first rest,
    split sep s = first :: rest
    ∧ (sep ∉ String.list_ascii_of_string first)
    ∧ (s = first ∨ (∃ tail, s = first +:+ String sep tail)).
Proof.
  induction s as [|c s (first & rest & Hs & Hno & Hrest)]; simpl.
  - exists EmptyString, []. split; [done|]. split; [by intros ?%elem_of_nil|by left].
  - destruct (decide (c = sep)) as [->|Hne].
    + exists EmptyString, (split sep s).
      split; [done|]. split; [by intros ?%elem_of_nil|]. right. by exists s.
    + rewrite Hs. exists (String c first), rest. split; [done|]. split.
      * simpl. intros [?|?]%elem_of_cons; [by destruct Hne|done].
      * destruct Hrest as [->|[tail ->]]; [by left|right]. by exists tail.
Qed.

(** The part of the file name stem before the first underscore. *)
Definition candidate (csv_file : Path) : string :=
  default "" (split "_" (stem csv_file) !! 0%nat).

(** The files of [csv_files] that the loop puts in the group of [id]. *)
Definition files_of (id : string) (csv_files : list Path) : list Path :=
  filter (λ f, is_metadata_file f = false ∧ logger_id_of f = id ∧ id ≠ "") csv_files.

Lemma group_loop csv_files (grouped : gmap string (list Path)) id :
  foldl group_step grouped csv_files !! id =
  match files_of id csv_files with
  | [] => grouped !! id
  | fs => Some (default [] (grouped !! id) ++ fs)
  end.
Proof.
  revert grouped. induction csv_files as [|f l IH]; intros grouped; [done|].
  simpl. rewrite IH. unfold files_of. rewrite filter_cons. unfold group_step.
  destruct (is_metadata_file f) eqn:Hmeta.
  { rewrite decide_False by (intros [? _]; done). done. }
  destruct (bool_decide (logger_id_of f = "")) eqn:Hempty.
  { apply bool_decide_eq_true in Hempty.
    rewrite decide_False by (intros (_ & ? & ?); congruence). done. }
  apply bool_decide_eq_false in Hempty.
  destruct (decide (logger_id_of f = id)) as [<-|Hne].
  - rewrite decide_True by done. rewrite lookup_insert_eq. simpl.
    destruct (filter _ l); simpl; by rewrite <- ?app_assoc.
  - rewrite decide_False by (intros (_ & ? & _); done).
    by rewrite lookup_insert_ne.
Qed.

Lemma group_files_lookup csv_files id :
  group_files_by_logger_id csv_files !! id =
  match files_of id csv_files with
  | [] => None
  | fs => Some (sort_paths fs)
  end.
Proof.
  unfold group_files_by_logger_id. rewrite lookup_fmap, group_loop.
  rewrite lookup_empty. by destruct (files_of id csv_files).
Qed.

End grouper_facts.

Section grouper_claims.
Import PyStr PathLib Plot.

(** C7, as amended.  [group_files_by_logger_id] leaves out every file whose
    path contains ["metadata"] or whose name ends with ["meta.csv"].  The
    candidate id of a file is the part of its name stem before the first
    underscore.  For a path that contains ["sangvor"] in any letter case the
    id is the candidate.  For any other path the id is the candidate when the
    candidate has three characters or more; otherwise it is the name of the
    grandparent directory when that name has more than three characters, and
    the candidate when it has not.  A file whose id is empty joins no group;
    every other file is in the group of its id.  The list of each group holds
    the files of that id, ordered by path (component by component).
    ["2005-0070_20220907_0332.csv"] has id ["2005-0070"] and
    ["A538D8_20220916084244.csv"] has id ["A538D8"], in a sangvor directory
    or out of one. *)
Theorem group_files_by_logger_id_groups (csv_files : list Path) :
  let grouped := group_files_by_logger_id csv_files in
  (∀ id group f, grouped !! id = Some group → f ∈ group →
     f ∈ csv_files ∧ is_metadata_file f = false ∧ logger_id_of f = id ∧ id ≠ "")
  ∧ (∀ f, f ∈ csv_files → is_metadata_file f = false → logger_id_of f ≠ "" →
       ∃ group, grouped !! logger_id_of f = Some group ∧ f ∈ group)
  ∧ (∀ id group, grouped !! id = Some group →
       group ≡ₚ files_of id csv_files
       ∧ group = sort_paths (files_of id csv_files)
       ∧ key_sorted parts_normcase group)
  ∧ (∀ f, ("_"%char ∉ String.list_ascii_of_string (candidate f))
          ∧ (stem f = candidate f
             ∨ (∃ tail, stem f = candidate f +:+ String "_" tail)))
  ∧ (∀ f, is_sangvor f = true → logger_id_of f = candidate f)
  ∧ (∀ f, is_sangvor f = false → 3 ≤ len (candidate f) →
       logger_id_of f = candidate f)
  ∧ (∀ f, is_sangvor f = false → len (candidate f) < 3 →
       3 < len (name (parent (parent f))) →
       logger_id_of f = name (parent (parent f)))
  ∧ (∀ f, is_sangvor f = false → len (candidate f) < 3 →
       len (name (parent (parent f))) ≤ 3 →
       logger_id_of f = candidate f)
  ∧ (∀ dir, candidate (mk_Path "" (dir ++ ["2005-0070_20220907_0332.csv"]))
            = "2005-0070"
          ∧ candidate (mk_Path "" (dir ++ ["A538D8_20220916084244.csv"]))
            = "A538D8")
  ∧ group_files_by_logger_id
      [mk_Path "" ["data"; "sangvor"; "2005-0070_20220907_0332.csv"];
       mk_Path "" ["data"; "fanmountains"; "A538D8_20220916084244.csv"]]
    = {[ "2005-0070" :=
           [mk_Path "" ["data"; "sangvor"; "2005-0070_20220907_0332.csv"]];
         "A538D8" :=
           [mk_Path "" ["data"; "fanmountains"; "A538D8_20220916084244.csv"]] ]}.
Proof.
  intros grouped.
  assert (∀ id group, grouped !! id = Some group →
            group = sort_paths (files_of id csv_files)
            ∧ files_of id csv_files ≠ []) as Hlookup.
  { intros id group. unfold grouped. rewrite group_files_lookup.
    destruct (files_of id csv_files); [done|]. by intros [= <-]. }
  split; [|split; [|split; [|split; [|split; [|split; [|split; [|split; [|split]]]]]]]].
  - intros id group f [-> _]%Hlookup Hf.
    unfold sort_paths in Hf. rewrite list_sort_perm in Hf.
    apply list_elem_of_filter in Hf. tauto.
  - intros f Hf Hmeta Hid. unfold grouped. rewrite group_files_lookup.
    assert (f ∈ files_of (logger_id_of f) csv_files) as Hin
      by (by apply list_elem_of_filter).
    destruct (files_of _ csv_files) as [|f' fs] eqn:E; [by apply elem_of_nil in Hin|].
    eexists. split; [done|]. unfold sort_paths. by rewrite list_sort_perm.
  - intros id group [-> _]%Hlookup.
    split; [apply list_sort_perm|]. split; [done|apply list_sort_sorted].
  - intros f. unfold candidate.
    destruct (split_first "_"%char (stem f)) as (first & rest & -> & Hno & Hs).
    done.
  - intros f Hs. unfold logger_id_of. by rewrite Hs.
  - intros f Hs Hlen. unfold logger_id_of. rewrite Hs. fold (candidate f).
    destruct (bool_decide (candidate f = "")) eqn:He.
    { apply bool_decide_eq_true in He. rewrite He in Hlen. by vm_compute in Hlen. }
    destruct (Z.ltb_spec (len (candidate f)) 3); [lia|done].
  - intros f Hs Hlen Hgp. unfold logger_id_of. rewrite Hs. fold (candidate f).
    destruct (Z.ltb_spec (len (candidate f)) 3); [|lia]. rewrite orb_true_r.
    destruct (bool_decide (name (parent (parent f)) = "")) eqn:He.
    { apply bool_decide_eq_true in He. rewrite He in Hgp. by vm_compute in Hgp. }
    destruct (Z.ltb_spec 3 (len (name (parent (parent f))))); [done|lia].
  - intros f Hs Hlen Hgp. unfold logger_id_of. rewrite Hs. fold (candidate f).
    destruct (Z.ltb_spec (len (candidate f)) 3); [|lia]. rewrite orb_true_r.
    destruct (Z.ltb_spec 3 (len (name (parent (parent f))))); [lia|].
    by rewrite andb_false_r.
  - intros dir. unfold candidate, stem, name. simpl. rewrite !last_snoc.
    by vm_compute.
  - apply map_eq. intros id. rewrite group_files_lookup.
    destruct (decide (id = "2005-0070")) as [->|?]; [by vm_compute|].
    destruct (decide (id = "A538D8")) as [->|?]; [by vm_compute|].
    rewrite lookup_insert_ne, lookup_singleton_ne by done.
    unfold files_of. rewrite !filter_cons, filter_nil.
    rewrite !decide_False; [done| |].
    + intros (_ & Hid & _). vm_compute in Hid. congruence.
    + intros (_ & Hid & _). vm_compute in Hid. congruence.
Qed.

(** C7 as it is stated, on the fallback: a file that is not left out and
    whose candidate id is empty or shorter than three characters is grouped
    under the name of its grandparent directory. *)
Definition short_candidate_uses_grandparent : Prop :=
  ∀ csv_files f,
    f ∈ csv_files → is_metadata_file f = false → len (candidate f) < 3 →
    ∃ group,
      group_files_by_logger_id csv_files !! name (parent (parent f)) = Some group
      ∧ f ∈ group.

(** In a sangvor directory the file [LOGGER1/raw/ab_1.csv] is grouped under
    ["ab"], and no group is made for ["LOGGER1"].  Out of a sangvor directory
    the same file is grouped under ["LOGGER1"]. *)
Lemma sangvor_file_keeps_short_candidate :
  ¬ short_candidate_uses_grandparent
  ∧ logger_id_of (mk_Path "" ["sangvor"; "LOGGER1"; "raw"; "ab_1.csv"]) = "ab"
  ∧ logger_id_of (mk_Path "" ["fan"; "LOGGER1"; "raw"; "ab_1.csv"]) = "LOGGER1".
Proof.
  split; [|by vm_compute].
  intros Hclaim.
  destruct (Hclaim [mk_Path "" ["sangvor"; "LOGGER1"; "raw"; "ab_1.csv"]]
                   (mk_Path "" ["sangvor"; "LOGGER1"; "raw"; "ab_1.csv"]))
    as (group & Hgroup & _); [by apply list_elem_of_singleton|done|done|].
  rewrite group_files_lookup in Hgroup. vm_compute in Hgroup. discriminate Hgroup.
Qed.

(** The guard on the grandparent name: three characters are not enough. *)
Lemma short_grandparent_is_not_used :
  logger_id_of (mk_Path "" ["ABC"; "raw"; "x_1.csv"]) = "x"
  ∧ logger_id_of (mk_Path "" ["ABCD"; "raw"; "x_1.csv"]) = "ABCD".
Proof. by vm_compute. Qed.

End grouper_claims.

(** * The metadata loaders *)

Section plot_metadata_facts.
Import PyStr.

(** The key under which [load_metadata] of the plot script stores a row. *)
Definition plot_id (row : dict_row) : string :=
  strip (default "" (default (Some "") (row !! "ID"))).

(** The rows read before the loop is left: [row.get("ID", "")] is [None]
    for a row with no cell under [ID], and [None.strip()] raises. *)
Fixpoint rows_read (reader : list dict_row) : list dict_row :=
  match reader with
  | [] => []
  | row :: rest =>
      if decide (row !! "ID" = Some None) then [] else row :: rows_read rest
  end.

Definition store_row (metadata : gmap string dict_row) (row : dict_row)
    : gmap string dict_row :=
  if bool_decide (plot_id row = "") then metadata else <[plot_id row := row]> metadata.

Lemma plot_row_effect row (metadata : gmap string dict_row) :
  Plot.load_metadata_row row metadata =
  if decide (row !! "ID" = Some None) then (metadata, inl AttributeError)
  else (store_row metadata row, inr ()).
Proof.
  unfold Plot.load_metadata_row, store_row, plot_id. py_unfold.
  destruct (decide (row !! "ID" = Some None)) as [->|Hne]; [done|].
  destruct (row !! "ID") as [[id|]|]; simpl; try done.
  by destruct (bool_decide _).
Qed.

Lemma plot_loop i0 reader (metadata : gmap string dict_row) :
  (for_enumerate i0 reader (λ _, Plot.load_metadata_row) metadata).1
  = foldl store_row metadata (rows_read reader).
Proof.
  revert i0 metadata. induction reader as [|row rest IH]; intros i0 metadata; [done|].
  simpl. unfold mbind, py_bind. rewrite plot_row_effect.
  destruct (decide _); [done|]. apply IH.
Qed.

Lemma plot_load_metadata reader :
  Plot.load_metadata (Some reader) = foldl store_row ∅ (rows_read reader).
Proof.
  unfold Plot.load_metadata, try_except, for_each.
  rewrite <- (plot_loop 1). by destruct (for_enumerate _ _ _ _) as [m [e|[]]].
Qed.

(** A later row with the same key replaces an earlier one. *)
Lemma store_rows_lookup rows (metadata : gmap string dict_row) id :
  foldl store_row metadata rows !! id =
  match last (filter (λ r, plot_id r = id ∧ id ≠ "") rows) with
  | Some r => Some r
  | None => metadata !! id
  end.
Proof.
  revert metadata. induction rows as [|row rows IH]; intros metadata; [done|].
  simpl. rewrite IH, filter_cons. unfold store_row.
  destruct (decide (plot_id row = id ∧ id ≠ "")) as [[<- Hne]|Hno].
  - rewrite last_cons. rewrite bool_decide_eq_false_2 by done.
    rewrite lookup_insert_eq. by destruct (last _).
  - destruct (last _); [done|].
    destruct (bool_decide (plot_id row = "")) eqn:E; [done|].
    apply bool_decide_eq_false in E.
    rewrite lookup_insert_ne; [done|]. intros <-. by destruct Hno.
Qed.

Lemma plot_load_all_metadata metadata_dir legacy :
  Plot.load_all_metadata metadata_dir legacy =
  foldl (λ all t, Plot.dict_update all (Plot.load_metadata (Some t)))
        ∅ (load_order metadata_dir legacy).
Proof.
  unfold Plot.load_all_metadata, load_order. rewrite foldl_app.
  by destruct legacy.
Qed.

(** Of the tables that hold a row for [id], the last one read decides. *)
Lemma dict_updates_lookup {T V} (load : T → gmap string V) tables
    (all : gmap string V) id :
  foldl (λ all t, Plot.dict_update all (load t)) all tables !! id
  = match last (omap (λ t, load t !! id) tables) with
    | Some r => Some r
    | None => all !! id
    end.
Proof.
  revert all. induction tables as [|t tables IH]; intros all; [done|].
  simpl. rewrite IH. unfold Plot.dict_update. rewrite lookup_union.
  destruct (load t !! id) as [r|] eqn:E; simpl.
  - rewrite last_cons. destruct (last _); [done|]. by destruct (all !! id).
  - destruct (last _); [done|]. by destruct (all !! id).
Qed.

End plot_metadata_facts.

Section map_metadata_facts.
Context `{PyFloat}.
Import PyStr Map.

(** The checks of the map script on a row: the identifier and the two
    coordinate cells it reads. *)
Definition row_id (row : dict_row) : string := (resolve_logger_id row).1.
Definition lat_val (row : dict_row) : string := get_or (resolve_logger_id row).2 "LAT" "Y".
Definition lon_val (row : dict_row) : string := get_or (resolve_logger_id row).2 "LON" "X".

Definition id_and_cells_present (row : dict_row) : bool :=
  negb (bool_decide (lat_val row = "")) && negb (bool_decide (lon_val row = ""))
  && negb (bool_decide (row_id row = "")) && negb (bool_decide (row_id row = "-")).

(** The rows appended to [metadata] for a row of the table: one or none. *)
Definition retained (row : dict_row) : list (gmap string value) :=
  if id_and_cells_present row then
    match float_of_str (lat_val row), float_of_str (lon_val row) with
    | Some lat, Some lon =>
        if in_range (-90) lat 90 && in_range (-180) lon 180
        then [normalize (resolve_logger_id row).2 (row_id row) lat lon] else []
    | _, _ => []
    end
  else [].

(** The warnings logged for a row of the table: one or none. *)
Definition warned (row : dict_row) : list log_record :=
  if id_and_cells_present row then
    match float_of_str (lat_val row), float_of_str (lon_val row) with
    | Some _, Some _ => []
    | _, _ => [InvalidCoordinates (row_id row) (lat_val row) (lon_val row)]
    end
  else [].

Lemma map_row_effect row st :
  load_metadata_row row st =
  (mk_loader_state (metadata st ++ retained row) (warnings st ++ warned row), inr ()).
Proof.
  unfold load_metadata_row, retained, warned, id_and_cells_present,
    lat_val, lon_val, row_id.
  destruct (resolve_logger_id row) as [logger_id row']. cbn [fst snd].
  destruct (negb _ && negb _ && negb _ && negb _); py_unfold.
  - destruct (float_of_str (get_or row' "LAT" "Y")) as [lat|]; simpl;
      [|by rewrite app_nil_r; destruct st].
    destruct (float_of_str (get_or row' "LON" "X")) as [lon|]; simpl;
      [|by rewrite app_nil_r; destruct st].
    destruct (in_range (-90) lat 90 && in_range (-180) lon 180); simpl;
      rewrite ?app_nil_r; by destruct st.
  - rewrite !app_nil_r. by destruct st.
Qed.

Lemma map_loop i0 reader st :
  for_enumerate i0 reader (λ _, load_metadata_row) st =
  (mk_loader_state (metadata st ++ reader ≫= retained)
                   (warnings st ++ reader ≫= warned), inr ()).
Proof.
  revert i0 st. induction reader as [|row rest IH]; intros i0 st; csimpl.
  - rewrite !app_nil_r. by destruct st.
  - unfold mbind at 1, py_bind. rewrite map_row_effect, IH. simpl.
    by rewrite <- !app_assoc.
Qed.

Lemma map_load_metadata reader :
  load_metadata (Some reader) =
  mk_loader_state (reader ≫= retained) (reader ≫= warned).
Proof.
  unfold load_metadata, try_except, for_each. by rewrite map_loop.
Qed.

Lemma map_load_all_metadata metadata_dir legacy :
  load_all_metadata metadata_dir legacy =
  mk_loader_state (load_order metadata_dir legacy ≫= (λ t, t ≫= retained))
                  (load_order metadata_dir legacy ≫= (λ t, t ≫= warned)).
Proof.
  unfold load_all_metadata, load_order.
  assert (∀ tables st,
            foldl (λ all t, extend all (load_metadata (Some t))) st tables
            = mk_loader_state (metadata st ++ tables ≫= (λ t, t ≫= retained))
                              (warnings st ++ tables ≫= (λ t, t ≫= warned))) as Hfold.
  { induction tables as [|t tables IH]; intros st.
    - csimpl. rewrite !app_nil_r. by destruct st.
    - cbn [foldl]. rewrite IH, map_load_metadata. unfold extend. csimpl.
      by rewrite <- !app_assoc. }
  rewrite Hfold. cbn [metadata warnings app]. rewrite !bind_app.
  destruct legacy as [f|]; cbn [option_list].
  - rewrite map_load_metadata. unfold extend. csimpl. by rewrite !app_nil_r.
  - csimpl. by rewrite !app_nil_r.
Qed.

Lemma normalize_ID row logger_id lat lon :
  normalize row logger_id lat lon !! "ID" = Some (VStr logger_id).
Proof.
  unfold normalize.
  destruct (row !! "Altitude"); [destruct (negb _)|];
    by rewrite ?lookup_insert_ne, ?lookup_insert_eq by done.
Qed.

Lemma normalize_WP_ID row logger_id lat lon :
  normalize row logger_id lat lon !! "WP_ID" = of_cell <$> row !! "WP_ID".
Proof.
  unfold normalize.
  destruct (row !! "Altitude"); [destruct (negb _)|];
    rewrite ?lookup_insert_ne by done; apply lookup_fmap.
Qed.

Lemma normalize_coordinates row logger_id lat lon :
  normalize row logger_id lat lon !! "LAT" = Some (VFloat lat)
  ∧ normalize row logger_id lat lon !! "LON" = Some (VFloat lon).
Proof.
  unfold normalize.
  destruct (row !! "Altitude"); [destruct (negb _)|]; split;
    by rewrite ?lookup_insert_ne, ?lookup_insert_eq by done.
Qed.

End map_metadata_facts.

Section metadata_claims.
Context `{PyFloat}.
Import PyStr.

Lemma omap_all_None {X Y} (f : X → option Y) l :
  (∀ x, x ∈ l → f x = None) → omap f l = [].
Proof.
  induction l as [|x l IH]; intros Hl; [done|]. simpl.
  rewrite (Hl x) by apply list_elem_of_here.
  apply IH. intros y Hy. apply Hl. by apply list_elem_of_further.
Qed.

Lemma omap_cons_Some {X Y} (f : X → option Y) x y l :
  f x = Some y → omap f (x :: l) = y :: omap f l.
Proof. intros Hx. simpl. by rewrite Hx. Qed.

(** C4, as amended.  In the plot script, the mapping returned by
    [load_all_metadata] holds for a logger id the row, whole, of the last
    table read that has a row for the id, and nothing for an id that no table
    has; within one table the last row read with the id is the one kept.  In
    the map script [load_all_metadata] returns a list: the rows retained from
    each table, in reading order, those of earlier tables included. *)
Theorem load_all_metadata_last_table (metadata_dir : option (list (list dict_row)))
    (legacy : option (list dict_row)) :
  let tables := load_order metadata_dir legacy in
  (∀ pre t post id row,
     tables = pre ++ t :: post →
     Plot.load_metadata (Some t) !! id = Some row →
     (∀ t', t' ∈ post → Plot.load_metadata (Some t') !! id = None) →
     Plot.load_all_metadata metadata_dir legacy !! id = Some row)
  ∧ (∀ id,
       (∀ t, t ∈ tables → Plot.load_metadata (Some t) !! id = None) →
       Plot.load_all_metadata metadata_dir legacy !! id = None)
  ∧ (∀ t id, id ≠ "" →
       Plot.load_metadata (Some t) !! id
       = last (filter (λ r, plot_id r = id) (rows_read t)))
  ∧ Map.metadata (Map.load_all_metadata metadata_dir legacy)
    = tables ≫= (λ t, Map.metadata (Map.load_metadata (Some t))).
Proof.
  intros tables. split; [|split; [|split]].
  - intros pre t post id row Htables Hrow Hpost.
    rewrite plot_load_all_metadata, dict_updates_lookup.
    fold tables. rewrite Htables, omap_app.
    rewrite (omap_cons_Some _ t row post Hrow).
    rewrite (omap_all_None _ post Hpost). by rewrite last_snoc.
  - intros id Hnone.
    rewrite plot_load_all_metadata, dict_updates_lookup.
    fold tables. by rewrite (omap_all_None _ tables Hnone).
  - intros t id Hid. rewrite plot_load_metadata, store_rows_lookup.
    rewrite lookup_empty.
    assert (filter (λ r, plot_id r = id ∧ id ≠ "") (rows_read t)
            = filter (λ r, plot_id r = id) (rows_read t)) as ->.
    { apply list_filter_iff. intros r. tauto. }
    by destruct (last _).
  - rewrite map_load_all_metadata. cbn [Map.metadata]. fold tables.
    apply list_bind_ext; [|done]. intros t. by rewrite map_load_metadata.
Qed.

(** The conditions under which the map script retains a row. *)
Definition row_passes (row : dict_row) : Prop :=
  row_id row ≠ "" ∧ row_id row ≠ "-"
  ∧ lat_val row ≠ "" ∧ lon_val row ≠ ""
  ∧ ∃ lat lon,
      float_of_str (lat_val row) = Some lat
      ∧ float_of_str (lon_val row) = Some lon
      ∧ Map.in_range (-90) lat 90 = true
      ∧ Map.in_range (-180) lon 180 = true.

Lemma id_and_cells_present_iff row :
  id_and_cells_present row = true ↔
  row_id row ≠ "" ∧ row_id row ≠ "-" ∧ lat_val row ≠ "" ∧ lon_val row ≠ "".
Proof.
  unfold id_and_cells_present.
  rewrite !andb_true_iff, !negb_true_iff, !bool_decide_eq_false. tauto.
Qed.

Lemma retained_iff row : retained row ≠ [] ↔ row_passes row.
Proof.
  unfold retained, row_passes.
  destruct (id_and_cells_present row) eqn:Hp.
  - apply id_and_cells_present_iff in Hp as (?&?&?&?).
    destruct (float_of_str (lat_val row)) as [lat|];
      [|split; [done|intros (_&_&_&_&?&?&?&_); done]].
    destruct (float_of_str (lon_val row)) as [lon|];
      [|split; [done|intros (_&_&_&_&?&?&_&?&_); done]].
    destruct (Map.in_range (-90) lat 90 && Map.in_range (-180) lon 180) eqn:Hr.
    + apply andb_true_iff in Hr as [??]. split; [|done]. intros _.
      repeat split; try done. by exists lat, lon.
    + split; [done|]. intros (_&_&_&_&lat'&lon'&[= <-]&[= <-]&Hlat&Hlon).
      by rewrite Hlat, Hlon in Hr.
  - split; [done|]. intros (?&?&?&?&_).
    assert (id_and_cells_present row = true) as Hp'
      by (by apply id_and_cells_present_iff).
    congruence.
Qed.

(** C5, as amended.  The map script's [load_metadata] returns, in order, one
    normalised row for each row of the table that passes its checks, and
    nothing for the others.  A row passes exactly when its resolved
    identifier is neither empty nor ["-"], its latitude and longitude cells
    are not empty and parse as floats, and the floats lie in [-90, 90] and
    [-180, 180].  A warning is logged for a row exactly when its identifier
    and cells are present and one of the two cells does not parse; the other
    rows that fail are dropped with no warning.  So a row whose identifier
    is ["-"] is dropped, and so is a row whose latitude is above 90, such as
    91.  The plot script's [load_metadata] makes none of these checks: it
    keeps, under the stripped [ID] cell, each row read whose stripped [ID]
    cell is not empty, the last such row for each id. *)
Theorem load_metadata_retains (reader : list dict_row) :
  Map.metadata (Map.load_metadata (Some reader)) = reader ≫= retained
  ∧ Map.warnings (Map.load_metadata (Some reader)) = reader ≫= warned
  ∧ (∀ n, n ∈ Map.metadata (Map.load_metadata (Some reader)) ↔
          ∃ row, n ∈ retained row ∧ row ∈ reader)
  ∧ (∀ row, retained row ≠ [] ↔ row_passes row)
  ∧ (∀ row, retained row = []
            ∨ ∃ lat lon,
                float_of_str (lat_val row) = Some lat
                ∧ float_of_str (lon_val row) = Some lon
                ∧ retained row
                  = [Map.normalize (Map.resolve_logger_id row).2 (row_id row) lat lon])
  ∧ (∀ row, warned row ≠ [] ↔
            (row_id row ≠ "" ∧ row_id row ≠ "-"
             ∧ lat_val row ≠ "" ∧ lon_val row ≠ "")
            ∧ (float_of_str (lat_val row) = None
               ∨ float_of_str (lon_val row) = None))
  ∧ (∀ row, row_id row = "-" → retained row = [] ∧ warned row = [])
  ∧ (∀ row lat,
       float_of_str (lat_val row) = Some lat →
       float_le lat (float_of_int 90) = false →
       retained row = [])
  ∧ (∀ id, id ≠ "" →
       Plot.load_metadata (Some reader) !! id
       = last (filter (λ r, plot_id r = id) (rows_read reader))).
Proof.
  rewrite map_load_metadata. cbn [Map.metadata Map.warnings].
  split; [done|]. split; [done|].
  split; [intros n; apply list_elem_of_bind|].
  split; [apply retained_iff|].
  split; [|split; [|split; [|split]]].
  - intros row. unfold retained.
    destruct (id_and_cells_present row); [|by left].
    destruct (float_of_str (lat_val row)) as [lat|]; [|by left].
    destruct (float_of_str (lon_val row)) as [lon|]; [|by left].
    destruct (_ && _); [|by left]. right. by exists lat, lon.
  - intros row. unfold warned.
    destruct (id_and_cells_present row) eqn:Hp.
    + apply id_and_cells_present_iff in Hp.
      destruct (float_of_str (lat_val row)) as [lat|]; [|by split; auto].
      destruct (float_of_str (lon_val row)) as [lon|]; [|by split; auto].
      split; [done|]. by intros [_ [?|?]].
    + split; [done|]. intros [Hp' _]. apply id_and_cells_present_iff in Hp'.
      congruence.
  - intros row Hid. unfold retained, warned.
    assert (id_and_cells_present row = false) as ->; [|done].
    unfold id_and_cells_present. rewrite (bool_decide_eq_true_2 (row_id row = "-") Hid).
    simpl. by rewrite andb_false_r.
  - intros row lat Hlat Hle. unfold retained. rewrite Hlat.
    destruct (id_and_cells_present row); [|done].
    destruct (float_of_str (lon_val row)); [|done].
    unfold Map.in_range at 1. rewrite Hle. by rewrite andb_false_r.
  - intros id Hid. rewrite plot_load_metadata, store_rows_lookup, lookup_empty.
    assert (filter (λ r, plot_id r = id ∧ id ≠ "") (rows_read reader)
            = filter (λ r, plot_id r = id) (rows_read reader)) as ->.
    { apply list_filter_iff. intros r. tauto. }
    by destruct (last _).
Qed.

End metadata_claims.

Section identifier_claims.
Context `{PyFloat}.
Import PyStr.

Lemma truthy_get_Some row k s :
  truthy_get row k = Some s ↔ row !! k = Some (Some s) ∧ s ≠ "".
Proof.
  unfold truthy_get. destruct (row !! k) as [[s'|]|]; try (split; [done|by intros [??]]).
  destruct (bool_decide (s' = "")) eqn:E.
  - apply bool_decide_eq_true in E. split; [done|]. intros [[= ->] ?]. done.
  - apply bool_decide_eq_false in E. split; [by intros [= ->]|by intros [[= ->] _]].
Qed.

Lemma rows_read_subseteq reader row : row ∈ rows_read reader → row ∈ reader.
Proof.
  induction reader as [|r rest IH]; simpl; [done|].
  destruct (decide _); [by intros ?%elem_of_nil|].
  intros [->|?]%elem_of_cons; [apply list_elem_of_here|].
  by apply list_elem_of_further, IH.
Qed.

Lemma retained_fields row n :
  n ∈ retained row →
  n !! "ID" = Some (Map.VStr (row_id row))
  ∧ n !! "WP_ID" = Map.of_cell <$> (Map.resolve_logger_id row).2 !! "WP_ID".
Proof.
  unfold retained.
  destruct (id_and_cells_present row); [|by intros ?%elem_of_nil].
  destruct (float_of_str (lat_val row)) as [lat|]; [|by intros ?%elem_of_nil].
  destruct (float_of_str (lon_val row)) as [lon|]; [|by intros ?%elem_of_nil].
  destruct (_ && _); [|by intros ?%elem_of_nil].
  intros ->%list_elem_of_singleton. split.
  - apply normalize_ID.
  - apply normalize_WP_ID.
Qed.

(** C6, as amended.  The map script's [load_metadata] takes the identifier of
    a row from the [BLE-ID/Geoprecision] cell, stripped, when the row has that
    cell and it is not empty, and otherwise from the [ID] cell, stripped, when
    that one is not empty; otherwise the identifier is empty.  When the first
    cell supplies the identifier and the [ID] cell is not empty, a retained
    row carries the identifier under [ID] and the value of the [ID] cell
    under [WP_ID]: a row with ["X1"] and ["WP5"] in the two cells has
    identifier ["X1"] and, when retained, waypoint ["WP5"].  The plot
    script's [load_metadata] does not read the [BLE-ID/Geoprecision] cell: it
    stores each row under its stripped [ID] cell. *)
Theorem load_metadata_identifier (row : dict_row) :
  (∀ ble, truthy_get row "BLE-ID/Geoprecision" = Some ble → row_id row = strip ble)
  ∧ (∀ id, truthy_get row "BLE-ID/Geoprecision" = None →
           truthy_get row "ID" = Some id → row_id row = strip id)
  ∧ (truthy_get row "BLE-ID/Geoprecision" = None →
     truthy_get row "ID" = None → row_id row = "")
  ∧ Map.metadata (Map.load_metadata (Some [row])) = retained row
  ∧ (∀ n, n ∈ retained row → n !! "ID" = Some (Map.VStr (row_id row)))
  ∧ (∀ ble id n,
       truthy_get row "BLE-ID/Geoprecision" = Some ble →
       truthy_get row "ID" = Some id →
       n ∈ retained row →
       n !! "ID" = Some (Map.VStr (strip ble)) ∧ n !! "WP_ID" = Some (Map.VStr id))
  ∧ (row !! "BLE-ID/Geoprecision" = Some (Some "X1") →
     row !! "ID" = Some (Some "WP5") →
     row_id row = "X1"
     ∧ ∀ n, n ∈ retained row →
            n !! "ID" = Some (Map.VStr "X1") ∧ n !! "WP_ID" = Some (Map.VStr "WP5"))
  ∧ (∀ reader id r,
       Plot.load_metadata (Some reader) !! id = Some r →
       r ∈ reader ∧ id = plot_id r ∧ id ≠ "").
Proof.
  assert (∀ ble, truthy_get row "BLE-ID/Geoprecision" = Some ble →
                 row_id row = strip ble) as Hble.
  { intros ble Hb. unfold row_id, Map.resolve_logger_id. by rewrite Hb. }
  assert (∀ ble id n,
            truthy_get row "BLE-ID/Geoprecision" = Some ble →
            truthy_get row "ID" = Some id →
            n ∈ retained row →
            n !! "ID" = Some (Map.VStr (strip ble)) ∧ n !! "WP_ID" = Some (Map.VStr id))
    as Hwp.
  { intros ble id n Hb Hi Hn.
    destruct (retained_fields row n Hn) as [Hid Hw].
    split; [by rewrite Hid, (Hble ble Hb)|].
    rewrite Hw. unfold Map.resolve_logger_id. rewrite Hb, Hi. cbn [snd].
    rewrite lookup_insert_eq.
    apply truthy_get_Some in Hi as [-> _]. done. }
  split; [done|]. split; [|split; [|split; [|split; [|split; [done|split]]]]].
  - intros id Hb Hi. unfold row_id, Map.resolve_logger_id. rewrite Hb, Hi.
    apply truthy_get_Some in Hi as [-> _]. done.
  - intros Hb Hi. unfold row_id, Map.resolve_logger_id. by rewrite Hb, Hi.
  - rewrite map_load_metadata. cbn [Map.metadata]. csimpl. apply app_nil_r.
  - intros n Hn. by destruct (retained_fields row n Hn).
  - intros Hb Hi.
    assert (truthy_get row "BLE-ID/Geoprecision" = Some "X1") as Hb'
      by (by apply truthy_get_Some).
    assert (truthy_get row "ID" = Some "WP5") as Hi'
      by (by apply truthy_get_Some).
    split; [by rewrite (Hble _ Hb')|].
    intros n Hn. by destruct (Hwp _ _ n Hb' Hi' Hn).
  - intros reader id r. rewrite plot_load_metadata, store_rows_lookup, lookup_empty.
    destruct (last _) as [r'|] eqn:Hlast; [|done]. intros [= ->].
    apply last_Some_elem_of, list_elem_of_filter in Hlast as [[Hid Hne] Hr].
    split; [by apply rows_read_subseteq|done].
Qed.

End identifier_claims.

(** * Further properties of the row parsers *)

Lemma omap_cons_match {X Y} (f : X → option Y) x l :
  omap f (x :: l) = match f x with Some y => y :: omap f l | None => omap f l end.
Proof. done. Qed.

Section parser_extras.
Context `{PyFloat}.
Import PyStr DateTime Plot.

(** X1.  [parse_sangvor_file] does not look at the header: with the header
    count equal to the number of header lines, the result is that of the data
    lines alone.  And data lines are parsed one by one: the result for two
    runs of lines put together is the two results put together. *)
Theorem parse_sangvor_file_header_and_append :
  (∀ header data,
     parse_sangvor_file (header ++ data) (Z.of_nat (length header))
     = parse_sangvor_file data 0)
  ∧ (∀ lines1 lines2,
       parse_sangvor_file (lines1 ++ lines2) 0
       = (((parse_sangvor_file lines1 0).1.1 ++ (parse_sangvor_file lines2 0).1.1,
           (parse_sangvor_file lines1 0).1.2 ++ (parse_sangvor_file lines2 0).1.2),
          inr ())).
Proof.
  split.
  - intros header data. rewrite !parse_sangvor_file_samples.
    change (Z.to_nat 0) with 0%nat.
    by rewrite Nat2Z.id, drop_app_length, drop_0.
  - intros lines1 lines2. rewrite !parse_sangvor_file_samples.
    change (Z.to_nat 0) with 0%nat. rewrite !drop_0.
    cbv zeta. cbn [fst snd]. by rewrite omap_app, !fmap_app.
Qed.



(** The rows [parse_fanmountains_file] passes over: empty rows, rows whose
    first cell is blank, starts with ["<"] or reads ["NO"] in any letter
    case, and rows of fewer than three cells. *)
Definition fanmountains_skipped (row : list string) : Prop :=
  match row with
  | [] => True
  | cell0 :: _ =>
      strip cell0 = "" ∨ startswith (strip cell0) "<" = true
      ∨ upper (strip cell0) = "NO" ∨ (length row < 3)%nat
  end.

Lemma fanmountains_skipped_cells row :
  fanmountains_skipped row → fanmountains_cells row = None.
Proof.
  unfold fanmountains_skipped, fanmountains_cells.
  destruct row as [|cell0 [|c1 [|c2 rest]]]; try done.
  intros [->|[->|[->|Hlen]]].
  - done.
  - by rewrite orb_true_r.
  - by rewrite orb_true_r.
  - simpl in Hlen. lia.
Qed.

(** X3.  A row after the header that [parse_fanmountains_file] passes over
    has no effect on the result, whatever its other cells hold: the file
    without the row parses to the same lists. *)
Theorem parse_fanmountains_file_skipped_row
    (before : list (list string)) (row : list string) (after : list (list string))
    (skip_lines : Z) :
  fanmountains_skipped row →
  (Z.to_nat skip_lines ≤ length before)%nat →
  parse_fanmountains_file (before ++ row :: after) skip_lines
  = parse_fanmountains_file (before ++ after) skip_lines.
Proof.
  intros Hrow Hskip. rewrite !parse_fanmountains_file_effect.
  rewrite !drop_app_le by done. cbv zeta. rewrite !omap_app.
  assert (omap fanmountains_timestamp (row :: after) = omap fanmountains_timestamp after)
    as ->.
  { rewrite omap_cons_match. unfold fanmountains_timestamp at 1.
    by rewrite (fanmountains_skipped_cells row Hrow). }
  assert (omap fanmountains_sample (row :: after) = omap fanmountains_sample after)
    as ->.
  { rewrite omap_cons_match. unfold fanmountains_sample at 1.
    by rewrite (fanmountains_skipped_cells row Hrow). }
  done.
Qed.

End parser_extras.

(** * Further properties of the series merger *)

Section sort_extras.
Context {A K : Type} `{PyOrd K, EqDecision K} (key : A → K).

Lemma at_key_elem_of k l : at_key key k l ≠ [] ↔ k ∈ key <$> l.
Proof.
  unfold at_key. split.
  - intros Hne. destruct (filter _ l) as [|x l'] eqn:E; [done|].
    assert (x ∈ filter (λ a, key a = k) l) as Hx by (rewrite E; apply list_elem_of_here).
    apply list_elem_of_filter in Hx as [<- Hx]. by apply list_elem_of_fmap_2.
  - intros (x & -> & Hx)%list_elem_of_fmap Hnil.
    assert (x ∈ filter (λ a, key a = key x) l) as Hin by (by apply list_elem_of_filter).
    rewrite Hnil in Hin. by apply elem_of_nil in Hin.
Qed.

Lemma take_1_ne_nil {X} (l : list X) : take 1 l ≠ [] ↔ l ≠ [].
Proof. by destruct l. Qed.
End sort_extras.

(** Two lists that increase strictly and have the same elements are equal. *)
Lemma increasing_ext `{PyOrd K} (l1 l2 : list K) :
  StronglySorted (λ a b, plt a b = true) l1 →
  StronglySorted (λ a b, plt a b = true) l2 →
  (∀ x, x ∈ l1 ↔ x ∈ l2) → l1 = l2.
Proof.
  intros Hs1. revert l2. induction Hs1 as [|x l1 Hl1 IH Hx]; intros l2 Hs2 Hiff.
  - destruct l2 as [|y l2]; [done|].
    exfalso. apply (proj1 (elem_of_nil y)). apply Hiff, list_elem_of_here.
  - destruct Hs2 as [|y l2 Hl2 Hy].
    { exfalso. apply (proj1 (elem_of_nil x)). apply Hiff, list_elem_of_here. }
    rewrite Forall_forall in Hx, Hy.
    assert (x = y) as <-.
    { pose proof (proj1 (Hiff x) (list_elem_of_here _ _)) as Hxin.
      pose proof (proj2 (Hiff y) (list_elem_of_here _ _)) as Hyin.
      apply elem_of_cons in Hxin as [?|Hxin]; [done|].
      apply elem_of_cons in Hyin as [?|Hyin]; [done|].
      pose proof (Hy x Hxin) as Hyx. pose proof (Hx y Hyin) as Hxy.
      by rewrite (plt_asym _ _ Hxy) in Hyx. }
    f_equal. apply IH; [done|]. intros z. split; intros Hz.
    + pose proof (proj1 (Hiff z) (list_elem_of_further _ _ _ Hz)) as Hz'.
      apply elem_of_cons in Hz' as [->|?]; [|done].
      pose proof (Hx x Hz) as Hxx. by rewrite plt_irrefl in Hxx.
    + pose proof (proj2 (Hiff z) (list_elem_of_further _ _ _ Hz)) as Hz'.
      apply elem_of_cons in Hz' as [->|?]; [|done].
      pose proof (Hy x Hz) as Hxx. by rewrite plt_irrefl in Hxx.
Qed.

Section merger_extras.
Context `{PyFloat}.
Import PyStr DateTime PathLib Plot.

Lemma merged_timestamps file_group t :
  t ∈ (concatenate_timeseries file_group).1
  ↔ t ∈ (mjoin (parsed_samples <$> file_group)).*1.
Proof.
  rewrite concatenate_timeseries_eq. cbv zeta. cbn [fst].
  set (all := mjoin (parsed_samples <$> file_group)).
  destruct (unique_scan_sorted fst (combined_sort all) (list_sort_sorted fst all))
    as [_ Hat].
  rewrite <- !(at_key_elem_of fst). unfold unique_data. rewrite Hat.
  rewrite take_1_ne_nil. unfold combined_sort. by rewrite list_sort_stable.
Qed.

Lemma merged_increasing file_group :
  StronglySorted (λ t1 t2, plt t1 t2 = true) (concatenate_timeseries file_group).1.
Proof.
  rewrite concatenate_timeseries_eq. cbv zeta. cbn [fst].
  eapply StronglySorted_fmap;
    [|apply (unique_scan_sorted fst), list_sort_sorted]. done.
Qed.

(** X4.  [concatenate_timeseries] neither loses nor invents a timestamp: the
    timestamps it returns are those that some file of the group yields.  Each
    sample it returns is a sample of one of the files, the series is never
    longer than the samples parsed, and it is empty exactly when no file
    yields a sample. *)
Theorem concatenate_timeseries_keeps_timestamps (file_group : list logger_file) :
  let all_samples := mjoin (parsed_samples <$> file_group) in
  let out := concatenate_timeseries file_group in
  (∀ t, t ∈ out.1 ↔ t ∈ all_samples.*1)
  ∧ (∀ sample, sample ∈ zip out.1 out.2 → sample ∈ all_samples)
  ∧ (length out.1 ≤ length all_samples)%nat
  ∧ (out = ([], []) ↔ all_samples = []).
Proof.
  intros all_samples out.
  assert (out = ((unique_data (combined_sort all_samples)).*1,
                 (unique_data (combined_sort all_samples)).*2)) as Hout
    by apply concatenate_timeseries_eq.
  destruct (unique_scan_sorted fst (combined_sort all_samples)
              (list_sort_sorted fst all_samples)) as [Hinc Hat].
  assert (∀ sample, sample ∈ unique_data (combined_sort all_samples) →
                    sample ∈ all_samples) as Hsub.
  { intros [t v] Hin.
    assert ((t, v) ∈ at_key fst t (unique_data (combined_sort all_samples))) as Hk
      by (by apply list_elem_of_filter).
    unfold unique_data in Hk. rewrite Hat in Hk.
    unfold combined_sort in Hk. rewrite list_sort_stable in Hk.
    apply (subseteq_take 1) in Hk. by apply list_elem_of_filter in Hk as [_ ?]. }
  split; [apply merged_timestamps|]. split; [|split].
  - intros sample. rewrite Hout. cbn [fst snd]. rewrite zip_fst_snd. apply Hsub.
  - rewrite Hout. cbn [fst]. rewrite length_fmap.
    apply NoDup_submseteq in Hsub.
    + by apply submseteq_length.
    + apply (NoDup_fmap_1 fst). by apply key_increasing_NoDup.
  - split.
    + intros Hempty. destruct all_samples as [|[t v] l] eqn:E; [done|].
      assert (t ∈ out.1) as Hin.
      { apply merged_timestamps. fold all_samples. rewrite E. csimpl.
        apply list_elem_of_here. }
      rewrite Hempty in Hin. by apply elem_of_nil in Hin.
    + intros Hnil. rewrite Hout, Hnil. done.
Qed.

(** X5.  The timestamps of the merged series do not depend on the order in
    which the files of the group are read; the order only decides which
    temperature is kept at a timestamp that several samples share. *)
Theorem concatenate_timeseries_timestamps_order (group1 group2 : list logger_file) :
  group1 ≡ₚ group2 →
  (concatenate_timeseries group1).1 = (concatenate_timeseries group2).1.
Proof.
  intros Hperm. apply increasing_ext; [apply merged_increasing..|].
  intros t. rewrite !merged_timestamps. by rewrite Hperm.
Qed.

End merger_extras.

(** * Further properties of the file grouper *)

Section sort_perm_extras.
Context {A K : Type} `{PyOrd K, EqDecision K} (key : A → K).

Lemma all_equal_perm (l1 l2 : list A) :
  l1 ≡ₚ l2 → (∀ a b, a ∈ l1 → b ∈ l1 → a = b) → l1 = l2.
Proof.
  intros Hperm Heq.
  assert (∀ (x : A) (l : list A), (∀ a, a ∈ l → a = x) → l = replicate (length l) x) as Hrep.
  { intros x. induction l as [|a l IH]; intros Hl; [done|]. simpl. f_equal.
    - apply Hl, list_elem_of_here.
    - apply IH. intros b Hb. by apply Hl, list_elem_of_further. }
  destruct l1 as [|x l1'].
  { by apply Permutation_nil_l in Hperm. }
  rewrite (Hrep x (x :: l1')), (Hrep x l2).
  - by rewrite (Permutation_length Hperm).
  - intros a Ha. rewrite <- Hperm in Ha. apply Heq; [done|apply list_elem_of_here].
  - intros a Ha. apply Heq; [done|apply list_elem_of_here].
Qed.

Lemma filter_all (P : A → Prop) `{∀ x, Decision (P x)} (l : list A) :
  (∀ x, x ∈ l → P x) → filter P l = l.
Proof.
  induction l as [|x l IH]; intros Hl; [done|].
  rewrite filter_cons, decide_True by apply Hl, list_elem_of_here.
  f_equal. apply IH. intros y Hy. by apply Hl, list_elem_of_further.
Qed.

Lemma filter_none (P : A → Prop) `{∀ x, Decision (P x)} (l : list A) :
  (∀ x, x ∈ l → ¬ P x) → filter P l = [].
Proof.
  induction l as [|x l IH]; intros Hl; [done|].
  rewrite filter_cons, decide_False by apply Hl, list_elem_of_here.
  apply IH. intros y Hy. by apply Hl, list_elem_of_further.
Qed.

(** Sorting does not depend on the order of the input when no two elements
    have the same key. *)
Lemma list_sort_perm_eq (l1 l2 : list A) :
  l1 ≡ₚ l2 →
  (∀ a b, a ∈ l1 → b ∈ l1 → key a = key b → a = b) →
  list_sort key l1 = list_sort key l2.
Proof.
  intros Hperm Hinj. apply stable_sort_unique; [apply list_sort_sorted|].
  intros k. rewrite list_sort_stable. apply all_equal_perm.
  - unfold at_key. by rewrite Hperm.
  - intros a b [Ha Hal]%list_elem_of_filter [Hb Hbl]%list_elem_of_filter.
    apply Hinj; congruence.
Qed.
End sort_perm_extras.

Section grouper_extras.
Import PyStr PathLib Plot.

(** X6.  The grouping does not depend on the order in which the files are
    discovered, provided no two files of the list compare equal as paths. *)
Theorem group_files_by_logger_id_order (files1 files2 : list Path) :
  files1 ≡ₚ files2 →
  (∀ f g, f ∈ files1 → g ∈ files1 → parts_normcase f = parts_normcase g → f = g) →
  group_files_by_logger_id files1 = group_files_by_logger_id files2.
Proof.
  intros Hperm Hinj. apply map_eq. intros id. rewrite !group_files_lookup.
  assert (files_of id files1 ≡ₚ files_of id files2) as Hp
    by (unfold files_of; by rewrite Hperm).
  assert (sort_paths (files_of id files1) = sort_paths (files_of id files2)) as Hs.
  { apply list_sort_perm_eq; [done|].
    intros f g [_ Hf]%list_elem_of_filter [_ Hg]%list_elem_of_filter.
    by apply Hinj. }
  destruct (files_of id files1) as [|f1 l1], (files_of id files2) as [|f2 l2];
    try done.
  - by apply Permutation_nil_l in Hp.
  - by apply Permutation_nil_r in Hp.
  - by rewrite Hs.
Qed.

(** X7.  Grouping the files of one group again gives that group and no
    other: every file of a group is kept, under the same id, and the order
    of the list is unchanged. *)
Theorem group_files_by_logger_id_regroup (csv_files : list Path) (id : string)
    (group : list Path) :
  group_files_by_logger_id csv_files !! id = Some group →
  group_files_by_logger_id group = {[ id := group ]}.
Proof.
  rewrite group_files_lookup.
  destruct (files_of id csv_files) as [|f0 fs] eqn:E; [done|]. intros Hsome.
  assert (sort_paths (f0 :: fs) = group) as Hgroup by congruence. clear Hsome.
  assert (group ≡ₚ f0 :: fs) as Hperm by (rewrite <- Hgroup; apply list_sort_perm).
  assert (∀ f, f ∈ group →
               is_metadata_file f = false ∧ logger_id_of f = id ∧ id ≠ "") as Hall.
  { intros f Hf. rewrite Hperm, <- E in Hf.
    by apply list_elem_of_filter in Hf as [? _]. }
  assert (key_sorted parts_normcase group) as Hsorted
    by (rewrite <- Hgroup; apply list_sort_sorted).
  clear Hgroup E.
  apply map_eq. intros id'. rewrite group_files_lookup.
  destruct (decide (id' = id)) as [->|Hne].
  - rewrite lookup_singleton_eq.
    assert (files_of id group = group) as ->.
    { unfold files_of. by apply filter_all. }
    destruct group as [|g group]; [by apply Permutation_nil_l in Hperm|].
    f_equal. by apply list_sort_id.
  - rewrite lookup_singleton_ne by done.
    assert (files_of id' group = []) as ->; [|done].
    unfold files_of. apply filter_none. intros f Hf (_ & Hid & _).
    destruct (Hall f Hf) as (_ & Hid' & _). congruence.
Qed.

End grouper_extras.

(** * More on the metadata loaders *)

Section plot_metadata_extras.
Import PyStr.

Lemma rows_read_short_row before row after :
  row !! "ID" = Some None → rows_read (before ++ row :: after) = rows_read before.
Proof.
  intros Hrow. induction before as [|r before IH]; simpl.
  - by rewrite decide_True.
  - destruct (decide _); [done|]. by rewrite IH.
Qed.

Lemma rows_read_app t1 t2 :
  (∀ row, row ∈ t1 → row !! "ID" ≠ Some None) →
  rows_read (t1 ++ t2) = t1 ++ rows_read t2.
Proof.
  induction t1 as [|r t1 IH]; intros Hall; [done|]. simpl.
  rewrite decide_False by apply Hall, list_elem_of_here.
  f_equal. apply IH. intros row Hrow. by apply Hall, list_elem_of_further.
Qed.

Lemma store_rows_union rows (metadata : gmap string dict_row) :
  foldl store_row metadata rows = foldl store_row ∅ rows ∪ metadata.
Proof.
  apply map_eq. intros id. rewrite lookup_union, !store_rows_lookup, lookup_empty.
  destruct (last _); [|by rewrite (left_id None _)].
  by destruct (metadata !! id).
Qed.

(** X8.  In the plot script, a row with no cell under [ID] (a line shorter
    than the header) ends the loading of its table: the rows read before it
    are kept, and neither it nor any row after it is stored. *)
Theorem plot_load_metadata_stops_at_short_row (before after : list dict_row)
    (row : dict_row) :
  row !! "ID" = Some None →
  Plot.load_metadata (Some (before ++ row :: after)) = Plot.load_metadata (Some before).
Proof.
  intros Hrow. by rewrite !plot_load_metadata, (rows_read_short_row _ _ _ Hrow).
Qed.

(** X9.  In the plot script, when every row of a table has a cell under
    [ID], loading the table followed by more rows gives what loading the
    table and updating it with the loaded further rows gives. *)
Theorem plot_load_metadata_app (t1 t2 : list dict_row) :
  (∀ row, row ∈ t1 → row !! "ID" ≠ Some None) →
  Plot.load_metadata (Some (t1 ++ t2))
  = Plot.dict_update (Plot.load_metadata (Some t1)) (Plot.load_metadata (Some t2)).
Proof.
  intros Hall. rewrite !plot_load_metadata, (rows_read_app _ _ Hall), foldl_app.
  assert (rows_read t1 = t1) as ->.
  { rewrite <- (app_nil_r t1) at 1. rewrite (rows_read_app _ _ Hall). simpl.
    apply app_nil_r. }
  unfold Plot.dict_update. apply store_rows_union.
Qed.

Lemma plot_loaded_row_nonempty reader id r :
  Plot.load_metadata (Some reader) !! id = Some r → r ≠ ∅.
Proof.
  rewrite plot_load_metadata, store_rows_lookup, lookup_empty.
  destruct (last _) as [r'|] eqn:Hlast; [|done]. intros [= ->].
  apply last_Some_elem_of, list_elem_of_filter in Hlast as [[Hid Hne] _].
  intros ->. apply Hne. rewrite <- Hid. unfold plot_id. by rewrite lookup_empty.
Qed.

Lemma plot_loaded_all_row_nonempty metadata_dir legacy id r :
  Plot.load_all_metadata metadata_dir legacy !! id = Some r → r ≠ ∅.
Proof.
  rewrite plot_load_all_metadata, dict_updates_lookup, lookup_empty.
  destruct (last _) as [r'|] eqn:Hlast; [|done]. intros [= ->].
  apply last_Some_elem_of, list_elem_of_omap in Hlast as (t & _ & Ht).
  by apply (plot_loaded_row_nonempty t id).
Qed.

Lemma infer_title_row logger_id file_group (metadata_dict : gmap string dict_row) :
  (∀ r, metadata_dict !! logger_id = Some r → r ≠ ∅) →
  (Plot.infer_title logger_id file_group metadata_dict).2 = metadata_dict !! logger_id.
Proof.
  intros Hne. unfold Plot.infer_title.
  destruct (metadata_dict !! logger_id) as [r|]; [|done].
  by rewrite bool_decide_eq_false_2 by by apply Hne.
Qed.

(** X10.  For the mapping that [load_metadata] or [load_all_metadata] of
    the plot script returns, [infer_title] hands back the row stored for the
    logger id, and nothing for an id with no row: a stored row is never an
    empty [dict], so the test [if metadata] fails only for an id that is not
    stored. *)
Theorem infer_title_of_loaded_metadata (metadata_dir : option (list (list dict_row)))
    (legacy metadata_file : option (list dict_row)) (logger_id : string)
    (file_group : list PathLib.Path) :
  (Plot.infer_title logger_id file_group
     (Plot.load_all_metadata metadata_dir legacy)).2
  = Plot.load_all_metadata metadata_dir legacy !! logger_id
  ∧ (Plot.infer_title logger_id file_group (Plot.load_metadata metadata_file)).2
    = Plot.load_metadata metadata_file !! logger_id.
Proof.
  split; apply infer_title_row; intros r Hr.
  - by apply plot_loaded_all_row_nonempty in Hr.
  - destruct metadata_file as [reader|]; [|done].
    by apply plot_loaded_row_nonempty in Hr.
Qed.

End plot_metadata_extras.

Section map_metadata_extras.
Context `{PyFloat}.
Import PyStr Map.

Lemma bind_mjoin {X Y} (f : X → list Y) (ls : list (list X)) :
  mjoin ls ≫= f = ls ≫= (λ l, l ≫= f).
Proof.
  induction ls as [|l ls IH]; [done|]. csimpl. by rewrite bind_app, IH.
Qed.

(** X11.  In the map script, loading the tables one after the other gives
    what one table holding their rows in reading order gives, for the rows
    retained and for the warnings logged. *)
Theorem map_load_all_metadata_one_table (metadata_dir : option (list (list dict_row)))
    (legacy : option (list dict_row)) :
  Map.load_all_metadata metadata_dir legacy
  = Map.load_metadata (Some (mjoin (load_order metadata_dir legacy))).
Proof.
  by rewrite map_load_all_metadata, map_load_metadata, !bind_mjoin.
Qed.

Lemma retained_or_warned row : (length (retained row) + length (warned row) ≤ 1)%nat.
Proof.
  unfold retained, warned. destruct (id_and_cells_present row); [|simpl; lia].
  destruct (float_of_str (lat_val row)); [|simpl; lia].
  destruct (float_of_str (lon_val row)); [|simpl; lia].
  destruct (_ && _); simpl; lia.
Qed.

(** X12.  The map script retains a row or logs a warning for it, never
    both: the rows retained and the warnings logged for a table are together
    no more than its rows. *)
Theorem map_load_metadata_counts (reader : list dict_row) :
  (length (Map.metadata (Map.load_metadata (Some reader)))
   + length (Map.warnings (Map.load_metadata (Some reader))) ≤ length reader)%nat.
Proof.
  rewrite map_load_metadata. cbn [Map.metadata Map.warnings].
  induction reader as [|row reader IH]; [done|]. csimpl.
  rewrite !length_app. pose proof (retained_or_warned row). lia.
Qed.

Lemma resolve_logger_id_cells row k :
  k ≠ "WP_ID" → (resolve_logger_id row).2 !! k = row !! k.
Proof.
  intros Hk. unfold resolve_logger_id.
  destruct (truthy_get row "BLE-ID/Geoprecision"); destruct (truthy_get row "ID");
    cbn [snd]; by rewrite ?lookup_insert_ne.
Qed.

Lemma resolve_logger_id_truthy row k :
  k ≠ "WP_ID" → truthy_get (resolve_logger_id row).2 k = truthy_get row k.
Proof. intros Hk. unfold truthy_get. by rewrite resolve_logger_id_cells. Qed.

(** X13.  Every row in the list that [load_metadata] of the map script
    returns comes from a row of the table whose coordinate cells parse; it
    holds the two floats under [LAT] and [LON], within [-90, 90] and
    [-180, 180]; under [ELE] it holds the [Altitude] cell when the table
    has that column and the [ELE] cell is missing or empty, and the [ELE]
    cell otherwise; every other column but [ID] and [WP_ID] holds the cell
    of the table. *)
Theorem map_load_metadata_normalized (reader : list dict_row) (n : gmap string value) :
  n ∈ Map.metadata (Map.load_metadata (Some reader)) →
  ∃ row lat lon,
    row ∈ reader
    ∧ float_of_str (lat_val row) = Some lat
    ∧ float_of_str (lon_val row) = Some lon
    ∧ in_range (-90) lat 90 = true ∧ in_range (-180) lon 180 = true
    ∧ n !! "LAT" = Some (VFloat lat) ∧ n !! "LON" = Some (VFloat lon)
    ∧ n !! "ELE" = match row !! "Altitude", truthy_get row "ELE" with
                   | Some altitude, None => Some (of_cell altitude)
                   | _, _ => of_cell <$> row !! "ELE"
                   end
    ∧ ∀ k, k ∉ ["ID"; "LAT"; "LON"; "ELE"; "WP_ID"] → n !! k = of_cell <$> row !! k.
Proof.
  rewrite map_load_metadata. cbn [Map.metadata].
  intros (row & Hn & Hrow)%list_elem_of_bind. exists row.
  unfold retained in Hn.
  destruct (id_and_cells_present row); [|by apply elem_of_nil in Hn].
  destruct (float_of_str (lat_val row)) as [lat|]; [|by apply elem_of_nil in Hn].
  destruct (float_of_str (lon_val row)) as [lon|]; [|by apply elem_of_nil in Hn].
  destruct (in_range (-90) lat 90 && in_range (-180) lon 180) eqn:Hr;
    [|by apply elem_of_nil in Hn].
  apply andb_true_iff in Hr as [Hlat Hlon].
  apply list_elem_of_singleton in Hn as ->. exists lat, lon.
  split; [done|]. split; [done|]. split; [done|]. split; [done|]. split; [done|].
  split; [apply normalize_coordinates|]. split; [apply normalize_coordinates|].
  unfold normalize.
  rewrite (resolve_logger_id_cells row "Altitude") by done.
  rewrite (resolve_logger_id_truthy row "ELE") by done.
  split.
  - destruct (row !! "Altitude") as [altitude|];
      [destruct (truthy_get row "ELE"); cbn [negb bool_decide]|].
    + rewrite bool_decide_eq_true_2 by eauto. cbn [negb].
      rewrite !lookup_insert_ne by done.
      by rewrite lookup_fmap, resolve_logger_id_cells.
    + rewrite bool_decide_eq_false_2 by (by intros [??]). cbn [negb].
      by rewrite lookup_insert_eq.
    + rewrite !lookup_insert_ne by done.
      by rewrite lookup_fmap, resolve_logger_id_cells.
  - intros k Hk.
    assert (k ≠ "ID" ∧ k ≠ "LAT" ∧ k ≠ "LON" ∧ k ≠ "ELE" ∧ k ≠ "WP_ID")
      as (?&?&?&?&?).
    { rewrite !not_elem_of_cons in Hk. by destruct Hk as (?&?&?&?&?&_). }
    destruct (row !! "Altitude"); [destruct (negb _)|];
      rewrite !lookup_insert_ne by done;
      by rewrite lookup_fmap, resolve_logger_id_cells.
Qed.

End map_metadata_extras.

(** * More on strings *)

Section str_more_facts.
Import PyStr.

#[local] Abbreviation chars := String.list_ascii_of_string.

Lemma length_append a b :
  String.length (a +:+ b) = (String.length a + String.length b)%nat.
Proof. induction a as [|c a IH]; simpl; [done|]. by rewrite IH. Qed.

Lemma chars_append a b : chars (a +:+ b) = chars a ++ chars b.
Proof. induction a as [|c a IH]; simpl; [done|]. by rewrite IH. Qed.

Lemma append_assoc a b c : (a +:+ b) +:+ c = a +:+ b +:+ c.
Proof.
  induction a as [|x a IH]; [done|].
  change (String x ((a +:+ b) +:+ c) = String x (a +:+ b +:+ c)). by rewrite IH.
Qed.

Lemma append_nil_r s : s +:+ "" = s.
Proof.
  induction s as [|c s IH]; [done|].
  change (String c (s +:+ "") = String c s). by rewrite IH.
Qed.

End str_more_facts.

(** * More on [parse_offset] *)

Section offset_extras.
Import PyStr Scan DateTime Offset.

#[local] Abbreviation chars := String.list_ascii_of_string.

Lemma remove_char_app ch a b :
  remove_char ch (a +:+ b) = remove_char ch a +:+ remove_char ch b.
Proof.
  induction a as [|c a IH]; simpl; [done|].
  destruct (decide (c = ch)); simpl; by rewrite IH.
Qed.

(** [n] spaces. *)
Fixpoint spaces (n : nat) : string :=
  match n with
  | O => EmptyString
  | S n' => String " " (spaces n')
  end.

Lemma remove_char_spaces n : remove_char " " (spaces n) = "".
Proof.
  induction n as [|n IH]; [done|]. cbn [spaces remove_char]. by rewrite decide_True.
Qed.

(** X14.  [parse_offset] does not see the spaces of its argument, wherever
    they stand, within a number included. *)
Theorem parse_offset_ignores_spaces (a b : string) (n : nat) :
  parse_offset (a +:+ spaces n +:+ b) = parse_offset (a +:+ b).
Proof.
  unfold parse_offset.
  by rewrite !remove_char_app, remove_char_spaces.
Qed.

(** A component of an offset, as the digits of a number, when it is
    written, and the number it denotes. *)
Definition all_digits (ds : list ascii) : bool := forallb is_digit ds.

Definition written (x : option string) : Prop :=
  ∀ ds, x = Some ds →
        ds ≠ "" ∧ all_digits (chars ds) = true ∧ len ds ≤ int_max_str_digits.

Definition component (x : option string) (unit : string) : string :=
  match x with
  | Some ds => ds +:+ unit
  | None => EmptyString
  end.

Definition number (x : option string) : Z :=
  match x with
  | Some ds => int_of_digits ds
  | None => 0
  end.

(** The text is empty, or starts with a number that is followed by a
    character other than [c] that is no digit. *)
Definition follows (c : ascii) (text : list ascii) : Prop :=
  text = []
  ∨ ∃ ds c' rest,
      text = ds ++ c' :: rest ∧ ds ≠ [] ∧ all_digits ds = true
      ∧ is_digit c' = false ∧ c' ≠ c.

Lemma span_digits_app ds c rest :
  all_digits ds = true → is_digit c = false →
  span_digits (ds ++ c :: rest) = (ds, c :: rest).
Proof.
  intros Hds Hc. induction ds as [|d ds IH]; simpl.
  - by rewrite Hc.
  - simpl in Hds. apply andb_true_iff in Hds as [Hd Hds].
    by rewrite Hd, (IH Hds).
Qed.

Lemma scan_lit_app lit rest : scan_lit lit (lit ++ rest) = Some ((), rest).
Proof.
  induction lit as [|c lit IH]; simpl; [done|].
  unfold mbind, scanner_bind, scan_char. by rewrite decide_True.
Qed.

Lemma digit_no_space c : is_digit c = true → is_space c = false.
Proof.
  unfold is_digit, is_space. intros [H1 H2]%andb_true_iff.
  apply Z.leb_le in H1, H2.
  repeat (apply orb_false_iff; split);
    rewrite ?andb_false_iff, ?Z.leb_gt, ?Z.eqb_neq; lia.
Qed.

Lemma digit_not_space_char c : is_digit c = true → c ≠ " "%char.
Proof. intros Hc ->. done. Qed.

Lemma skip_spaces_follows c text : follows c text → skip_spaces text = text.
Proof.
  intros [->|(ds & c' & rest & -> & Hne & Hds & _)]; [done|].
  destruct ds as [|d ds]; [done|]. simpl in *.
  apply andb_true_iff in Hds as [Hd _]. by rewrite (digit_no_space d Hd).
Qed.

Lemma scan_digits_app ds c rest :
  ds ≠ [] → all_digits ds = true → is_digit c = false →
  scan_digits (ds ++ c :: rest) = Some (String.string_of_list_ascii ds, c :: rest).
Proof.
  intros Hne Hds Hc. unfold scan_digits. rewrite (span_digits_app _ _ _ Hds Hc).
  by destruct ds.
Qed.

Lemma chars_ne_nil ds : ds ≠ "" → chars ds ≠ [].
Proof. by destruct ds. Qed.

Lemma unit_group_component unit c unit' x rest :
  chars unit = c :: unit' → is_digit c = false →
  written x → follows c rest →
  unit_group unit (chars (component x unit) ++ rest) = Some (x, rest).
Proof.
  intros Hunit Hc Hx Hrest. unfold unit_group, scan_opt, mbind, scanner_bind.
  destruct x as [ds|]; cbn [component].
  - destruct (Hx ds eq_refl) as (Hne & Hds & _).
    rewrite chars_append, <- app_assoc, Hunit. cbn [app].
    rewrite (scan_digits_app _ _ _ (chars_ne_nil _ Hne) Hds Hc).
    change (c :: unit' ++ rest) with ((c :: unit') ++ rest).
    rewrite scan_lit_app. cbn.
    by rewrite String.string_of_list_ascii_of_string.
  - cbn [chars app].
    destruct Hrest as [->|(ds & c' & rest' & -> & Hne & Hds & Hc' & Hcc)]; [done|].
    rewrite (scan_digits_app _ _ _ Hne Hds Hc'), Hunit. cbn [scan_lit].
    unfold mbind, scanner_bind, scan_char. by rewrite decide_False.
Qed.

Lemma follows_component c unit c' unit' x rest :
  chars unit = c' :: unit' → is_digit c' = false → c' ≠ c →
  written x → follows c rest →
  follows c (chars (component x unit) ++ rest).
Proof.
  intros Hunit Hc' Hcc Hx Hrest. destruct x as [ds|]; [|done].
  destruct (Hx ds eq_refl) as (Hne & Hds & _). right.
  exists (chars ds), c', (unit' ++ rest). simpl.
  rewrite chars_append, <- app_assoc, Hunit. split; [done|].
  split; [|done]. destruct ds; [done|]. done.
Qed.

Lemma int_or_0_written x : written x → int_or_0 x = inr (number x).
Proof.
  intros Hx. destruct x as [ds|]; [|done].
  destruct (Hx ds eq_refl) as (Hne & _ & Hlen).
  destruct ds as [|d ds]; [done|]. unfold int_or_0, int.
  destruct (Z.ltb_spec int_max_str_digits (len (String d ds))); [lia|done].
Qed.

Lemma remove_char_digits ds :
  all_digits (chars ds) = true → remove_char " " ds = ds.
Proof.
  induction ds as [|d ds IH]; simpl; [done|].
  intros [Hd Hds]%andb_true_iff.
  rewrite decide_False by by apply digit_not_space_char.
  by rewrite (IH Hds).
Qed.

Lemma remove_char_component x unit :
  written x → remove_char " " unit = unit →
  remove_char " " (component x unit) = component x unit.
Proof.
  intros Hx Hunit. destruct x as [ds|]; [|done]. simpl.
  destruct (Hx ds eq_refl) as (_ & Hds & _).
  by rewrite remove_char_app, (remove_char_digits _ Hds), Hunit.
Qed.

(** X15.  An offset written as its days, hours, minutes and seconds in
    this order, each a number followed by [d], [h], [min] or [sec], any of
    them left out, with any number of spaces between them, is read as the
    [timedelta] of these numbers, a component left out counting as 0. *)
Theorem parse_offset_reads_components (d h m s : option string) (n1 n2 n3 : nat) :
  written d → written h → written m → written s →
  parse_offset (component d "d" +:+ spaces n1 +:+ component h "h" +:+ spaces n2
                +:+ component m "min" +:+ spaces n3 +:+ component s "sec")
  = timedelta_of (number d) (number h) (number m) (number s).
Proof.
  intros Hd Hh Hm Hs. unfold parse_offset.
  assert (remove_char " " (component d "d" +:+ spaces n1 +:+ component h "h"
                           +:+ spaces n2 +:+ component m "min" +:+ spaces n3
                           +:+ component s "sec")
          = component d "d" +:+ component h "h"
            +:+ component m "min" +:+ component s "sec") as ->.
  { by rewrite !remove_char_app, !remove_char_spaces, !remove_char_component. }
  assert (re_match pattern (component d "d" +:+ component h "h"
                            +:+ component m "min" +:+ component s "sec")
          = Some [d; h; m; s]) as Hmatch.
  { unfold re_match, pattern, mbind, scanner_bind, scan_spaces0, mret, scanner_ret.
    rewrite !chars_append.
    assert (follows "s" []) as F0 by (by left).
    assert (follows "m" (chars (component s "sec") ++ [])) as Fm
      by (by eapply follows_component; [reflexivity|..]; try done; by left).
    assert (follows "h" (chars (component m "min") ++ chars (component s "sec") ++ []))
      as Fh.
    { eapply follows_component; [reflexivity|done|done|done|].
      eapply follows_component; [reflexivity|done|done|done|by left]. }
    assert (follows "d" (chars (component h "h") ++ chars (component m "min")
                         ++ chars (component s "sec") ++ [])) as Fd.
    { eapply follows_component; [reflexivity|done|done|done|].
      eapply follows_component; [reflexivity|done|done|done|].
      eapply follows_component; [reflexivity|done|done|done|by left]. }
    rewrite <- (app_nil_r (chars (component s "sec"))).
    rewrite (unit_group_component "d" "d" [] d _ eq_refl eq_refl Hd Fd).
    rewrite (skip_spaces_follows _ _ Fd).
    rewrite (unit_group_component "h" "h" [] h _ eq_refl eq_refl Hh Fh).
    rewrite (skip_spaces_follows _ _ Fh).
    rewrite (unit_group_component "min" "m" _ m _ eq_refl eq_refl Hm Fm).
    rewrite (skip_spaces_follows _ _ Fm).
    by rewrite (unit_group_component "sec" "s" _ s _ eq_refl eq_refl Hs F0). }
  rewrite Hmatch. cbn [fmap list_fmap].
  cbn [all_or_raise].
  by rewrite !int_or_0_written by done.
Qed.

Lemma span_digits_digits text : all_digits (span_digits text).1 = true.
Proof.
  induction text as [|c text IH]; simpl; [done|].
  destruct (is_digit c) eqn:Hc; [|done].
  destruct (span_digits text) as [ds rest]. simpl in *. by rewrite Hc, IH.
Qed.

Lemma unit_group_digits unit text g rest ds :
  unit_group unit text = Some (g, rest) → g = Some ds → all_digits (chars ds) = true.
Proof.
  unfold unit_group, scan_opt, mbind, scanner_bind, scan_digits.
  pose proof (span_digits_digits text) as Hspan.
  destruct (span_digits text) as [[|d ds'] rest']; [by intros [= <- _]|].
  destruct (scan_lit _ _) as [[[] rest'']|]; [|by intros [= <- _]].
  intros [= <- _] [= <-].
  change (all_digits (chars (String.string_of_list_ascii (d :: ds'))) = true).
  by rewrite String.list_ascii_of_string_of_list_ascii.
Qed.

Lemma int_of_digits_nonneg ds : all_digits (chars ds) = true → 0 ≤ int_of_digits ds.
Proof.
  unfold int_of_digits.
  assert (∀ l acc, all_digits l = true → 0 ≤ acc →
                   0 ≤ fold_left (λ acc c, 10 * acc + digit_value c) l acc) as Hfold.
  { induction l as [|c l IH]; intros acc Hl Hacc; [done|]. simpl in *.
    apply andb_true_iff in Hl as [Hc Hl]. apply IH; [done|].
    unfold is_digit in Hc. apply andb_true_iff in Hc as [Hc _].
    apply Z.leb_le in Hc. unfold digit_value. lia. }
  intros Hds. by apply Hfold.
Qed.

Lemma int_or_0_nonneg g n :
  (∀ ds, g = Some ds → all_digits (chars ds) = true) → int_or_0 g = inr n → 0 ≤ n.
Proof.
  intros Hg. destruct g as [[|d ds]|]; try by intros [= <-].
  unfold int_or_0, int. destruct (_ <? _); [done|]. intros [= <-].
  by apply int_of_digits_nonneg, Hg.
Qed.

(** X16.  An offset that [parse_offset] returns is never negative: its days
    are between 0 and 999999999 and its seconds between 0 and 86399. *)
Theorem parse_offset_not_negative (offset_str : string) (offset : timedelta) :
  parse_offset offset_str = inr offset →
  0 ≤ days offset ≤ 999999999 ∧ 0 ≤ seconds offset < 86400.
Proof.
  unfold parse_offset, re_match, pattern, mbind, scanner_bind, scan_spaces0,
    mret, scanner_ret.
  destruct (unit_group "d" _) as [[d r1]|] eqn:Ed; [|done].
  destruct (unit_group "h" _) as [[h r2]|] eqn:Eh; [|done].
  destruct (unit_group "min" _) as [[m r3]|] eqn:Em; [|done].
  destruct (unit_group "sec" _) as [[s r4]|] eqn:Es; [|done].
  cbn [fmap option_fmap option_map fst list_fmap all_or_raise].
  destruct (int_or_0 d) as [|nd] eqn:Nd; [done|].
  destruct (int_or_0 h) as [|nh] eqn:Nh; [done|].
  destruct (int_or_0 m) as [|nm] eqn:Nm; [done|].
  destruct (int_or_0 s) as [|ns] eqn:Ns; [done|].
  apply int_or_0_nonneg in Nd; [|intros ds; by apply (unit_group_digits _ _ _ _ _ Ed)].
  apply int_or_0_nonneg in Nh; [|intros ds; by apply (unit_group_digits _ _ _ _ _ Eh)].
  apply int_or_0_nonneg in Nm; [|intros ds; by apply (unit_group_digits _ _ _ _ _ Em)].
  apply int_or_0_nonneg in Ns; [|intros ds; by apply (unit_group_digits _ _ _ _ _ Es)].
  unfold timedelta_of.
  destruct (Z.leb_spec (Z.abs (nd + (nh * 3600 + nm * 60 + ns) / 86400)) 999999999)
    as [Hle|]; [|done].
  intros [= <-]. cbn [days seconds].
  pose proof (Z.div_pos (nh * 3600 + nm * 60 + ns) 86400).
  pose proof (Z.mod_pos_bound (nh * 3600 + nm * 60 + ns) 86400).
  lia.
Qed.

End offset_extras.

(** * Paths of the files written *)

Section path_extras.
Import PyStr PathLib.

#[local] Abbreviation chars := String.list_ascii_of_string.

Lemma substring_0_0 s : String.substring 0 0 s = "".
Proof. by destruct s. Qed.

Lemma substring_all s : String.substring 0 (String.length s) s = s.
Proof. induction s as [|c s IH]; simpl; [done|]. by rewrite IH. Qed.

Lemma substring_split n s :
  (n ≤ String.length s)%nat →
  String.substring 0 n s +:+ String.substring n (String.length s - n) s = s.
Proof.
  revert n. induction s as [|c s IH]; intros n Hn.
  - by destruct n.
  - destruct n as [|n].
    + change (String.substring 0 (String.length (String c s)) (String c s) = String c s).
      apply substring_all.
    + change (String c (String.substring 0 n s
                        +:+ String.substring n (String.length s - n) s) = String c s).
      rewrite IH; [done|]. simpl in Hn. lia.
Qed.

Lemma substring_append_prefix a b k :
  String.substring 0 (String.length a + k) (a +:+ b) = a +:+ String.substring 0 k b.
Proof.
  induction a as [|c a IH]; [done|].
  change (String c (String.substring 0 (String.length a + k) (a +:+ b))
          = String c (a +:+ String.substring 0 k b)).
  by rewrite IH.
Qed.

(** [p.stem + p.suffix == p.name] *)
Lemma stem_suffix p : stem p +:+ suffix p = name p.
Proof.
  unfold stem, suffix, slice_to, slice_from, len. cbv zeta.
  destruct (_ && _) eqn:E.
  - apply andb_true_iff in E as [H0 H1]. apply Z.ltb_lt in H0, H1.
    apply substring_split. lia.
  - apply append_nil_r.
Qed.

Lemma startswith_no_sep s (ch : ascii) :
  ch ∉ chars s → startswith s (String ch EmptyString) = false.
Proof.
  unfold startswith. destruct s as [|c s]; simpl; [done|].
  intros [Hc _]%not_elem_of_cons. by destruct (ascii_dec ch c).
Qed.

Lemma parse_names_name s :
  "/"%char ∉ chars s → s ≠ "" → s ≠ "." → parse_names s = [s].
Proof.
  intros Hsep Hne Hdot. unfold parse_names. rewrite (split_no_sep _ _ Hsep).
  rewrite filter_cons, decide_True by done. done.
Qed.

Lemma truediv_name p s :
  "/"%char ∉ chars s → s ≠ "" → s ≠ "." →
  truediv p s = mk_Path (root p) (names p ++ [s]).
Proof.
  intros Hsep Hne Hdot. unfold truediv.
  rewrite (startswith_no_sep _ _ Hsep). by rewrite parse_names_name.
Qed.

Lemma parent_snoc r ns n : parent (mk_Path r (ns ++ [n])) = mk_Path r ns.
Proof.
  unfold parent. cbn [root names]. f_equal.
  rewrite length_app. cbn [length].
  replace (length ns + 1 - 1)%nat with (length ns) by lia.
  by rewrite take_app_length.
Qed.

Lemma name_snoc r ns n : name (mk_Path r (ns ++ [n])) = n.
Proof. unfold name. cbn [names]. by rewrite last_snoc. Qed.

Lemma output_path_name file_path :
  contains (name file_path) "/" = false →
  OffsetFile.output_path file_path
  = mk_Path (root file_path)
      (names (parent file_path) ++ [stem file_path +:+ "_offset" +:+ suffix file_path])
  ∧ name (OffsetFile.output_path file_path)
    = stem file_path +:+ "_offset" +:+ suffix file_path.
Proof.
  intros Hsep.
  assert ("/"%char ∉ chars (name file_path)) as Hno.
  { intros Hin. apply contains_char in Hin. congruence. }
  assert (String.length (stem file_path +:+ "_offset" +:+ suffix file_path)
          = (String.length (name file_path) + 7)%nat) as Hlen.
  { rewrite <- (stem_suffix file_path), !length_append. simpl. lia. }
  assert (OffsetFile.output_path file_path
          = mk_Path (root file_path)
              (names (parent file_path)
               ++ [stem file_path +:+ "_offset" +:+ suffix file_path])) as Hout.
  { unfold OffsetFile.output_path. rewrite truediv_name; [done|..].
    - rewrite <- (stem_suffix file_path), chars_append in Hno.
      rewrite !chars_append. rewrite !elem_of_app in *.
      intros [?|[Hin|?]]; [tauto| |tauto].
      vm_compute in Hin.
      repeat (apply elem_of_cons in Hin as [Hin|Hin]; [discriminate Hin|]).
      by apply elem_of_nil in Hin.
    - intros Hnil. rewrite Hnil in Hlen. simpl in Hlen. lia.
    - intros Hdot. rewrite Hdot in Hlen. simpl in Hlen. lia. }
  split; [done|]. rewrite Hout. apply name_snoc.
Qed.

(** X17.  [process_file] writes next to the file it reads, never over it:
    the output path has the parent of the input path, and its name is the
    name of the input with [_offset] put between the stem and the suffix,
    seven characters longer. *)
Theorem output_path_beside_input (file_path : Path) :
  contains (name file_path) "/" = false →
  let out := OffsetFile.output_path file_path in
  parent out = parent file_path
  ∧ name out = stem file_path +:+ "_offset" +:+ suffix file_path
  ∧ len (name out) = len (name file_path) + 7
  ∧ out ≠ file_path.
Proof.
  intros Hsep out. destruct (output_path_name file_path Hsep) as [Hout Hname].
  fold out in Hout, Hname.
  assert (len (name out) = len (name file_path) + 7) as Hlen.
  { rewrite Hname. unfold len.
    rewrite <- (stem_suffix file_path), !length_append. simpl. lia. }
  split; [|split; [done|split; [done|]]].
  - rewrite Hout. unfold parent at 2. cbn [root names]. apply parent_snoc.
  - intros Heq. rewrite Heq in Hlen. lia.
Qed.

End path_extras.

(** * The plot files of the map *)

Section plot_file_extras.
Import PyStr PathLib.

#[local] Abbreviation chars := String.list_ascii_of_string.

(** The files listed that [find_plot_files] reads as plots of [id], and
    those it takes for combined plots. *)
Definition plots_of (id : string) (png_files : list Path) : list Path :=
  filter (λ f, Map.plot_logger_id f = id) png_files.

Definition is_combined (png_file : Path) : Prop :=
  contains (name png_file) "_combined" = true.

Lemma find_plot_loop png_files (plot_files : gmap string Path) id :
  foldl Map.find_plot_step plot_files png_files !! id =
  match last (filter is_combined (plots_of id png_files)) with
  | Some f => Some f
  | None =>
      match plot_files !! id with
      | Some f0 => Some f0
      | None => head (plots_of id png_files)
      end
  end.
Proof.
  revert plot_files.
  induction png_files as [|f l IH]; intros plot_files; [by destruct (_ !! _)|].
  cbn [foldl]. rewrite IH. unfold plots_of. rewrite filter_cons.
  destruct (decide (Map.plot_logger_id f = id)) as [Hid|Hid].
  - rewrite filter_cons. unfold Map.find_plot_step. cbv zeta. rewrite Hid.
    destruct (decide (is_combined f)) as [Hc|Hc].
    + rewrite last_cons. unfold is_combined in Hc. rewrite Hc.
      destruct (last _); [done|].
      destruct (plot_files !! id); by rewrite lookup_insert_eq.
    + destruct (last _); [done|].
      apply not_true_is_false in Hc. rewrite Hc.
      destruct (plot_files !! id) eqn:E; [by rewrite E|].
      by rewrite lookup_insert_eq.
  - destruct (last _); [done|].
    assert (Map.find_plot_step plot_files f !! id = plot_files !! id) as ->; [|done].
    unfold Map.find_plot_step. cbv zeta.
    destruct (plot_files !! Map.plot_logger_id f);
      [destruct (contains _ _)|]; by rewrite ?lookup_insert_ne.
Qed.

(** X18.  [find_plot_files] maps a logger id to the last file listed for it
    that has [_combined] in its name, when there is one, and otherwise to
    the first file listed for it; an id for which no file is listed is not
    in the mapping. *)
Theorem find_plot_files_choice (png_files : list Path) (id : string) :
  Map.find_plot_files (Some png_files) !! id =
  match last (filter is_combined (plots_of id png_files)) with
  | Some f => Some f
  | None => head (plots_of id png_files)
  end.
Proof.
  unfold Map.find_plot_files. rewrite find_plot_loop. by rewrite lookup_empty.
Qed.

Lemma prefix_refl_append s rest : String.prefix s (s +:+ rest) = true.
Proof.
  induction s as [|c s IH]; [by destruct rest|].
  change (String.prefix (String c s) (String c (s +:+ rest)) = true).
  simpl. by destruct (ascii_dec c c).
Qed.

Lemma contains_append before sub rest : contains (before +:+ sub +:+ rest) sub = true.
Proof.
  induction before as [|c s IH].
  - change (contains (sub +:+ rest) sub = true).
    pose proof (prefix_refl_append sub rest) as Hpre.
    destruct (sub +:+ rest); cbn [contains]; by rewrite Hpre.
  - change (contains (String c (s +:+ sub +:+ rest)) sub = true).
    simpl. rewrite IH. apply orb_true_r.
Qed.

Lemma rfind_append ch a b :
  0 ≤ rfind ch b → rfind ch (a +:+ b) = len a + rfind ch b.
Proof.
  intros Hb. unfold len. induction a as [|c a IH].
  - change (rfind ch b = 0 + rfind ch b). lia.
  - change (rfind ch (String c (a +:+ b)) = Z.of_nat (S (String.length a)) + rfind ch b).
    simpl rfind. rewrite IH.
    destruct (Z.leb_spec 0 (Z.of_nat (String.length a) + rfind ch b)); lia.
Qed.

(** An occurrence of [old] cannot start in [s] and end in a text put after
    it that starts with a character [old] has at its start only. *)
Lemma prefix_straddle (c0 : ascii) old s rest :
  c0 ∉ chars old → String.prefix old s = false →
  String.prefix old (s +:+ String c0 rest) = false.
Proof.
  revert s. induction old as [|a old IH]; intros s Hc0 Hs.
  { by destruct s. }
  apply not_elem_of_cons in Hc0 as [Hne Hc0].
  destruct s as [|c s].
  - change (String.prefix (String a old) (String c0 rest) = false). simpl.
    destruct (ascii_dec a c0); [congruence|done].
  - change (String.prefix (String a old) (String c (s +:+ String c0 rest)) = false).
    simpl in *. destruct (ascii_dec a c); [|done]. by apply IH.
Qed.

Lemma replace_from_no_occurrence (c0 : ascii) old s :
  c0 ∉ chars old →
  contains s (String c0 old) = false →
  replace_from (String c0 old) "" 0 (s +:+ String c0 old)
  = s +:+ replace_from (String c0 old) "" 0 (String c0 old).
Proof.
  intros Hc0. induction s as [|c s IH]; intros Hs; [done|].
  simpl in Hs. apply orb_false_iff in Hs as [Hpre Hs].
  change (String c s +:+ String c0 old) with (String c (s +:+ String c0 old)).
  cbn [replace_from].
  assert (String.prefix (String c0 old) (String c (s +:+ String c0 old)) = false) as ->.
  { simpl. destruct (ascii_dec c0 c) as [->|]; [|done].
    destruct (ascii_dec c c); [|done]. by apply prefix_straddle. }
  rewrite (IH Hs). done.
Qed.

Lemma plot_path_names output_dir id :
  contains id "/" = false →
  Plot.plot_path output_dir id
  = mk_Path (root output_dir) (names output_dir ++ [id +:+ "_combined.png"]).
Proof.
  intros Hsep. unfold Plot.plot_path, Plot.plot_name.
  assert (String.length (id +:+ "_combined.png") = (String.length id + 13)%nat) as Hlen
    by (by rewrite length_append).
  apply truediv_name.
  - rewrite chars_append, elem_of_app. intros [Hin|Hin].
    + apply contains_char in Hin. congruence.
    + vm_compute in Hin.
      repeat (apply elem_of_cons in Hin as [Hin|Hin]; [discriminate Hin|]).
      by apply elem_of_nil in Hin.
  - intros E. rewrite E in Hlen. simpl in Hlen. lia.
  - intros E. rewrite E in Hlen. simpl in Hlen. lia.
Qed.

Lemma plot_path_stem output_dir id :
  contains id "/" = false →
  stem (Plot.plot_path output_dir id) = id +:+ "_combined".
Proof.
  intros Hsep. rewrite (plot_path_names _ _ Hsep). unfold stem. rewrite name_snoc.
  cbv zeta. rewrite (rfind_append "." id "_combined.png") by (by vm_compute).
  change (rfind "." "_combined.png") with 9.
  unfold len. rewrite length_append. change (String.length "_combined.png") with 13%nat.
  destruct (Z.ltb_spec 0 (Z.of_nat (String.length id) + 9)); [|lia].
  destruct (Z.ltb_spec (Z.of_nat (String.length id) + 9)
                       (Z.of_nat (String.length id + 13) - 1)); [|lia].
  cbn [andb]. unfold slice_to.
  replace (Z.to_nat (Z.of_nat (String.length id) + 9)) with (String.length id + 9)%nat
    by lia.
  by rewrite substring_append_prefix.
Qed.

Lemma plot_path_logger_id output_dir id :
  contains id "/" = false → contains id "_combined" = false →
  Map.plot_logger_id (Plot.plot_path output_dir id) = id
  ∧ is_combined (Plot.plot_path output_dir id).
Proof.
  intros Hsep Hid.
  assert (name (Plot.plot_path output_dir id) = id +:+ "_combined.png") as Hname
    by (rewrite (plot_path_names _ _ Hsep); apply name_snoc).
  split.
  - unfold Map.plot_logger_id. rewrite Hname.
    rewrite <- (append_nil_r "_combined.png"), contains_append.
    rewrite (plot_path_stem _ _ Hsep). unfold replace.
    rewrite bool_decide_eq_false_2 by done.
    assert ("_"%char ∉ chars "combined") as Hus.
    { intros Hin. vm_compute in Hin.
      repeat (apply elem_of_cons in Hin as [Hin|Hin]; [discriminate Hin|]).
      by apply elem_of_nil in Hin. }
    rewrite (replace_from_no_occurrence "_" "combined" id Hus Hid).
    change (replace_from "_combined" "" 0 "_combined") with "".
    apply append_nil_r.
  - unfold is_combined. rewrite Hname.
    change "_combined.png" with ("_combined" +:+ ".png"). apply contains_append.
Qed.

Lemma find_plot_files_of_plots output_dir ids id :
  (∀ i, i ∈ ids → contains i "/" = false ∧ contains i "_combined" = false) →
  id ∈ ids →
  Map.find_plot_files (Some (Plot.plot_path output_dir <$> ids)) !! id
  = Some (Plot.plot_path output_dir id).
Proof.
  intros Hids Hid. unfold Map.find_plot_files. rewrite find_plot_loop, lookup_empty.
  assert (∀ f, f ∈ filter is_combined (plots_of id (Plot.plot_path output_dir <$> ids))
               → f = Plot.plot_path output_dir id) as Hall.
  { intros f [_ [Hf Hin]%list_elem_of_filter]%list_elem_of_filter.
    apply list_elem_of_fmap in Hin as (i & -> & Hi).
    destruct (Hids i Hi) as [Hsep Hno].
    destruct (plot_path_logger_id output_dir i Hsep Hno) as [Hpi _]. congruence. }
  assert (Plot.plot_path output_dir id
          ∈ filter is_combined (plots_of id (Plot.plot_path output_dir <$> ids))) as Hin.
  { destruct (Hids id Hid) as [Hsep Hno].
    destruct (plot_path_logger_id output_dir id Hsep Hno) as [Hpi Hc].
    apply list_elem_of_filter. split; [done|].
    apply list_elem_of_filter. split; [done|]. by apply list_elem_of_fmap_2. }
  destruct (last _) as [f|] eqn:Hlast.
  - f_equal. by apply Hall, last_Some_elem_of.
  - apply last_None in Hlast. rewrite Hlast in Hin. by apply elem_of_nil in Hin.
Qed.

(** X19.  The name that the plot script gives the plot of a logger id is
    read back by the map script as that id, and as the name of a combined
    plot, when the id holds no [/] and not the text [_combined]. *)
Theorem plot_logger_id_of_plot_path (output_dir : Path) (logger_id : string) :
  contains logger_id "/" = false → contains logger_id "_combined" = false →
  name (Plot.plot_path output_dir logger_id) = Plot.plot_name logger_id
  ∧ Map.plot_logger_id (Plot.plot_path output_dir logger_id) = logger_id
  ∧ is_combined (Plot.plot_path output_dir logger_id).
Proof.
  intros Hsep Hid. split; [|by apply plot_path_logger_id].
  rewrite (plot_path_names _ _ Hsep). apply name_snoc.
Qed.

Lemma contains_first_char s (c : ascii) rest :
  contains s (String c rest) = true → c ∈ chars s.
Proof.
  induction s as [|a s IH]; simpl; [done|].
  intros [Hpre|Hs]%orb_true_iff.
  - destruct (ascii_dec c a) as [->|]; [apply list_elem_of_here|done].
  - by apply list_elem_of_further, IH.
Qed.

Lemma candidate_chars f c :
  c ∈ chars (candidate f) → c ∈ chars (name f) ∧ c ≠ "_"%char.
Proof.
  unfold candidate.
  destruct (split_first "_"%char (stem f)) as (first & rest & -> & Hno & Hs).
  cbn [lookup list_lookup default]. intros Hc. split.
  - rewrite <- (stem_suffix f), chars_append, elem_of_app. left.
    destruct Hs as [->|[tail ->]]; [done|].
    rewrite chars_append, elem_of_app. by left.
  - by intros ->.
Qed.

(** X20.  The map script finds the plots written for the groups of the
    plot script: when the id of every file grouped is the part of its name
    before the first underscore (the file is a sangvor file, or that part has
    three characters or more), and the directory of the plots lists the files
    written for some of the groups, [find_plot_files] maps the id of each of
    these groups to the file written for it. *)
Theorem find_plot_files_finds_group_plots (csv_files : list Path) (output_dir : Path)
    (ids : list string) (id : string) :
  (∀ f, f ∈ csv_files →
        contains (name f) "/" = false
        ∧ (Plot.is_sangvor f = true ∨ 3 ≤ len (candidate f))) →
  (∀ i, i ∈ ids → is_Some (Plot.group_files_by_logger_id csv_files !! i)) →
  id ∈ ids →
  Map.find_plot_files (Some (Plot.plot_path output_dir <$> ids)) !! id
  = Some (Plot.plot_path output_dir id).
Proof.
  intros Hfiles Hids Hid. apply find_plot_files_of_plots; [|done].
  intros i Hi. destruct (Hids i Hi) as [group Hgroup].
  rewrite group_files_lookup in Hgroup.
  destruct (files_of i csv_files) as [|f fs] eqn:E; [done|].
  assert (f ∈ files_of i csv_files) as Hf by (rewrite E; apply list_elem_of_here).
  apply list_elem_of_filter in Hf as [(_ & Hfi & _) Hf].
  destruct (Hfiles f Hf) as [Hsep Hcand].
  assert (i = candidate f) as ->.
  { rewrite <- Hfi. unfold Plot.logger_id_of. fold (candidate f).
    destruct Hcand as [->|Hlen]; [done|].
    destruct (Plot.is_sangvor f); [done|].
    destruct (bool_decide (candidate f = "")) eqn:He.
    { apply bool_decide_eq_true in He. rewrite He in Hlen. by vm_compute in Hlen. }
    destruct (Z.ltb_spec (len (candidate f)) 3); [lia|done]. }
  split.
  - apply not_true_is_false. intros Hc%contains_first_char.
    apply candidate_chars in Hc as [Hc _]. apply contains_char in Hc. congruence.
  - apply not_true_is_false. intros Hc%contains_first_char.
    by apply candidate_chars in Hc as [_ Hc].
Qed.

End plot_file_extras.

Section suffix_extras.
Import PyStr PathLib.

Lemma length_substring n m s :
  (n + m ≤ String.length s)%nat → String.length (String.substring n m s) = m.
Proof.
  revert n m. induction s as [|c s IH]; intros n m Hlen; simpl in Hlen.
  - assert (n = 0%nat ∧ m = 0%nat) as [-> ->] by lia. done.
  - destruct n as [|n]; simpl.
    + destruct m as [|m]; [done|]. simpl. rewrite IH; [done|lia].
    + apply IH. lia.
Qed.

Lemma substring_append_suffix a b k m :
  String.substring (String.length a + k) m (a +:+ b) = String.substring k m b.
Proof.
  induction a as [|c a IH]; [done|].
  change (String.substring (S (String.length a + k)) m (String c (a +:+ b))
          = String.substring k m b).
  simpl. apply IH.
Qed.

Lemma rfind_bound ch s : -1 ≤ rfind ch s < len s.
Proof.
  unfold len. induction s as [|c s IH]; simpl rfind; simpl String.length; [lia|].
  destruct (Z.leb_spec 0 (rfind ch s)); [lia|]. destruct (decide (c = ch)); lia.
Qed.

(** The text from the last occurrence of a character on has that character
    at its start and nowhere else. *)
Lemma rfind_slice_from ch s :
  0 ≤ rfind ch s → rfind ch (slice_from (rfind ch s) s) = 0.
Proof.
  unfold slice_from. induction s as [|c s IH]; [done|].
  simpl rfind. destruct (Z.leb_spec 0 (rfind ch s)) as [Hr|Hr].
  - intros _. specialize (IH Hr).
    replace (Z.to_nat (rfind ch s + 1)) with (S (Z.to_nat (rfind ch s))) by lia.
    simpl. apply IH.
  - destruct (decide (c = ch)) as [->|]; [|lia]. intros _.
    change (Z.to_nat 0) with 0%nat. rewrite Nat.sub_0_r, substring_all.
    simpl rfind. destruct (Z.leb_spec 0 (rfind ch s)); [lia|].
    by rewrite decide_True.
Qed.

Lemma offset_name_parts nm i :
  rfind "." (slice_from i nm) = 0 → 0 < i → i < len nm - 1 →
  let new := slice_to i nm +:+ "_offset" +:+ slice_from i nm in
  rfind "." new = i + 7 ∧ len new = len nm + 7
  ∧ slice_from (i + 7) new = slice_from i nm
  ∧ slice_to (i + 7) new = slice_to i nm +:+ "_offset".
Proof.
  intros Hdot H0 H1 new. unfold len in *.
  assert (String.length (slice_to i nm) = Z.to_nat i) as Hstem.
  { unfold slice_to. apply length_substring. lia. }
  assert (String.length (slice_from i nm) = (String.length nm - Z.to_nat i)%nat)
    as Hsuf.
  { unfold slice_from. apply length_substring. lia. }
  assert (String.length (slice_to i nm +:+ "_offset") = (Z.to_nat i + 7)%nat) as Hso.
  { rewrite length_append, Hstem. done. }
  assert (new = (slice_to i nm +:+ "_offset") +:+ slice_from i nm) as Hnew
    by (unfold new; by rewrite append_assoc).
  assert (String.length new = (String.length nm + 7)%nat) as Hlen.
  { rewrite Hnew, length_append, Hso, Hsuf. lia. }
  split; [|split; [lia|split]].
  - rewrite Hnew, rfind_append by lia. unfold len. rewrite Hso, Hdot. lia.
  - unfold slice_from at 1. rewrite Hlen.
    replace (Z.to_nat (i + 7))
      with (String.length (slice_to i nm +:+ "_offset") + 0)%nat by lia.
    rewrite Hnew, substring_append_suffix, Hso.
    replace (String.length nm + 7 - (Z.to_nat i + 7 + 0))%nat
      with (String.length (slice_from i nm)) by lia.
    apply substring_all.
  - unfold slice_to at 1.
    replace (Z.to_nat (i + 7))
      with (String.length (slice_to i nm +:+ "_offset") + 0)%nat by lia.
    rewrite Hnew, substring_append_prefix, substring_0_0. apply append_nil_r.
Qed.

(** X21.  The file that [process_file] writes keeps the extension of the
    file it reads: when the input path has a suffix, the output path has
    the same suffix, and its stem is the stem of the input with [_offset]
    added. *)
Theorem output_path_keeps_suffix (file_path : Path) :
  contains (name file_path) "/" = false →
  suffix file_path ≠ "" →
  suffix (OffsetFile.output_path file_path) = suffix file_path
  ∧ stem (OffsetFile.output_path file_path) = stem file_path +:+ "_offset".
Proof.
  intros Hsep Hsuffix.
  destruct (output_path_name file_path Hsep) as [_ Hname].
  unfold suffix at 1, stem at 1. rewrite Hname. clear Hname. cbv zeta.
  unfold suffix, stem in *. cbv zeta in *.
  destruct ((0 <? rfind "." (name file_path))
            && (rfind "." (name file_path) <? len (name file_path) - 1)) eqn:E;
    [|done].
  apply andb_true_iff in E as [H0 H1]. apply Z.ltb_lt in H0, H1.
  assert (rfind "." (slice_from (rfind "." (name file_path)) (name file_path)) = 0)
    as Hdot by (apply rfind_slice_from; lia).
  destruct (offset_name_parts _ _ Hdot H0 H1) as (-> & -> & -> & ->).
  destruct (Z.ltb_spec 0 (rfind "." (name file_path) + 7)); [|lia].
  destruct (Z.ltb_spec (rfind "." (name file_path) + 7)
                       (len (name file_path) + 7 - 1)); [|lia].
  done.
Qed.

End suffix_extras.

(** * The two loaders on one table *)

Section loaders_extras.
Context `{PyFloat}.
Import PyStr Map.

Lemma rows_read_all reader :
  (∀ row, row ∈ reader → row !! "ID" ≠ Some None) → rows_read reader = reader.
Proof.
  intros Hall. rewrite <- (app_nil_r reader) at 1.
  rewrite (rows_read_app _ _ Hall). apply app_nil_r.
Qed.

(** X22.  A logger that the map script places on the map under its [ID]
    cell has a row in the mapping that the plot script loads from the same
    table, stored under the same id, provided every row of the table has a
    cell under [ID]. *)
Theorem map_row_has_plot_metadata (reader : list dict_row) (row : dict_row) :
  (∀ r, r ∈ reader → r !! "ID" ≠ Some None) →
  row ∈ reader →
  truthy_get row "BLE-ID/Geoprecision" = None →
  retained row ≠ [] →
  ∃ r, Plot.load_metadata (Some reader) !! row_id row = Some r
       ∧ r ∈ reader ∧ plot_id r = row_id row.
Proof.
  intros Hall Hrow Hble Hretained.
  assert (row_id row ≠ "") as Hid.
  { intros Hid. apply Hretained. unfold retained, id_and_cells_present.
    rewrite (bool_decide_eq_true_2 (row_id row = "") Hid). cbn [negb].
    by rewrite andb_false_r. }
  assert (plot_id row = row_id row) as Hplot.
  { unfold row_id, resolve_logger_id in Hid |- *. rewrite Hble in Hid |- *.
    destruct (truthy_get row "ID"); [done|]. by destruct Hid. }
  rewrite plot_load_metadata, store_rows_lookup, lookup_empty, (rows_read_all _ Hall).
  destruct (last _) as [r|] eqn:Hlast.
  - exists r. split; [done|].
    apply last_Some_elem_of, list_elem_of_filter in Hlast as [[? _] ?]. done.
  - apply last_None in Hlast.
    assert (row ∈ filter (λ r, plot_id r = row_id row ∧ row_id row ≠ "") reader) as Hin
      by (by apply list_elem_of_filter).
    rewrite Hlast in Hin. by apply elem_of_nil in Hin.
Qed.

End loaders_extras.

(** * Marker colours *)

Section marker_extras.
Import PyStr.

Lemma lower_char_idemp c : lower_char (lower_char c) = lower_char c.
Proof. destruct c as [[] [] [] [] [] [] [] []]; vm_compute; reflexivity. Qed.

Lemma lower_idemp s : lower (lower s) = lower s.
Proof.
  induction s as [|c s IH]; [done|]. cbn [lower]. by rewrite lower_char_idemp, IH.
Qed.

(** X23.  The colour of a marker does not depend on the letter case of the
    surface text: the text in lower case has the same colour. *)
Theorem get_marker_color_lower (surface : string) :
  Map.get_marker_color (Some (lower surface)) = Map.get_marker_color (Some surface).
Proof.
  unfold Map.get_marker_color. destruct surface as [|c s]; [done|].
  rewrite (bool_decide_eq_false_2 (String c s = "")) by done.
  rewrite (bool_decide_eq_false_2 (lower (String c s) = "")) by done.
  by rewrite lower_idemp.
Qed.

End marker_extras.

(** * Runs on concrete input *)

Section runs.
Import PyStr DateTime PathLib DecimalFloat.

Definition example_header : list string := replicate 22 "header".

(** Two sangvor files of one logger that share the sample of 01:00. *)
Definition example_file_1 : Plot.logger_file :=
  Plot.mk_logger_file
    (mk_Path "" ["data"; "sangvor"; "2005-0070_20220907_0332.csv"])
    (example_header
     ++ ["01.01.2020 00:00:00;1.5" +:+ NL; "01.01.2020 01:00:00;2.5" +:+ NL]) [].

Definition example_file_2 : Plot.logger_file :=
  Plot.mk_logger_file
    (mk_Path "" ["data"; "sangvor"; "2005-0070_20220908_0332.csv"])
    (example_header
     ++ ["01.01.2020 01:00:00;9.0" +:+ NL; "01.01.2020 02:00:00;3.5" +:+ NL]) [].

Lemma concatenate_timeseries_merges_witness :
  Plot.concatenate_timeseries [example_file_1; example_file_2]
  = ([mk_datetime 2020 1 1 0 0 0; mk_datetime 2020 1 1 1 0 0;
      mk_datetime 2020 1 1 2 0 0],
     [mk_decimal 15 1; mk_decimal 25 1; mk_decimal 35 1]).
Proof.
  pose proof (concatenate_timeseries_merges [example_file_1; example_file_2])
    as (_ & _ & _ & _ & _ & _ & _ & _ & _ & _ & Hmerge).
  apply (Hmerge example_file_1 example_file_2 _ _ _ _ _ (mk_decimal 90 1) _);
    [reflexivity|vm_compute; reflexivity|vm_compute; reflexivity
    |vm_compute; reflexivity|vm_compute; reflexivity].
Defined.

Lemma merge_step_idempotent_witness :
  Plot.unique_data
    (Plot.combined_sort [(mk_datetime 2020 1 1 0 0 0, mk_decimal 15 1);
                         (mk_datetime 2020 1 1 1 0 0, mk_decimal 25 1)])
  = [(mk_datetime 2020 1 1 0 0 0, mk_decimal 15 1);
     (mk_datetime 2020 1 1 1 0 0, mk_decimal 25 1)].
Proof.
  apply (proj1 merge_step_idempotent).
  repeat constructor.
Defined.

Lemma parse_sangvor_file_paired_witness :
  Plot.parse_sangvor_file
    (example_header ++ ["01.01.2020 00:00:00;1.5" +:+ NL;
                        "01.01.2020 01:00:00;n/a" +:+ NL;
                        "not a date;2.0" +:+ NL;
                        "01.01.2020 02:00:00;3.5" +:+ NL]) 22
  = (([mk_datetime 2020 1 1 0 0 0; mk_datetime 2020 1 1 2 0 0],
      [mk_decimal 15 1; mk_decimal 35 1]), inr ()).
Proof.
  pose proof (parse_sangvor_file_paired
                (example_header ++ ["01.01.2020 00:00:00;1.5" +:+ NL;
                                    "01.01.2020 01:00:00;n/a" +:+ NL;
                                    "not a date;2.0" +:+ NL;
                                    "01.01.2020 02:00:00;3.5" +:+ NL]) 22)
    as (Hraise & _ & _ & Hresult & _).
  destruct (Plot.parse_sangvor_file _ _) as [result r]. simpl in *.
  rewrite Hraise, Hresult. vm_compute. reflexivity.
Defined.

(** C2.  A fanmountains row whose timestamp parses and whose temperature does
    not is not skipped as a whole: its timestamp is appended before the
    temperature is read.  Here the first data row has the temperature
    ["abc"] and the second is valid; the parser returns the timestamp of the
    first row with the temperature of the second, where the fully valid rows
    are the second alone. *)
Theorem parse_fanmountains_file_misaligned :
  let rows := replicate 12 ["header"]
              ++ [["1"; "01.01.2020 00:00:00"; "abc"];
                  ["2"; "02.01.2020 00:00:00"; "5.0"]] in
  Plot.parse_fanmountains_file rows 12
  = (([mk_datetime 2020 1 1 0 0 0], [mk_decimal 50 1]), inr ())
  ∧ omap fanmountains_sample (drop 12 rows)
    = [(mk_datetime 2020 1 2 0 0 0, mk_decimal 50 1)].
Proof. by vm_compute. Qed.

Lemma process_file_rewrites_witness :
  (Offset.process_file
     (example_header ++ ["  01.01.2020 00:00:00 ;5.0;x" +:+ NL]) (mk_timedelta 1 7200)).1
  !! 22%nat
  = Some ("02.01.2020 02:00:00;5.0;x" +:+ NL).
Proof.
  pose proof (process_file_rewrites
                (example_header ++ ["  01.01.2020 00:00:00 ;5.0;x" +:+ NL])
                (mk_timedelta 1 7200))
    as (_ & _ & _ & Hdata & _).
  change ("02.01.2020 02:00:00;5.0;x" +:+ NL)
    with (strftime (mk_datetime 2020 1 2 2 0 0) +:+ ";" +:+ "5.0;x" +:+ NL).
  apply (Hdata 22%nat ("  01.01.2020 00:00:00 ;5.0;x" +:+ NL)
               "  01.01.2020 00:00:00 " "5.0;x" (mk_datetime 2020 1 1 0 0 0)
               (mk_datetime 2020 1 2 2 0 0));
    [reflexivity|lia|vm_compute; reflexivity|
     |vm_compute; reflexivity|vm_compute; reflexivity].
  vm_compute. intros Hin. repeat (apply elem_of_cons in Hin as [Hin|Hin]; [discriminate Hin|]).
  by apply elem_of_nil in Hin.
Defined.

Lemma group_files_by_logger_id_groups_witness :
  Plot.logger_id_of (mk_Path "" ["data"; "A538D8"; "raw"; "x_20220916084244.csv"])
  = "A538D8".
Proof.
  pose proof (group_files_by_logger_id_groups [])
    as (_ & _ & _ & _ & _ & _ & Hgp & _).
  rewrite (Hgp (mk_Path "" ["data"; "A538D8"; "raw"; "x_20220916084244.csv"]));
    [reflexivity|reflexivity|vm_compute; reflexivity|vm_compute; reflexivity].
Defined.

(** Metadata tables. *)
Definition example_row (id ele : string) : dict_row :=
  {[ "ID" := Some id; "LAT" := Some "39.1"; "LON" := Some "68.2";
     "ELE" := Some ele ]}.

Lemma load_all_metadata_last_table_witness :
  Plot.load_all_metadata (Some [[example_row "A1" "3000"]])
                         (Some [example_row "A1" "3100"]) !! "A1"
  = Some (example_row "A1" "3100").
Proof.
  pose proof (load_all_metadata_last_table
                (Some [[example_row "A1" "3000"]]) (Some [example_row "A1" "3100"]))
    as (Hlast & _).
  apply (Hlast [[example_row "A1" "3000"]] [example_row "A1" "3100"] []);
    [reflexivity|vm_compute; reflexivity|].
  intros t' Hin. by apply elem_of_nil in Hin.
Defined.

(** The rows of a list that carry [id] under [ID]. *)
Definition has_id (id : string) (n : gmap string Map.value) : bool :=
  match n !! "ID" with
  | Some (Map.VStr s) => bool_decide (s = id)
  | _ => false
  end.

(** C4 as it is stated, for the map script: of two tables read one after the
    other, only the rows of the second remain for an id the second has. *)
Definition map_loader_replaces_rows : Prop :=
  ∀ t1 t2 id,
    filter (λ n, has_id id n) (Map.metadata (Map.load_metadata (Some t2))) ≠ [] →
    filter (λ n, has_id id n)
           (Map.metadata (Map.load_all_metadata (Some [t1; t2]) None))
    = filter (λ n, has_id id n) (Map.metadata (Map.load_metadata (Some t2))).

(** Two tables with a row for ["A1"] each: the list returned holds both. *)
Lemma map_loader_keeps_earlier_rows : ¬ map_loader_replaces_rows.
Proof.
  intros Hclaim.
  specialize (Hclaim [example_row "A1" "3000"] [example_row "A1" "3100"] "A1").
  apply (f_equal length) in Hclaim.
  - vm_compute in Hclaim. discriminate Hclaim.
  - intros Hnil. apply (f_equal length) in Hnil.
    vm_compute in Hnil. discriminate Hnil.
Qed.

(** C5 as it is stated, for the plot script: no row is kept under ["-"]. *)
Definition plot_loader_drops_dash : Prop :=
  ∀ reader, Plot.load_metadata (Some reader) !! "-" = None.

Lemma plot_loader_keeps_dash_row :
  ¬ plot_loader_drops_dash
  ∧ Plot.load_metadata
      (Some [{[ "ID" := Some "A1"; "LAT" := Some "91"; "LON" := Some "68.2" ]}])
    !! "A1" ≠ None.
Proof.
  split.
  - intros Hclaim. specialize (Hclaim [example_row "-" "3000"]).
    apply (f_equal (λ o, if o is Some _ then true else false)) in Hclaim.
    vm_compute in Hclaim. discriminate Hclaim.
  - intros Hnone.
    apply (f_equal (λ o, if o is Some _ then true else false)) in Hnone.
    vm_compute in Hnone. discriminate Hnone.
Qed.

Lemma load_metadata_retains_witness :
  retained {[ "ID" := Some "A1"; "LAT" := Some "91"; "LON" := Some "68.2" ]} = []
  ∧ warned {[ "ID" := Some "A1"; "LAT" := Some "91"; "LON" := Some "68.2" ]} = []
  ∧ retained (example_row "-" "3000") = [].
Proof.
  pose proof (load_metadata_retains []) as (_ & _ & _ & _ & _ & _ & Hdash & Hlat & _).
  split; [|split].
  - apply (Hlat _ (mk_decimal 91 0)); vm_compute; reflexivity.
  - vm_compute. reflexivity.
  - apply Hdash. vm_compute. reflexivity.
Defined.

(** A row with both identifier cells. *)
Definition example_ble_row : dict_row :=
  {[ "BLE-ID/Geoprecision" := Some "X1"; "ID" := Some "WP5";
     "Y" := Some "39.1"; "X" := Some "68.2" ]}.

Lemma load_metadata_identifier_witness :
  row_id example_ble_row = "X1"
  ∧ length (retained example_ble_row) = 1%nat
  ∧ ∀ n, n ∈ retained example_ble_row →
         n !! "ID" = Some (Map.VStr "X1") ∧ n !! "WP_ID" = Some (Map.VStr "WP5").
Proof.
  pose proof (load_metadata_identifier example_ble_row)
    as (_ & _ & _ & _ & _ & _ & Hex & _).
  destruct Hex as [Hid Hn]; [vm_compute; reflexivity|vm_compute; reflexivity|].
  split; [exact Hid|]. split; [vm_compute; reflexivity|exact Hn].
Defined.

(** C6 as it is stated, for the plot script: a row whose
    [BLE-ID/Geoprecision] cell is not empty is stored under that cell. *)
Definition plot_loader_prefers_ble : Prop :=
  ∀ row ble,
    truthy_get row "BLE-ID/Geoprecision" = Some ble →
    truthy_get row "ID" ≠ None →
    Plot.load_metadata (Some [row]) !! strip ble = Some row.

(** The plot script stores the row under ["WP5"], and nothing under ["X1"]. *)
Lemma plot_loader_keys_by_ID : ¬ plot_loader_prefers_ble.
Proof.
  intros Hclaim.
  specialize (Hclaim example_ble_row "X1").
  assert (Plot.load_metadata (Some [example_ble_row]) !! "X1" = None) as Hnone
    by (vm_compute; reflexivity).
  assert (strip "X1" = "X1") as Hstrip by (by vm_compute).
  rewrite Hstrip, Hnone in Hclaim.
  assert (None = Some example_ble_row) as Habs; [|discriminate Habs].
  apply Hclaim; vm_compute; [reflexivity|discriminate].
Qed.

(** Runs of the further properties. *)



Lemma parse_fanmountains_file_skipped_row_witness :
  Plot.parse_fanmountains_file
    (replicate 12 ["header"]
     ++ ["NO"; "01.01.2020 01:00:00"; "7.0"] :: [["1"; "01.01.2020 00:00:00"; "5.0"]]) 12
  = Plot.parse_fanmountains_file
      (replicate 12 ["header"] ++ [["1"; "01.01.2020 00:00:00"; "5.0"]]) 12.
Proof.
  apply parse_fanmountains_file_skipped_row.
  - right. right. left. vm_compute. reflexivity.
  - simpl. lia.
Defined.

Lemma concatenate_timeseries_keeps_timestamps_witness :
  (mk_datetime 2020 1 1 2 0 0, mk_decimal 35 1)
  ∈ mjoin (parsed_samples <$> [example_file_1; example_file_2]).
Proof.
  pose proof (concatenate_timeseries_keeps_timestamps [example_file_1; example_file_2])
    as (_ & Hsub & _).
  apply Hsub.
  assert (zip (Plot.concatenate_timeseries [example_file_1; example_file_2]).1
              (Plot.concatenate_timeseries [example_file_1; example_file_2]).2
          = [(mk_datetime 2020 1 1 0 0 0, mk_decimal 15 1);
             (mk_datetime 2020 1 1 1 0 0, mk_decimal 25 1);
             (mk_datetime 2020 1 1 2 0 0, mk_decimal 35 1)]) as ->
    by (vm_compute; reflexivity).
  apply list_elem_of_further, list_elem_of_further, list_elem_of_here.
Defined.

Lemma concatenate_timeseries_timestamps_order_witness :
  (Plot.concatenate_timeseries [example_file_1; example_file_2]).1
  = (Plot.concatenate_timeseries [example_file_2; example_file_1]).1.
Proof. apply concatenate_timeseries_timestamps_order, perm_swap. Defined.

Definition example_path_1 : Path :=
  mk_Path "" ["data"; "sangvor"; "2005-0070_20220907_0332.csv"].
Definition example_path_2 : Path :=
  mk_Path "" ["data"; "sangvor"; "2005-0070_20220908_0332.csv"].

Lemma group_files_by_logger_id_order_witness :
  Plot.group_files_by_logger_id [example_path_1; example_path_2]
  = Plot.group_files_by_logger_id [example_path_2; example_path_1].
Proof.
  apply group_files_by_logger_id_order; [apply perm_swap|].
  intros f g Hf Hg Heq.
  apply elem_of_cons in Hf as [->|Hf]; [|apply list_elem_of_singleton in Hf as ->];
    (apply elem_of_cons in Hg as [->|Hg]; [|apply list_elem_of_singleton in Hg as ->]);
    try reflexivity; vm_compute in Heq; discriminate Heq.
Defined.

Lemma group_files_by_logger_id_regroup_witness :
  Plot.group_files_by_logger_id [example_path_1; example_path_2]
  = {[ "2005-0070" := [example_path_1; example_path_2] ]}.
Proof.
  apply (group_files_by_logger_id_regroup [example_path_2; example_path_1]).
  rewrite group_files_lookup. vm_compute. reflexivity.
Defined.

Lemma plot_load_metadata_stops_at_short_row_witness :
  Plot.load_metadata
    (Some ([example_row "A1" "3000"] ++ <["ID" := None]> ∅ :: [example_row "A2" "3100"]))
  = Plot.load_metadata (Some [example_row "A1" "3000"]).
Proof. apply plot_load_metadata_stops_at_short_row, lookup_insert_eq. Defined.

Lemma plot_load_metadata_app_witness :
  Plot.load_metadata (Some ([<["ID" := Some "A1"]> ∅] ++ [example_row "A1" "3100"]))
  = Plot.dict_update (Plot.load_metadata (Some [<["ID" := Some "A1"]> ∅]))
                     (Plot.load_metadata (Some [example_row "A1" "3100"])).
Proof.
  apply plot_load_metadata_app.
  intros row Hrow. apply list_elem_of_singleton in Hrow as ->.
  rewrite lookup_insert_eq. discriminate.
Defined.

Lemma map_load_metadata_normalized_witness :
  ∃ row lat lon,
    row ∈ [example_row "A1" "3000"]
    ∧ float_of_str (lat_val row) = Some lat
    ∧ float_of_str (lon_val row) = Some lon
    ∧ Map.in_range (-90) lat 90 = true ∧ Map.in_range (-180) lon 180 = true
    ∧ Map.normalize (example_row "A1" "3000") "A1" (mk_decimal 391 1) (mk_decimal 682 1)
      !! "LAT" = Some (Map.VFloat lat)
    ∧ Map.normalize (example_row "A1" "3000") "A1" (mk_decimal 391 1) (mk_decimal 682 1)
      !! "LON" = Some (Map.VFloat lon)
    ∧ Map.normalize (example_row "A1" "3000") "A1" (mk_decimal 391 1) (mk_decimal 682 1)
      !! "ELE"
      = match row !! "Altitude", truthy_get row "ELE" with
        | Some altitude, None => Some (Map.of_cell altitude)
        | _, _ => Map.of_cell <$> row !! "ELE"
        end
    ∧ ∀ k, k ∉ ["ID"; "LAT"; "LON"; "ELE"; "WP_ID"] →
           Map.normalize (example_row "A1" "3000") "A1" (mk_decimal 391 1)
                         (mk_decimal 682 1) !! k
           = Map.of_cell <$> row !! k.
Proof.
  apply (map_load_metadata_normalized [example_row "A1" "3000"]).
  rewrite map_load_metadata. cbn [Map.metadata]. csimpl. rewrite app_nil_r.
  assert (retained (example_row "A1" "3000")
          = [Map.normalize (Map.resolve_logger_id (example_row "A1" "3000")).2
               (row_id (example_row "A1" "3000")) (mk_decimal 391 1) (mk_decimal 682 1)])
    as ->.
  { unfold retained.
    assert (id_and_cells_present (example_row "A1" "3000") = true) as ->
      by (vm_compute; reflexivity).
    assert (float_of_str (lat_val (example_row "A1" "3000")) = Some (mk_decimal 391 1))
      as -> by (vm_compute; reflexivity).
    assert (float_of_str (lon_val (example_row "A1" "3000")) = Some (mk_decimal 682 1))
      as -> by (vm_compute; reflexivity).
    assert (Map.in_range (-90) (mk_decimal 391 1) 90
            && Map.in_range (-180) (mk_decimal 682 1) 180 = true) as ->
      by (vm_compute; reflexivity).
    reflexivity. }
  assert (row_id (example_row "A1" "3000") = "A1") as -> by (vm_compute; reflexivity).
  assert ((Map.resolve_logger_id (example_row "A1" "3000")).2 = example_row "A1" "3000")
    as ->.
  { unfold Map.resolve_logger_id.
    assert (truthy_get (example_row "A1" "3000") "BLE-ID/Geoprecision" = None) as ->
      by (vm_compute; reflexivity).
    assert (truthy_get (example_row "A1" "3000") "ID" = Some "A1") as ->
      by (vm_compute; reflexivity).
    reflexivity. }
  apply list_elem_of_here.
Defined.

Lemma parse_offset_reads_components_witness :
  Offset.parse_offset "438d 3h 29min 29sec" = timedelta_of 438 3 29 29.
Proof.
  apply (parse_offset_reads_components (Some "438") (Some "3") (Some "29") (Some "29")
                                       1 1 1);
    intros ds Hds; injection Hds as <-;
    (split; [discriminate|split; [reflexivity|vm_compute; discriminate]]).
Defined.

Lemma parse_offset_not_negative_witness :
  0 ≤ days (mk_timedelta 1 7200) ≤ 999999999
  ∧ 0 ≤ seconds (mk_timedelta 1 7200) < 86400.
Proof.
  apply (parse_offset_not_negative "1d 2h"). vm_compute. reflexivity.
Defined.

Lemma output_path_beside_input_witness :
  parent (OffsetFile.output_path example_path_1) = parent example_path_1
  ∧ name (OffsetFile.output_path example_path_1)
    = stem example_path_1 +:+ "_offset" +:+ suffix example_path_1
  ∧ len (name (OffsetFile.output_path example_path_1)) = len (name example_path_1) + 7
  ∧ OffsetFile.output_path example_path_1 ≠ example_path_1.
Proof.
  apply (output_path_beside_input example_path_1). vm_compute. reflexivity.
Defined.

Lemma plot_logger_id_of_plot_path_witness :
  name (Plot.plot_path (mk_Path "" ["plots"]) "A538D8") = Plot.plot_name "A538D8"
  ∧ Map.plot_logger_id (Plot.plot_path (mk_Path "" ["plots"]) "A538D8") = "A538D8"
  ∧ is_combined (Plot.plot_path (mk_Path "" ["plots"]) "A538D8").
Proof.
  apply plot_logger_id_of_plot_path; vm_compute; reflexivity.
Defined.

Lemma find_plot_files_finds_group_plots_witness :
  Map.find_plot_files (Some (Plot.plot_path (mk_Path "" ["plots"]) <$> ["2005-0070"]))
  !! "2005-0070"
  = Some (Plot.plot_path (mk_Path "" ["plots"]) "2005-0070").
Proof.
  apply (find_plot_files_finds_group_plots [example_path_1; example_path_2]).
  - intros f Hf.
    apply elem_of_cons in Hf as [->|Hf]; [|apply list_elem_of_singleton in Hf as ->];
      (split; [vm_compute; reflexivity|left; vm_compute; reflexivity]).
  - intros i Hi. apply list_elem_of_singleton in Hi as ->.
    rewrite group_files_lookup. vm_compute. eexists. reflexivity.
  - apply list_elem_of_here.
Defined.

Lemma output_path_keeps_suffix_witness :
  suffix (OffsetFile.output_path example_path_1) = suffix example_path_1
  ∧ stem (OffsetFile.output_path example_path_1) = stem example_path_1 +:+ "_offset".
Proof.
  apply output_path_keeps_suffix; [vm_compute; reflexivity|].
  intros Hs. vm_compute in Hs. discriminate Hs.
Defined.

Lemma map_row_has_plot_metadata_witness :
  ∃ r, Plot.load_metadata (Some [example_row "A1" "3000"])
       !! row_id (example_row "A1" "3000") = Some r
       ∧ r ∈ [example_row "A1" "3000"]
       ∧ plot_id r = row_id (example_row "A1" "3000").
Proof.
  apply map_row_has_plot_metadata.
  - intros r Hr. apply list_elem_of_singleton in Hr as ->.
    intros Hid. vm_compute in Hid. discriminate Hid.
  - apply list_elem_of_here.
  - vm_compute. reflexivity.
  - intros Hnil. apply (f_equal length) in Hnil. vm_compute in Hnil. discriminate Hnil.
Defined.

End runs.
